(** * LocaMate: the itinerary aggregate, the places gateway and the
      itinerary generation flow, embedded from the server sources.

    Sources embedded here:
    - models/Itinerary.js (schema and document methods),
    - models/Place.js (updatePopularity),
    - services/foursquareService.js (searchPlaces, cachePlace(s), formatPlace(s)),
    - services/openaiService.js (generateItinerary, parseItineraryResponse),
    - controllers/itineraryController.js (generateItinerary, updateItinerary).

    Conventions of the embedding.
    - A JS Number that the schema or the route validators keep integral
      (order, durations, counters, ratings of an itinerary entry) is a [Z];
      the statistics and the rating of a cached place, which enter a
      floating-point formula, are binary64 [float]s.
    - [undefined]/[null] is [None]; a Date is its millisecond timestamp.
    - A document method that ends in [return this.save()] is modelled as the
      in-memory mutation of the document; the clock ([new Date()],
      [Date.now]) is an explicit argument [now].
    - Strings are ASCII strings; [toLowerCase] folds A-Z only. *)

From Stdlib Require Import ZArith List String Ascii Bool Lia Floats.
From Stdlib Require Import Decimal DecimalString.
From Stdlib Require DecimalPos.
From stdpp Require Import base list strings gmap.

#[local] Set Warnings "-inexact-float".
Local Open Scope string_scope.
Local Open Scope Z_scope.

(** ** JavaScript primitives used by the sources *)

Module JS.

(** [x || d] for an optional number: [undefined], [null] and [0] are falsy. *)
Definition truthyNum (x : option Z) : bool :=
  match x with
  | Some n => negb (n =? 0)
  | None => false
  end.

Definition orNum (x : option Z) (d : Z) : Z :=
  match x with
  | Some n => if n =? 0 then d else n
  | None => d
  end.

(** [x || 0] on a binary64 Number: [undefined], [0], [-0] and [NaN] are
    falsy. *)
Definition orZero (x : option float) : float :=
  match x with
  | Some v => if (PrimFloat.eqb v 0 || PrimFloat.is_nan v)%bool then 0%float else v
  | None => 0%float
  end.

(** [x || d] for an optional string: [undefined] and [''] are falsy. *)
Definition truthyStr (x : option string) : bool :=
  match x with
  | Some EmptyString => false
  | Some _ => true
  | None => false
  end.

Definition orStr (x : option string) (d : string) : string :=
  match x with
  | Some EmptyString => d
  | Some s => s
  | None => d
  end.

(** [x || d] where [d] may itself be [undefined]. *)
Definition orStrOpt (x d : option string) : option string :=
  if truthyStr x then x else d.

(** [String.prototype.toLowerCase], on ASCII. *)
Definition lowerAscii (c : ascii) : ascii :=
  let n := nat_of_ascii c in
  if ((65 <=? n)%nat && (n <=? 90)%nat)%bool then ascii_of_nat (n + 32) else c.

Fixpoint toLowerCase (s : string) : string :=
  match s with
  | EmptyString => EmptyString
  | String c tl => String (lowerAscii c) (toLowerCase tl)
  end.

(** [s.includes(t)]: [t] occurs in [s] as a contiguous substring. *)
Fixpoint includes (s t : string) : bool :=
  if String.prefix t s then true
  else match s with
       | EmptyString => false
       | String _ tl => includes tl t
       end.

(** Template-literal rendering of a non-negative array index. *)
Definition showIndex (i : nat) : string :=
  NilEmpty.string_of_uint (Nat.to_uint i).

(** [String.prototype.trim], on ASCII white space. *)
Definition isSpace (c : ascii) : bool :=
  let n := nat_of_ascii c in
  ((n =? 32) || ((9 <=? n) && (n <=? 13)))%nat.

Fixpoint trimStart (s : string) : string :=
  match s with
  | String c tl => if isSpace c then trimStart tl else s
  | EmptyString => EmptyString
  end.

Fixpoint trimEnd (s : string) : string :=
  match s with
  | EmptyString => EmptyString
  | String c tl =>
      match trimEnd tl with
      | EmptyString => if isSpace c then EmptyString else String c EmptyString
      | tl' => String c tl'
      end
  end.

Definition trim (s : string) : string := trimEnd (trimStart s).

End JS.

(** ** Results of calls that may throw *)

Inductive result (A : Type) :=
| Return (a : A)
| Throw (message : string).
Arguments Return {A} a.
Arguments Throw {A} message.

(** ** The part of MongoDB's query language that [findPopular] uses

    [find(filter).sort(spec).limit(n)] runs in the database, on the stored
    documents.  A sort key is a dotted field path; the path is resolved
    against the stored document, and a path that crosses an array of
    sub-documents collects the named field of every element.  A document in
    which the path names nothing sorts as [null]. *)

Module Mongo.

#[local] Unset Elimination Schemes.
Inductive value :=
| VNull
| VNum (n : Z)
| VStr (s : string)
| VDoc (fields : list (string * value))
| VArr (elems : list value)
| VId (oid : string)
| VBool (b : bool)
| VDate (t : Z).
#[local] Set Elimination Schemes.

Inductive direction := Asc | Desc.

Fixpoint getField (k : string) (fields : list (string * value)) : option value :=
  match fields with
  | [] => None
  | (k', v) :: tl => if String.eqb k' k then Some v else getField k tl
  end.

(** The values a dotted path names in a document.  At the end of the path
    an array stands for its elements; an empty array (or a field that is
    not there) names nothing. *)
Fixpoint resolve (path : list string) (v : value) : list value :=
  match path with
  | [] =>
      match v with
      | VArr elems => elems
      | _ => [v]
      end
  | k :: rest =>
      match v with
      | VDoc fields =>
          match getField k fields with
          | None => []
          | Some w =>
              match rest, w with
              | _ :: _, VArr elems => flat_map (resolve rest) elems
              | _, _ => resolve rest w
              end
          end
      | _ => []
      end
  end.

(** The comparison order of BSON types. *)
Definition typeRank (v : value) : Z :=
  match v with
  | VNull => 1
  | VNum _ => 2
  | VStr _ => 3
  | VDoc _ => 4
  | VArr _ => 5
  | VId _ => 7
  | VBool _ => 8
  | VDate _ => 9
  end.

(** Values of one type compare by value; sub-documents and arrays, which no
    sort key of this development resolves to, are left unordered. *)
Definition compareValues (a b : value) : comparison :=
  match a, b with
  | VNum x, VNum y => Z.compare x y
  | VStr x, VStr y => String.compare x y
  | VId x, VId y => String.compare x y
  | VBool x, VBool y => Bool.compare x y
  | VDate x, VDate y => Z.compare x y
  | _, _ => Z.compare (typeRank a) (typeRank b)
  end.

Definition pick (d : direction) (a b : value) : value :=
  match d, compareValues a b with
  | Desc, Lt => b
  | Asc, Gt => b
  | _, _ => a
  end.

(** The key a document sorts by: the largest named value for a descending
    sort, the smallest for an ascending one, [null] when there is none. *)
Definition sortKey (d : direction) (path : list string) (doc : value) : value :=
  match resolve path doc with
  | [] => VNull
  | v :: vs => fold_left (pick d) vs v
  end.

Definition sortSpec := list (list string * direction).

(** [Lt] when [a] comes before [b] under the specification. *)
Fixpoint compareDocs (spec : sortSpec) (a b : value) : comparison :=
  match spec with
  | [] => Eq
  | (path, d) :: rest =>
      match compareValues (sortKey d path a) (sortKey d path b), d with
      | Eq, _ => compareDocs rest a b
      | c, Asc => c
      | c, Desc => CompOpp c
      end
  end.

Section Sort.
Context {A : Type} (toBSON : A -> value) (spec : sortSpec).

Fixpoint insertSorted (x : A) (l : list A) : list A :=
  match l with
  | [] => [x]
  | y :: tl =>
      match compareDocs spec (toBSON y) (toBSON x) with
      | Gt => x :: y :: tl
      | _ => y :: insertSorted x tl
      end
  end.

(** Documents that tie on every key keep their stored order. *)
Definition sort (l : list A) : list A := fold_right insertSorted [] l.
End Sort.

(** [limit(n)]: [0] means no limit, a negative number counts as its
    absolute value. *)
Definition limit {A : Type} (n : Z) (l : list A) : list A :=
  if n =? 0 then l else take (Z.abs_nat n) l.

End Mongo.

(** ** models/Itinerary.js *)

Module Itinerary.

(** An element of the [places] sub-document array. *)
Record placeEntry := mkPlaceEntry {
  placeId : string;
  name : option string;
  category : option string;
  order : Z;
  estimatedDuration : Z;
  notes : option string;
  isVisited : bool;
  rating : option Z
}.

(** An element of the [likes] array; [likedAt] defaults to [Date.now]. *)
Record like := mkLike {
  like_user : string;
  likedAt : Z
}.

(** The itinerary document.  [location] keeps the "lon,lat" text the
    coordinates are parsed from; the write-only [weather] snapshot is left
    out. *)
Record itinerary := mkItinerary {
  user : string;
  title : string;
  description : option string;
  type_ : string;
  mood : string;
  purpose : string;
  location : string;
  places : list placeEntry;
  totalDuration : Z;
  totalDistance : Z;
  estimatedCost : Z;
  tags : list string;
  isPublic : bool;
  isCompleted : bool;
  completedAt : option Z;
  aiGenerated : bool;
  aiPrompt : option string;
  likes : list like;
  shares : Z
}.

Definition with_places (ps : list placeEntry) (it : itinerary) : itinerary :=
  mkItinerary (user it) (title it) (description it) (type_ it) (mood it)
    (purpose it) (location it) ps (totalDuration it) (totalDistance it)
    (estimatedCost it) (tags it) (isPublic it) (isCompleted it)
    (completedAt it) (aiGenerated it) (aiPrompt it) (likes it) (shares it).

Definition with_totalDuration (d : Z) (it : itinerary) : itinerary :=
  mkItinerary (user it) (title it) (description it) (type_ it) (mood it)
    (purpose it) (location it) (places it) d (totalDistance it)
    (estimatedCost it) (tags it) (isPublic it) (isCompleted it)
    (completedAt it) (aiGenerated it) (aiPrompt it) (likes it) (shares it).

Definition with_completed (now : Z) (it : itinerary) : itinerary :=
  mkItinerary (user it) (title it) (description it) (type_ it) (mood it)
    (purpose it) (location it) (places it) (totalDuration it)
    (totalDistance it) (estimatedCost it) (tags it) (isPublic it) true
    (Some now) (aiGenerated it) (aiPrompt it) (likes it) (shares it).

Definition with_likes (ls : list like) (it : itinerary) : itinerary :=
  mkItinerary (user it) (title it) (description it) (type_ it) (mood it)
    (purpose it) (location it) (places it) (totalDuration it)
    (totalDistance it) (estimatedCost it) (tags it) (isPublic it)
    (isCompleted it) (completedAt it) (aiGenerated it) (aiPrompt it) ls
    (shares it).

Definition with_title (t : string) (it : itinerary) : itinerary :=
  mkItinerary (user it) t (description it) (type_ it) (mood it)
    (purpose it) (location it) (places it) (totalDuration it)
    (totalDistance it) (estimatedCost it) (tags it) (isPublic it)
    (isCompleted it) (completedAt it) (aiGenerated it) (aiPrompt it)
    (likes it) (shares it).

Definition with_description (d : string) (it : itinerary) : itinerary :=
  mkItinerary (user it) (title it) (Some d) (type_ it) (mood it)
    (purpose it) (location it) (places it) (totalDuration it)
    (totalDistance it) (estimatedCost it) (tags it) (isPublic it)
    (isCompleted it) (completedAt it) (aiGenerated it) (aiPrompt it)
    (likes it) (shares it).

Definition with_isPublic (b : bool) (it : itinerary) : itinerary :=
  mkItinerary (user it) (title it) (description it) (type_ it) (mood it)
    (purpose it) (location it) (places it) (totalDuration it)
    (totalDistance it) (estimatedCost it) (tags it) b
    (isCompleted it) (completedAt it) (aiGenerated it) (aiPrompt it)
    (likes it) (shares it).

(** What a caller hands to [addPlace]: the schema paths of an entry, all
    optional but the required [placeId].  An [order] in it would be
    overwritten by the [order: maxOrder + 1] that follows the spread, so it
    is not part of the record. *)
Record placeData := mkPlaceData {
  pd_placeId : string;
  pd_name : option string;
  pd_category : option string;
  pd_estimatedDuration : option Z;
  pd_notes : option string;
  pd_isVisited : option bool;
  pd_rating : option Z
}.

(** Sub-document casting on [push]: schema defaults fill the absent paths
    ([estimatedDuration] 60, [isVisited] false). *)
Definition castPlace (pd : placeData) (ord : Z) : placeEntry :=
  {| placeId := pd_placeId pd;
     name := pd_name pd;
     category := pd_category pd;
     order := ord;
     estimatedDuration := default 60 (pd_estimatedDuration pd);
     notes := pd_notes pd;
     isVisited := default false (pd_isVisited pd);
     rating := pd_rating pd |}.

(** [this.places.reduce((total, place) => total + place.estimatedDuration, 0)] *)
Definition updateTotals (it : itinerary) : itinerary :=
  with_totalDuration
    (fold_left (fun total place => total + estimatedDuration place) (places it) 0)
    it.

(** [this.places.length > 0 ? Math.max(...this.places.map(p => p.order)) : 0] *)
Definition maxOrder (ps : list placeEntry) : Z :=
  match map order ps with
  | [] => 0
  | o :: os => fold_left Z.max os o
  end.

Definition addPlace (pd : placeData) (it : itinerary) : itinerary :=
  let maxOrder := maxOrder (places it) in
  updateTotals (with_places (places it ++ [castPlace pd (maxOrder + 1)]) it).

Definition set_order (o : Z) (p : placeEntry) : placeEntry :=
  {| placeId := placeId p; name := name p; category := category p;
     order := o; estimatedDuration := estimatedDuration p;
     notes := notes p; isVisited := isVisited p; rating := rating p |}.

(** [this.places.forEach((place, index) => { place.order = index + 1; })],
    [index] counted from [i]. *)
Fixpoint renumber (i : Z) (ps : list placeEntry) : list placeEntry :=
  match ps with
  | [] => []
  | p :: tl => set_order (i + 1) p :: renumber (i + 1) tl
  end.

Definition removePlace (pid : string) (it : itinerary) : itinerary :=
  let kept := List.filter (fun place => negb (String.eqb (placeId place) pid)) (places it) in
  updateTotals (with_places (renumber 0 kept) it).

(** [place.isVisited = true; if (rating) place.rating = rating;] *)
Definition visit (r : option Z) (p : placeEntry) : placeEntry :=
  {| placeId := placeId p; name := name p; category := category p;
     order := order p; estimatedDuration := estimatedDuration p;
     notes := notes p; isVisited := true;
     rating := if JS.truthyNum r then r else rating p |}.

(** [find] returns the first entry with that id, which is then mutated in
    place. *)
Fixpoint visitFirst (pid : string) (r : option Z) (ps : list placeEntry)
  : list placeEntry :=
  match ps with
  | [] => []
  | p :: tl =>
      if String.eqb (placeId p) pid then visit r p :: tl
      else p :: visitFirst pid r tl
  end.

Definition markPlaceVisited (now : Z) (pid : string) (r : option Z)
  (it : itinerary) : itinerary :=
  let it1 := with_places (visitFirst pid r (places it)) it in
  if forallb isVisited (places it1) then with_completed now it1 else it1.

Definition toggleLike (now : Z) (userId : string) (it : itinerary) : itinerary :=
  match List.find (fun l => String.eqb (like_user l) userId) (likes it) with
  | Some _ =>
      with_likes
        (List.filter (fun l => negb (String.eqb (like_user l) userId)) (likes it)) it
  | None => with_likes (likes it ++ [mkLike userId now]) it
  end.

(** The operations of the aggregate, as the routes can issue them in any
    order on one document. *)
Inductive op :=
| AddPlace (pd : placeData)
| RemovePlace (pid : string)
| MarkPlaceVisited (now : Z) (pid : string) (r : option Z)
| ToggleLike (now : Z) (userId : string).

Definition step (it : itinerary) (o : op) : itinerary :=
  match o with
  | AddPlace pd => addPlace pd it
  | RemovePlace pid => removePlace pid it
  | MarkPlaceVisited now pid r => markPlaceVisited now pid r it
  | ToggleLike now u => toggleLike now u it
  end.

Definition run (ops : list op) (it : itinerary) : itinerary :=
  fold_left step ops it.

(** Schema validation, run by [save] and [create]: [title] is required and
    at most 100 characters, [description] at most 500, the three tags are
    drawn from their enums, every entry has a [placeId] and a rating, when
    it has one, between 1 and 5. *)
Definition types : list string :=
  ["morning"; "afternoon"; "evening"; "night"; "full-day"; "custom"].
Definition moods : list string :=
  ["relaxed"; "energetic"; "romantic"; "adventurous"; "social"; "productive";
   "cultural"].
Definition purposes : list string :=
  ["work"; "relax"; "explore"; "dine"; "nightlife"; "culture"; "shopping";
   "outdoor"].

Definition inEnum (s : string) (values : list string) : bool :=
  existsb (String.eqb s) values.

Definition validPlace (p : placeEntry) : bool :=
  negb (String.eqb (placeId p) "")
  && match rating p with
     | Some r => (1 <=? r) && (r <=? 5)
     | None => true
     end.

Definition valid (it : itinerary) : bool :=
  negb (String.eqb (title it) "")
  && (String.length (title it) <=? 100)%nat
  && (String.length (default "" (description it)) <=? 500)%nat
  && inEnum (type_ it) types
  && inEnum (mood it) moods
  && inEnum (purpose it) purposes
  && forallb validPlace (places it).

(** The object handed to [Itinerary.create] by the generation flow. *)
Record newDocument := mkNew {
  new_user : string;
  new_title : option string;
  new_description : option string;
  new_type : option string;
  new_mood : option string;
  new_purpose : option string;
  new_location : string;
  new_places : list placeEntry;
  new_totalDuration : option Z;
  new_estimatedCost : option Z;
  new_tags : list string;
  new_aiGenerated : bool;
  new_aiPrompt : string
}.

(** Casting with the schema's setters ([trim]) and defaults. *)
Definition cast (d : newDocument) : itinerary :=
  {| user := new_user d;
     title := JS.trim (default "" (new_title d));
     description := JS.trim <$> new_description d;
     type_ := default "custom" (new_type d);
     mood := default "relaxed" (new_mood d);
     purpose := default "explore" (new_purpose d);
     location := new_location d;
     places := new_places d;
     totalDuration := default 0 (new_totalDuration d);
     totalDistance := 0;
     estimatedCost := default 0 (new_estimatedCost d);
     tags := map JS.trim (new_tags d);
     isPublic := false;
     isCompleted := false;
     completedAt := None;
     aiGenerated := new_aiGenerated d;
     aiPrompt := Some (new_aiPrompt d);
     likes := [];
     shares := 0 |}.

(** [Itinerary.create]: the new document is appended to the collection
    when it validates, and nothing is written when it does not. *)
Definition create (d : newDocument) (collection : list itinerary)
  : list itinerary * result itinerary :=
  let it := cast d in
  if valid it then ((collection ++ [it])%list, Return it)
  else (collection, Throw "ValidationError").

(** The stored form of a like and of an itinerary, as far as the queries of
    this development look into it. *)
Definition likeBSON (l : like) : Mongo.value :=
  Mongo.VDoc [("user", Mongo.VId (like_user l));
              ("likedAt", Mongo.VDate (likedAt l))].

Definition toBSON (it : itinerary) : Mongo.value :=
  Mongo.VDoc [("user", Mongo.VId (user it));
              ("title", Mongo.VStr (title it));
              ("type", Mongo.VStr (type_ it));
              ("mood", Mongo.VStr (mood it));
              ("purpose", Mongo.VStr (purpose it));
              ("totalDuration", Mongo.VNum (totalDuration it));
              ("totalDistance", Mongo.VNum (totalDistance it));
              ("estimatedCost", Mongo.VNum (estimatedCost it));
              ("tags", Mongo.VArr (map Mongo.VStr (tags it)));
              ("isPublic", Mongo.VBool (isPublic it));
              ("isCompleted", Mongo.VBool (isCompleted it));
              ("aiGenerated", Mongo.VBool (aiGenerated it));
              ("likes", Mongo.VArr (map likeBSON (likes it)));
              ("shares", Mongo.VNum (shares it))].

(** [this.find({ isPublic: true }).sort({ 'likes.length': -1, shares: -1 }).limit(limit)];
    the two [populate] calls only replace user ids by user records. *)
Definition findPopular (limit : Z) (collection : list itinerary) : list itinerary :=
  Mongo.limit limit
    (Mongo.sort toBSON [(["likes"; "length"], Mongo.Desc); (["shares"], Mongo.Desc)]
       (List.filter isPublic collection)).

End Itinerary.

(** ** models/Place.js *)

Module Place.

Record stats := mkStats {
  totalPhotos : option float;
  totalTips : option float;
  totalCheckins : option float
}.

(** The cached place document, keyed by [foursquareId]; of the descriptive
    paths only those the flows below read or write are kept. *)
Record place := mkPlace {
  foursquareId : string;
  name : string;
  description : string;
  category : string;
  price : float;
  rating : option float;
  placeStats : stats;
  popularity : float
}.

Definition with_popularity (p : float) (pl : place) : place :=
  mkPlace (foursquareId pl) (name pl) (description pl) (category pl)
    (price pl) (rating pl) (placeStats pl) p.

Definition updatePopularity (pl : place) : place :=
  let checkins := JS.orZero (totalCheckins (placeStats pl)) in
  let tips := JS.orZero (totalTips (placeStats pl)) in
  let photos := JS.orZero (totalPhotos (placeStats pl)) in
  let rating := JS.orZero (rating pl) in
  with_popularity
    ((checkins * 0.4) + (tips * 0.3) + (photos * 0.2) + (rating * 0.1))%float
    pl.

End Place.

(** ** services/foursquareService.js *)

Module Foursquare.

(** A place as the provider's payload carries it, with the fields the
    service reads: [fsq_id], [name], the [categories] list (their names),
    and a direct [category] field, which [formatPlace] reads and the
    payload need not have. *)
Record rawPlace := mkRaw {
  fsq_id : string;
  raw_name : string;
  raw_description : option string;
  raw_category : option string;
  raw_categories : list string;
  raw_price : option float;
  raw_rating : option float;
  raw_total_photos : option float;
  raw_total_tips : option float;
  raw_total_checkins : option float
}.

(** What [formatPlace] returns for a payload place. *)
Record formatted := mkFormatted {
  id : string;
  name : string;
  description : option string;
  category : option string;
  price : option float;
  rating : option float;
  popularity : float
}.

(** [id: place.foursquareId || place.fsq_id], [category: place.category],
    [popularity: place.popularity || 0]; a payload place has neither
    [foursquareId] nor [popularity]. *)
Definition formatPlace (place : rawPlace) : formatted :=
  {| id := fsq_id place;
     name := raw_name place;
     description := raw_description place;
     category := raw_category place;
     price := raw_price place;
     rating := raw_rating place;
     popularity := 0%float |}.

Definition formatPlaces (places : list rawPlace) : list formatted :=
  map formatPlace places.

(** The document [cachePlace] writes; an update leaves the stored
    [popularity] alone, an insert starts it at the schema default. *)
Definition placeDoc (placeData : rawPlace) (old : option Place.place) : Place.place :=
  {| Place.foursquareId := fsq_id placeData;
     Place.name := raw_name placeData;
     Place.description := JS.orStr (raw_description placeData) "";
     Place.category := JS.orStr (head (raw_categories placeData)) "Unknown";
     Place.price := JS.orZero (raw_price placeData);
     Place.rating := Some (JS.orZero (raw_rating placeData));
     Place.placeStats :=
       {| Place.totalPhotos := Some (JS.orZero (raw_total_photos placeData));
          Place.totalTips := Some (JS.orZero (raw_total_tips placeData));
          Place.totalCheckins := Some (JS.orZero (raw_total_checkins placeData)) |};
     Place.popularity :=
       match old with
       | Some p => Place.popularity p
       | None => 0%float
       end |}.

(** The Place collection, one document per [foursquareId]. *)
Abbreviation cache := (gmap string Place.place).

(** [findOneAndUpdate(..., { upsert: true })] inside a try/catch that logs
    and swallows: when the store is down nothing is written and nothing is
    thrown. *)
Definition cachePlace (storeUp : bool) (placeData : rawPlace) (c : cache) : cache :=
  if storeUp
  then <[fsq_id placeData := placeDoc placeData (c !! fsq_id placeData)]> c
  else c.

Definition cachePlaces (storeUp : bool) (places : list rawPlace) (c : cache) : cache :=
  fold_left (fun c place => cachePlace storeUp place c) places c.

(** The arguments of [searchPlaces]. *)
Record searchArgs := mkArgs {
  query : option string;
  near : option string;
  ll : option string;
  radius : option Z;
  categories : option string;
  limit : option Z;
  sort : option string
}.

Inductive paramValue := PStr (s : string) | PNum (n : Z).

Definition defaultRadius : Z := 5000.

Definition keepStr (k : string) (v : string) : list (string * paramValue) :=
  match v with
  | EmptyString => []
  | _ => [(k, PStr v)]
  end.

Definition keepNum (k : string) (n : Z) : list (string * paramValue) :=
  if n =? 0 then [] else [(k, PNum n)].

(** The outbound query: defaults applied, then every falsy parameter
    deleted. *)
Definition searchParams (a : searchArgs) : list (string * paramValue) :=
  keepStr "query" (default "" (query a))
  ++ keepStr "near" (default "" (near a))
  ++ keepStr "ll" (default "" (ll a))
  ++ keepNum "radius" (default defaultRadius (radius a))
  ++ keepStr "categories" (default "" (categories a))
  ++ keepNum "limit" (default 20 (limit a))
  ++ keepStr "sort" (default "RATING" (sort a)).

(** What comes back from [this.client.get('/places/search', ...)]: a
    rejection (network error, non-2xx status, or the 10 s timeout of the
    client), or a body whose [results] may be missing. *)
Inductive providerOutcome :=
| Rejected (message : string)
| Responded (results : option (list rawPlace)).

Section Service.
(** The provider, and whether the Place store accepts writes. *)
Variable get : list (string * paramValue) -> providerOutcome.
Variable storeUp : bool.

Definition searchPlaces (params : searchArgs) (c : cache)
  : cache * result (list formatted) :=
  match get (searchParams params) with
  | Rejected _ => (c, Throw "Failed to search places")
  | Responded results =>
      let places := default [] results in
      (cachePlaces storeUp places c, Return (formatPlaces places))
  end.
End Service.

End Foursquare.

(** ** services/openaiService.js *)

Module OpenAI.

(** A place stub of the skeleton the system prompt asks for. *)
Record stub := mkStub {
  stub_name : option string;
  stub_category : option string;
  stub_description : option string;
  stub_estimatedDuration : option Z;
  stub_notes : option string
}.

(** The parsed skeleton: the JSON structure of [buildItinerarySystemPrompt],
    any member of which the model's reply may omit. *)
Record skeleton := mkSkeleton {
  sk_title : option string;
  sk_description : option string;
  sk_type : option string;
  sk_mood : option string;
  sk_purpose : option string;
  sk_places : option (list stub);
  sk_totalDuration : option Z;
  sk_estimatedCost : option Z;
  sk_tags : list string
}.

(** [{ success: true, itinerary }] or [{ success: false, error }]. *)
Inductive itineraryResponse :=
| Success (itinerary : skeleton)
| Failure (error : string).

Definition success (r : itineraryResponse) : bool :=
  match r with
  | Success _ => true
  | Failure _ => false
  end.

Section Service.
(** [JSON.parse], read at the skeleton's type: [None] when it throws. *)
Variable JSON_parse : string -> option skeleton.
(** [openai.chat.completions.create] followed by
    [response.choices[0].message.content], as a function of what the two
    prompts are built from; [None] when the call rejects. *)
Variable chat : string -> string -> string -> option string.

Definition parseItineraryResponse (response : string) : itineraryResponse :=
  match JSON_parse response with
  | Some parsed => Success parsed
  | None => Failure "Failed to generate itinerary"
  end.

Definition generateItinerary (prompt userPreferences location : string)
  : result itineraryResponse :=
  match chat prompt userPreferences location with
  | Some aiResponse => Return (parseItineraryResponse aiResponse)
  | None => Throw "Failed to generate itinerary"
  end.
End Service.

End OpenAI.

(** ** controllers/itineraryController.js *)

Module Controller.

(** The user document, as far as the controller reads it:
    [location.coordinates.join(',')] when the coordinates are there,
    [preferences] (as the text the prompt embeds), and [points]. *)
Record user := mkUser {
  coordinates : option string;
  preferences : string;
  points : Z
}.

Definition addPoints (n : Z) (u : user) : user :=
  mkUser (coordinates u) (preferences u) (points u + n).

Record state := mkState {
  itineraries : list Itinerary.itinerary;
  placeCache : gmap string Place.place;
  users : gmap string user
}.

(** [res.status(...).json({ success, message, data })]. *)
Record response := mkResponse {
  status : Z;
  success : bool;
  message : string;
  data : option Itinerary.itinerary
}.

Record generateRequest := mkGenerate {
  req_user : string;
  prompt : option string;
  location : option string
}.

(** [find] with a predicate that may throw: the exception escapes at the
    first element on which it is raised. *)
Fixpoint findM {A : Type} (p : A -> result bool) (l : list A) : result (option A) :=
  match l with
  | [] => Return None
  | x :: tl =>
      match p x with
      | Throw m => Throw m
      | Return true => Return (Some x)
      | Return false => findM p tl
      end
  end.

(** [result.name.toLowerCase().includes(place.name.toLowerCase()) ||
     result.category.toLowerCase().includes(place.category.toLowerCase())];
    [toLowerCase] of [undefined] is a TypeError. *)
Definition isMatch (place : OpenAI.stub) (r : Foursquare.formatted) : result bool :=
  match OpenAI.stub_name place with
  | None => Throw "TypeError"
  | Some placeName =>
      if JS.includes (JS.toLowerCase (Foursquare.name r)) (JS.toLowerCase placeName)
      then Return true
      else
        match Foursquare.category r, OpenAI.stub_category place with
        | Some resultCategory, Some placeCategory =>
            Return (JS.includes (JS.toLowerCase resultCategory)
                      (JS.toLowerCase placeCategory))
        | _, _ => Throw "TypeError"
        end
  end.

Definition placeholderId (index : nat) : string :=
  "placeholder-" +:+ JS.showIndex index.

(** The entry built in the [try] branch; with [bestMatch] undefined it is
    also, field for field, the entry of the [catch] branch. *)
Definition entryOf (bestMatch : option Foursquare.formatted) (index : nat)
  (place : OpenAI.stub) : Itinerary.placeEntry :=
  {| Itinerary.placeId :=
       JS.orStr (Foursquare.id <$> bestMatch) (placeholderId index);
     Itinerary.name :=
       JS.orStrOpt (Foursquare.name <$> bestMatch) (OpenAI.stub_name place);
     Itinerary.category :=
       JS.orStrOpt (bestMatch ≫= Foursquare.category) (OpenAI.stub_category place);
     Itinerary.order := Z.of_nat index + 1;
     Itinerary.estimatedDuration := JS.orNum (OpenAI.stub_estimatedDuration place) 60;
     Itinerary.notes := Some (JS.orStr (OpenAI.stub_notes place) "");
     Itinerary.isVisited := false;
     Itinerary.rating := None |}.

Record updateBody := mkUpdate {
  ub_title : option string;
  ub_description : option string;
  ub_places : option (list Itinerary.placeEntry);
  ub_isPublic : option bool
}.

Definition ok (message : string) (it : Itinerary.itinerary) : response :=
  mkResponse 200 true message (Some it).

Definition fail (code : Z) (message : string) : response :=
  mkResponse code false message None.

(** [updateItinerary], from the document [findOne] found: the saved
    document (if any) and the answer.  [places] is the array of the request
    as cast to sub-documents; any array, the empty one included, is truthy. *)
Definition updateItinerary (body : updateBody) (found : option Itinerary.itinerary)
  : option Itinerary.itinerary * result response :=
  match found with
  | None => (None, Return (fail 404 "Itinerary not found"))
  | Some itinerary =>
      let it1 :=
        if JS.truthyStr (ub_title body)
        then Itinerary.with_title (JS.trim (default "" (ub_title body))) itinerary
        else itinerary in
      let it2 :=
        if JS.truthyStr (ub_description body)
        then Itinerary.with_description (JS.trim (default "" (ub_description body))) it1
        else it1 in
      let it3 :=
        match ub_places body with
        | Some places => Itinerary.updateTotals (Itinerary.with_places places it2)
        | None => it2
        end in
      let it4 :=
        match ub_isPublic body with
        | Some isPublic => Itinerary.with_isPublic isPublic it3
        | None => it3
        end in
      if Itinerary.valid it4
      then (Some it4, Return (ok "Itinerary updated successfully" it4))
      else (None, Throw "ValidationError")
  end.

Section Handlers.
Variable JSON_parse : string -> option OpenAI.skeleton.
Variable chat : string -> string -> string -> option string.
Variable get : list (string * Foursquare.paramValue) -> Foursquare.providerOutcome.
Variable storeUp : bool.

(** The body of the [places.map(async (place, index) => ...)] callback. *)
Definition resolvePlace (searchLocation : string) (index : nat)
  (place : OpenAI.stub) (c : gmap string Place.place)
  : gmap string Place.place * Itinerary.placeEntry :=
  let '(c', searched) :=
    Foursquare.searchPlaces get storeUp
      {| Foursquare.query := OpenAI.stub_name place;
         Foursquare.near := None;
         Foursquare.ll := Some searchLocation;
         Foursquare.radius := Some 5000;
         Foursquare.categories := None;
         Foursquare.limit := Some 5;
         Foursquare.sort := None |} c in
  match searched with
  | Throw _ => (c', entryOf None index place)
  | Return searchResults =>
      match findM (isMatch place) searchResults with
      | Throw _ => (c', entryOf None index place)
      | Return bestMatch => (c', entryOf bestMatch index place)
      end
  end.

(** [Promise.all(places.map(...))]: one entry per stub, in the order of
    the stubs; the searches are run here one after the other, the cache
    being the only thing they share. *)
Fixpoint resolvePlaces (searchLocation : string) (index : nat)
  (places : list OpenAI.stub) (c : gmap string Place.place)
  : gmap string Place.place * list Itinerary.placeEntry :=
  match places with
  | [] => (c, [])
  | place :: rest =>
      let '(c1, entry) := resolvePlace searchLocation index place c in
      let '(c2, entries) := resolvePlaces searchLocation (S index) rest c1 in
      (c2, entry :: entries)
  end.

Definition generateItinerary (req : generateRequest) (st : state)
  : state * result response :=
  if negb (JS.truthyStr (prompt req))
  then (st, Return (fail 400 "Prompt is required"))
  else
    let prompt := default "" (prompt req) in
    match users st !! req_user req with
    | None => (st, Throw "TypeError")
    | Some user =>
        match JS.orStrOpt (location req) (coordinates user) with
        | None | Some EmptyString =>
            (st, Return (fail 400 "Location is required for itinerary generation"))
        | Some searchLocation =>
            match OpenAI.generateItinerary JSON_parse chat prompt
                    (preferences user) searchLocation with
            | Throw m => (st, Throw m)
            | Return (OpenAI.Failure error) =>
                (st, Return (fail 500 (JS.orStr (Some error) "Failed to generate itinerary")))
            | Return (OpenAI.Success itinerary) =>
                match OpenAI.sk_places itinerary with
                | None => (st, Throw "TypeError")
                | Some places =>
                    let '(c, itineraryPlaces) :=
                      resolvePlaces searchLocation 0 places (placeCache st) in
                    let '(coll, created) :=
                      Itinerary.create
                        {| Itinerary.new_user := req_user req;
                           Itinerary.new_title := OpenAI.sk_title itinerary;
                           Itinerary.new_description := OpenAI.sk_description itinerary;
                           Itinerary.new_type := OpenAI.sk_type itinerary;
                           Itinerary.new_mood := OpenAI.sk_mood itinerary;
                           Itinerary.new_purpose := OpenAI.sk_purpose itinerary;
                           Itinerary.new_location := searchLocation;
                           Itinerary.new_places := itineraryPlaces;
                           Itinerary.new_totalDuration := OpenAI.sk_totalDuration itinerary;
                           Itinerary.new_estimatedCost := OpenAI.sk_estimatedCost itinerary;
                           Itinerary.new_tags := OpenAI.sk_tags itinerary;
                           Itinerary.new_aiGenerated := true;
                           Itinerary.new_aiPrompt := prompt |}
                        (itineraries st) in
                    match created with
                    | Throw m => (mkState coll c (users st), Throw m)
                    | Return it =>
                        (mkState coll c
                           (<[req_user req := addPoints 15 user]> (users st)),
                         Return (ok "Itinerary generated successfully" it))
                    end
                end
            end
        end
    end.
End Handlers.

End Controller.

(** ** models/User.js, as far as the places controller uses it *)

Module User.

Record favorite := mkFavorite {
  fav_placeId : string;
  fav_name : option string;
  fav_category : option string;
  addedAt : Z
}.

Record visit := mkVisit {
  visit_placeId : string;
  visit_name : option string;
  visit_category : option string;
  visitedAt : Z;
  visit_rating : option Z
}.

Record badge := mkBadge {
  badge_name : string;
  badge_description : string;
  earnedAt : Z
}.

Record user := mkUser {
  favorites : list favorite;
  visitedPlaces : list visit;
  points : Z;
  badges : list badge
}.

(** [this.points += points] *)
Definition addPoints (n : Z) (u : user) : user :=
  mkUser (favorites u) (visitedPlaces u) (points u + n) (badges u).

(** [addBadge]: a badge is pushed only when none has that name;
    [earnedAt] defaults to [Date.now]. *)
Definition addBadge (now : Z) (badgeName description : string) (u : user) : user :=
  match List.find (fun b => String.eqb (badge_name b) badgeName) (badges u) with
  | Some _ => u
  | None =>
      mkUser (favorites u) (visitedPlaces u) (points u)
        (badges u ++ [mkBadge badgeName description now])
  end.

(** Schema validation of the two sub-document arrays: [placeId] is required,
    a rating lies between 1 and 5. *)
Definition validVisit (v : visit) : bool :=
  negb (String.eqb (visit_placeId v) "")
  && match visit_rating v with
     | Some r => (1 <=? r) && (r <=? 5)
     | None => true
     end.

Definition valid (u : user) : bool :=
  forallb (fun f => negb (String.eqb (fav_placeId f) "")) (favorites u)
  && forallb validVisit (visitedPlaces u).

End User.

(** ** controllers/placesController.js: favourites and visits *)

Module PlacesController.
Import User.

(** [res.status(...).json({ success, message, data })]; [data] is the user's
    list after the call and is read off the stored document. *)
Record response := mkResponse {
  status : Z;
  success : bool;
  message : string
}.

(** [req.body.placeId] as the JSON parser leaves it: a string, or a
    number, which the route's [notEmpty()] check lets through as well.  An
    absent id behaves as the empty string: it equals no stored id and fails
    the [required] check. *)
Inductive bodyId :=
| IdStr (s : string)
| IdNum (n : Z).

(** [String(n)] for an integral number (below 1e21 in magnitude). *)
Definition numberToString (n : Z) : string :=
  NilEmpty.string_of_int (Z.to_int n).

(** The cast to the schema's [String] when the id is pushed. *)
Definition castId (id : bodyId) : string :=
  match id with
  | IdStr s => s
  | IdNum n => numberToString n
  end.

(** [stored === placeId]: a stored id is a string, and no string is
    strictly equal to a number. *)
Definition strictEq (stored : string) (id : bodyId) : bool :=
  match id with
  | IdStr s => String.eqb stored s
  | IdNum _ => false
  end.

Record placeBody := mkBody {
  body_placeId : bodyId;
  body_name : option string;
  body_category : option string;
  body_rating : option Z
}.

(** Each handler is given the document [User.findById] returned and yields
    the document as stored afterwards together with its answer; a [save]
    that fails validation throws and stores nothing. *)
Definition addToFavorites (now : Z) (body : placeBody) (u : user)
  : user * result response :=
  match List.find (fun fav => strictEq (fav_placeId fav) (body_placeId body))
          (favorites u) with
  | Some _ => (u, Return (mkResponse 400 false "Place is already in favorites"))
  | None =>
      let u1 :=
        mkUser (favorites u
                ++ [mkFavorite (castId (body_placeId body)) (body_name body)
                      (body_category body) now])
          (visitedPlaces u) (points u) (badges u) in
      if valid u1
      then (addPoints 5 u1, Return (mkResponse 200 true "Added to favorites successfully"))
      else (u, Throw "ValidationError")
  end.

Definition removeFromFavorites (placeId : string) (u : user) : user * result response :=
  let u1 :=
    mkUser (List.filter (fun fav => negb (String.eqb (fav_placeId fav) placeId))
              (favorites u))
      (visitedPlaces u) (points u) (badges u) in
  if valid u1
  then (u1, Return (mkResponse 200 true "Removed from favorites successfully"))
  else (u, Throw "ValidationError").

(** [if (rating) existingVisit.rating = rating; existingVisit.visitedAt = new Date();]
    on the first visit with that place id. *)
Definition revisit (now : Z) (rating : option Z) (v : visit) : visit :=
  mkVisit (visit_placeId v) (visit_name v) (visit_category v) now
    (if JS.truthyNum rating then rating else visit_rating v).

Fixpoint revisitFirst (now : Z) (placeId : bodyId) (rating : option Z)
  (vs : list visit) : list visit :=
  match vs with
  | [] => []
  | v :: tl =>
      if strictEq (visit_placeId v) placeId then revisit now rating v :: tl
      else v :: revisitFirst now placeId rating tl
  end.

Definition markAsVisited (now : Z) (body : placeBody) (u : user)
  : user * result response :=
  let visits :=
    match List.find (fun v => strictEq (visit_placeId v) (body_placeId body))
            (visitedPlaces u) with
    | Some _ => revisitFirst now (body_placeId body) (body_rating body) (visitedPlaces u)
    | None =>
        (visitedPlaces u
         ++ [mkVisit (castId (body_placeId body)) (body_name body) (body_category body) now
               (if JS.truthyNum (body_rating body) then body_rating body else None)])%list
    end in
  let u1 := mkUser (favorites u) visits (points u) (badges u) in
  if valid u1
  then
    let u2 := addPoints 10 u1 in
    let u3 :=
      if (length (visitedPlaces u2) =? 1)%nat
      then addBadge now "First Explorer" "Visited your first place!" u2
      else if (length (visitedPlaces u2) =? 10)%nat
           then addBadge now "Adventure Seeker" "Visited 10 different places!" u2
           else u2 in
    (u3, Return (mkResponse 200 true "Marked as visited successfully"))
  else (u, Throw "ValidationError").

(** The [userInteraction] object of [getPlaceDetails], read off the
    document of the authenticated user. *)
Record interaction := mkInteraction {
  isFavorite : bool;
  visited : bool;
  rating : option Z
}.

Definition userInteraction (id : string) (u : user) : interaction :=
  let isFavorite := existsb (fun fav => String.eqb (fav_placeId fav) id) (favorites u) in
  let visited :=
    List.find (fun visit => String.eqb (visit_placeId visit) id) (visitedPlaces u) in
  mkInteraction isFavorite
    (match visited with Some _ => true | None => false end)
    (match visited with
     | Some v => if JS.truthyNum (visit_rating v) then visit_rating v else None
     | None => None
     end).

(** The three requests, as one user can issue them in any order. *)
Inductive request :=
| AddToFavorites (now : Z) (body : placeBody)
| RemoveFromFavorites (placeId : string)
| MarkAsVisited (now : Z) (body : placeBody).

Definition handle (u : user) (r : request) : user * result response :=
  match r with
  | AddToFavorites now body => addToFavorites now body u
  | RemoveFromFavorites placeId => removeFromFavorites placeId u
  | MarkAsVisited now body => markAsVisited now body u
  end.

(** The stored document after a sequence of requests. *)
Definition serve (rs : list request) (u : user) : user :=
  fold_left (fun u r => fst (handle u r)) rs u.

End PlacesController.

(** ** controllers/itineraryController.js: the handlers on a stored itinerary *)

Module ItineraryRoutes.

(** The itinerary collection, by [_id]. *)
Abbreviation collection := (gmap string Itinerary.itinerary).

(** [Itinerary.findOne({ _id: id, user: req.user._id })] *)
Definition findOne (id userId : string) (c : collection) : option Itinerary.itinerary :=
  match c !! id with
  | Some it => if String.eqb (Itinerary.user it) userId then Some it else None
  | None => None
  end.

(** [Itinerary.findById(id)] *)
Definition findById (id : string) (c : collection) : option Itinerary.itinerary :=
  c !! id.

(** [save()] followed by the handler's answer: a document that fails
    validation is not written and the error is thrown. *)
Definition save (id : string) (it : Itinerary.itinerary) (message : string)
  (c : collection) : collection * result Controller.response :=
  if Itinerary.valid it
  then (<[id := it]> c, Return (Controller.ok message it))
  else (c, Throw "ValidationError").

Definition notFound : Controller.response :=
  Controller.fail 404 "Itinerary not found".

Definition updateItinerary (userId id : string) (body : Controller.updateBody)
  (c : collection) : collection * result Controller.response :=
  match Controller.updateItinerary body (findOne id userId c) with
  | (Some itinerary, answer) => (<[id := itinerary]> c, answer)
  | (None, answer) => (c, answer)
  end.

(** [findOneAndDelete] with the same filter. *)
Definition deleteItinerary (userId id : string) (c : collection)
  : collection * result Controller.response :=
  match findOne id userId c with
  | None => (c, Return notFound)
  | Some _ =>
      (delete id c,
       Return (Controller.mkResponse 200 true "Itinerary deleted successfully" None))
  end.

Definition markPlaceVisited (now : Z) (userId id placeId : string) (rating : option Z)
  (c : collection) : collection * result Controller.response :=
  match findOne id userId c with
  | None => (c, Return notFound)
  | Some itinerary =>
      save id (Itinerary.markPlaceVisited now placeId rating itinerary)
        "Place marked as visited" c
  end.

(** The body of the add-place request. *)
Record addPlaceBody := mkAddPlace {
  ap_placeId : string;
  ap_name : option string;
  ap_category : option string;
  ap_estimatedDuration : option Z;
  ap_notes : option string
}.

Definition addPlaceToItinerary (userId id : string) (body : addPlaceBody)
  (c : collection) : collection * result Controller.response :=
  match findOne id userId c with
  | None => (c, Return notFound)
  | Some itinerary =>
      save id
        (Itinerary.addPlace
           {| Itinerary.pd_placeId := ap_placeId body;
              Itinerary.pd_name := ap_name body;
              Itinerary.pd_category := ap_category body;
              Itinerary.pd_estimatedDuration :=
                Some (JS.orNum (ap_estimatedDuration body) 60);
              Itinerary.pd_notes := Some (JS.orStr (ap_notes body) "");
              Itinerary.pd_isVisited := None;
              Itinerary.pd_rating := None |}
           itinerary)
        "Place added to itinerary" c
  end.

Definition removePlaceFromItinerary (userId id placeId : string) (c : collection)
  : collection * result Controller.response :=
  match findOne id userId c with
  | None => (c, Return notFound)
  | Some itinerary =>
      save id (Itinerary.removePlace placeId itinerary) "Place removed from itinerary" c
  end.

(** The like handler looks the itinerary up by id alone. *)
Definition toggleLike (now : Z) (userId id : string) (c : collection)
  : collection * result Controller.response :=
  match findById id c with
  | None => (c, Return notFound)
  | Some itinerary =>
      save id (Itinerary.toggleLike now userId itinerary) "Like toggled successfully" c
  end.

Definition with_shares (n : Z) (it : Itinerary.itinerary) : Itinerary.itinerary :=
  Itinerary.mkItinerary (Itinerary.user it) (Itinerary.title it)
    (Itinerary.description it) (Itinerary.type_ it) (Itinerary.mood it)
    (Itinerary.purpose it) (Itinerary.location it) (Itinerary.places it)
    (Itinerary.totalDuration it) (Itinerary.totalDistance it)
    (Itinerary.estimatedCost it) (Itinerary.tags it) (Itinerary.isPublic it)
    (Itinerary.isCompleted it) (Itinerary.completedAt it)
    (Itinerary.aiGenerated it) (Itinerary.aiPrompt it) (Itinerary.likes it) n.

(** [itinerary.shares += 1] *)
Definition shareItinerary (userId id : string) (c : collection)
  : collection * result Controller.response :=
  match findOne id userId c with
  | None => (c, Return notFound)
  | Some itinerary =>
      save id (with_shares (Itinerary.shares itinerary + 1) itinerary)
        "Itinerary shared successfully" c
  end.

(** The requests on a stored itinerary; the clock is that of the call. *)
Inductive request :=
| Update (id : string) (body : Controller.updateBody)
| Delete (id : string)
| MarkVisited (now : Z) (id placeId : string) (rating : option Z)
| AddPlace (id : string) (body : addPlaceBody)
| RemovePlace (id placeId : string)
| ToggleLike (now : Z) (id : string)
| Share (id : string).

Definition handle (userId : string) (r : request) (c : collection)
  : collection * result Controller.response :=
  match r with
  | Update id body => updateItinerary userId id body c
  | Delete id => deleteItinerary userId id c
  | MarkVisited now id placeId rating => markPlaceVisited now userId id placeId rating c
  | AddPlace id body => addPlaceToItinerary userId id body c
  | RemovePlace id placeId => removePlaceFromItinerary userId id placeId c
  | ToggleLike now id => toggleLike now userId id c
  | Share id => shareItinerary userId id c
  end.

(** The collection after a sequence of requests, each with the
    authenticated user it comes from. *)
Definition serve (reqs : list (string * request)) (c : collection) : collection :=
  fold_left (fun c q => fst (handle (fst q) (snd q) c)) reqs c.

End ItineraryRoutes.

(** ** controllers/chatController.js *)

Module Chat.

(** [getTimeOfDay], from the hour [new Date().getHours()] gives. *)
Definition getTimeOfDay (hour : Z) : string :=
  if (5 <=? hour) && (hour <? 12) then "morning"
  else if (12 <=? hour) && (hour <? 17) then "afternoon"
  else if (17 <=? hour) && (hour <? 21) then "evening"
  else "night".

(** The three [switch] blocks of [generateContextualSuggestions], each
    giving what it pushes. *)
Definition timeBased (timeOfDay : string) : list string :=
  if String.eqb timeOfDay "morning"
  then ["Find me a good coffee shop for breakfast";
        "Show me places to start my day";
        "I need a quiet place to work this morning"]
  else if String.eqb timeOfDay "afternoon"
  then ["Find me a lunch spot";
        "Show me places to explore this afternoon";
        "I need a place to relax and recharge"]
  else if String.eqb timeOfDay "evening"
  then ["Find me a nice restaurant for dinner";
        "Show me evening entertainment options";
        "I want to unwind after work"]
  else if String.eqb timeOfDay "night"
  then ["Find me late-night food options";
        "Show me nightlife spots";
        "I need a quiet place to work late"]
  else [].

Definition moodBased (mood : option string) : list string :=
  if JS.truthyStr mood
  then
    let m := JS.toLowerCase (default "" mood) in
    if String.eqb m "energetic" then ["Find me active and vibrant places"]
    else if String.eqb m "relaxed" then ["Find me peaceful and quiet spots"]
    else if String.eqb m "romantic" then ["Find me romantic date spots"]
    else if String.eqb m "social" then ["Find me great places to meet people"]
    else []
  else [].

Definition purposeBased (purpose : option string) : list string :=
  if JS.truthyStr purpose
  then
    let p := JS.toLowerCase (default "" purpose) in
    if String.eqb p "work"
    then ["Find me coworking spaces"; "Show me quiet cafes for work"]
    else if String.eqb p "explore"
    then ["Find me interesting places to discover"; "Show me local attractions"]
    else if String.eqb p "dine"
    then ["Find me the best restaurants"; "Show me unique dining experiences"]
    else if String.eqb p "relax"
    then ["Find me peaceful spots"; "Show me wellness places"]
    else []
  else [].

(** [location] is taken and not read. *)
Definition generateContextualSuggestions (timeOfDay : string)
  (mood purpose : option string) : list string :=
  take 5 (timeBased timeOfDay ++ moodBased mood ++ purposeBased purpose)%list.

(** The query of the suggestions route. *)
Record suggestionQuery := mkQuery {
  sq_timeOfDay : option string;
  sq_mood : option string;
  sq_purpose : option string
}.

(** [getContextualSuggestions]: [timeOfDay: timeOfDay || getTimeOfDay()]. *)
Definition getContextualSuggestions (hour : Z) (q : suggestionQuery) : list string :=
  generateContextualSuggestions (JS.orStr (sq_timeOfDay q) (getTimeOfDay hour))
    (sq_mood q) (sq_purpose q).



(** [Array.prototype.join] *)
Fixpoint join (sep : string) (parts : list string) : string :=
  match parts with
  | [] => ""
  | [p] => p
  | p :: rest => p +:+ sep +:+ join sep rest
  end.

(** [analysis.detectedPreferences]: a key is there when something was
    detected for it. *)
Record detected := mkDetected {
  cuisine : option (list string);
  atmosphere : option (list string);
  priceRange : option string
}.

Record analysis := mkAnalysis {
  detectedPreferences : detected;
  confidence : float;
  newPreferences : option detected
}.

Definition cuisines : list string :=
  ["italian"; "chinese"; "japanese"; "indian"; "mexican"; "american"; "french"; "thai"].

Definition atmospheres : list string :=
  ["quiet"; "vibrant"; "romantic"; "casual"; "formal"; "outdoor"].

(** [conversationHistory.map(msg => msg.content).join(' ').toLowerCase()];
    a message without content joins as the empty string. *)
Definition conversationText (conversationHistory : list (option string)) : string :=
  JS.toLowerCase (join " " (map (default "") conversationHistory)).

Definition nonEmpty (l : list string) : option (list string) :=
  match l with
  | [] => None
  | _ => Some l
  end.

(** [Object.keys(analysis.detectedPreferences).length] *)
Definition hasKey {A : Type} (x : option A) : nat :=
  match x with
  | Some _ => 1
  | None => 0
  end.

Definition totalDetected (d : detected) : nat :=
  (hasKey (cuisine d) + hasKey (atmosphere d) + hasKey (priceRange d))%nat.

Definition toNumber (n : nat) : float :=
  PrimFloat.of_uint63 (Uint63.of_Z (Z.of_nat n)).

(** [Math.min(x, 1)] for an [x] that is a number. *)
Definition min1 (x : float) : float :=
  if PrimFloat.ltb x 1 then x else 1%float.

Definition analyzeConversationForPreferences (conversationHistory : list (option string))
  : analysis :=
  let text := conversationText conversationHistory in
  let detectedCuisines := List.filter (fun cuisine => JS.includes text cuisine) cuisines in
  let detectedAtmospheres :=
    List.filter (fun atmosphere => JS.includes text atmosphere) atmospheres in
  let price :=
    if JS.includes text "cheap" || JS.includes text "budget"
       || JS.includes text "affordable"
    then Some "budget"
    else if JS.includes text "expensive" || JS.includes text "luxury"
            || JS.includes text "high-end"
    then Some "expensive"
    else None in
  let detectedPreferences :=
    mkDetected (nonEmpty detectedCuisines) (nonEmpty detectedAtmospheres) price in
  let confidence := min1 (toNumber (totalDetected detectedPreferences) * 0.3)%float in
  mkAnalysis detectedPreferences confidence
    (if PrimFloat.ltb 0.5 confidence then Some detectedPreferences else None).

(** One recommendation of the parsed answer. *)
Record recommendation := mkRec {
  rec_place : option string;
  rec_category : option string;
  reasoning : option string;
  matchScore : option Z
}.

(** What [JSON.parse] gave, as far as it is read: [recommendations] is
    absent when the answer has no such array. *)
Record parsed := mkParsed {
  recommendations : option (list recommendation);
  summary : option string
}.

(** What [generateRecommendations] resolves to; [ai_recommendations] is
    absent for a failure and for a parsed [null]. *)
Record aiRecommendations := mkAi {
  ai_success : bool;
  ai_recommendations : option parsed
}.

(** [place.name.toLowerCase().includes(rec.place.toLowerCase()) ||
     place.category.toLowerCase().includes(rec.category.toLowerCase())] *)
Definition matches (rec : recommendation) (place : Foursquare.formatted) : result bool :=
  match rec_place rec with
  | None => Throw "TypeError"
  | Some recPlace =>
      if JS.includes (JS.toLowerCase (Foursquare.name place)) (JS.toLowerCase recPlace)
      then Return true
      else
        match Foursquare.category place, rec_category rec with
        | Some placeCategory, Some recCategory =>
            Return (JS.includes (JS.toLowerCase placeCategory)
                      (JS.toLowerCase recCategory))
        | _, _ => Throw "TypeError"
        end
  end.

(** [recommendations.map(rec => ({ ...rec, place: matchingPlace || null }))]:
    the recommendation and the place that takes the stead of its [place]
    text; an exception of one callback ends the whole [map]. *)
Fixpoint matchAll (recs : list recommendation) (places : list Foursquare.formatted)
  : result (list (recommendation * option Foursquare.formatted)) :=
  match recs with
  | [] => Return []
  | rec :: rest =>
      match Controller.findM (matches rec) places with
      | Throw m => Throw m
      | Return matchingPlace =>
          match matchAll rest places with
          | Throw m => Throw m
          | Return l => Return ((rec, matchingPlace) :: l)
          end
      end
  end.

(** [.filter(rec => rec.place)] *)
Definition matched (l : list (recommendation * option Foursquare.formatted))
  : list (recommendation * Foursquare.formatted) :=
  omap (fun q => match snd q with Some p => Some (fst q, p) | None => None end) l.

Section Recommendations.
Variable get : list (string * Foursquare.paramValue) -> Foursquare.providerOutcome.
Variable storeUp : bool.

(** The block of [getPersonalizedRecommendations] that computes
    [recommendedPlaces] from the answer of the model and the search
    location; its [catch] logs and leaves the list empty. *)
Definition recommendedPlaces (ai : aiRecommendations) (searchLocation : string)
  (c : Foursquare.cache)
  : Foursquare.cache * list (recommendation * Foursquare.formatted) :=
  match ai_success ai, ai_recommendations ai with
  | true, Some answer =>
      let '(c', searched) :=
        Foursquare.searchPlaces get storeUp
          {| Foursquare.query := None;
             Foursquare.near := None;
             Foursquare.ll := Some searchLocation;
             Foursquare.radius := Some 5000;
             Foursquare.categories := None;
             Foursquare.limit := Some 20;
             Foursquare.sort := None |} c in
      match searched with
      | Throw _ => (c', [])
      | Return places =>
          match recommendations answer with
          | None => (c', [])
          | Some recs =>
              match matchAll recs places with
              | Throw _ => (c', [])
              | Return l => (c', matched l)
              end
          end
      end
  | _, _ => (c, [])
  end.
End Recommendations.

End Chat.

(** ** controllers/itineraryController.js: [getItinerary] *)

Module ItineraryDetails.

(** An element of [placesWithDetails]: the stored entry itself, or its
    fields with a [details] key, [null] when the lookup failed. *)
Inductive detailed :=
| AsStored (place : Itinerary.placeEntry)
| WithDetails (place : Itinerary.placeEntry) (details : option Foursquare.formatted).

Section Details.
(** [foursquareService.getPlaceDetails] *)
Variable getPlaceDetails : string -> result Foursquare.formatted.

Definition withDetails (place : Itinerary.placeEntry) : detailed :=
  if String.prefix "placeholder-" (Itinerary.placeId place)
  then AsStored place
  else
    match getPlaceDetails (Itinerary.placeId place) with
    | Return placeDetails => WithDetails place (Some placeDetails)
    | Throw _ => WithDetails place None
    end.

(** The document found and its places with details; nothing when the
    answer is the 404. *)
Definition getItinerary (userId id : string) (c : ItineraryRoutes.collection)
  : option (Itinerary.itinerary * list detailed) :=
  match ItineraryRoutes.findOne id userId c with
  | None => None
  | Some itinerary => Some (itinerary, map withDetails (Itinerary.places itinerary))
  end.
End Details.

End ItineraryDetails.

(** * Notions and scenarios the properties are stated with *)

Module ItineraryNotions.
Import Itinerary.

(** The sum of the estimated durations of a list of entries. *)
Definition sumDurations (ps : list placeEntry) : Z :=
  foldr Z.add 0 (map estimatedDuration ps).

(** A fresh itinerary without places; the scenarios below are reached from
    it through the aggregate's own operations. *)
Definition blank : itinerary :=
  {| user := "u1"; title := "Day out"; description := None;
     type_ := "custom"; mood := "relaxed"; purpose := "explore";
     location := "-122.4,37.8"; places := []; totalDuration := 0;
     totalDistance := 0; estimatedCost := 0; tags := []; isPublic := false;
     isCompleted := false; completedAt := None; aiGenerated := false;
     aiPrompt := None; likes := []; shares := 0 |}.

(** What the add-place route hands to [addPlace] for a named stop. *)
Definition stop (pid nm : string) (minutes : Z) : placeData :=
  {| pd_placeId := pid; pd_name := Some nm; pd_category := None;
     pd_estimatedDuration := Some minutes; pd_notes := None;
     pd_isVisited := None; pd_rating := None |}.

(** An itinerary of one place, completed, to which a second place was then
    added. *)
Definition completedThenExtended : itinerary :=
  run [AddPlace (stop "cafe-a" "Cafe A" 60);
       MarkPlaceVisited 1000 "cafe-a" None;
       AddPlace (stop "park-b" "Park B" 90)] blank.

(** The order indices of a list of entries are 1..N, each once. *)
Definition contiguous (ps : list placeEntry) : Prop :=
  map order ps ≡ₚ seqZ 1 (Z.of_nat (length ps)).

(** An entry without its order index. *)
Definition eraseOrder (p : placeEntry) : placeEntry := set_order 0 p.

Definition threeStops : itinerary :=
  run [AddPlace (stop "cafe-a" "Cafe A" 60);
       AddPlace (stop "park-b" "Park B" 90);
       AddPlace (stop "bar-c" "Bar C" 45)] blank.

(** The users who like an itinerary, one per like entry. *)
Definition likers (it : itinerary) : list string := map like_user (likes it).

(** How many like entries a user has. *)
Definition likeCount (u : string) (it : itinerary) : nat :=
  length (List.filter (fun l => String.eqb (like_user l) u) (likes it)).

(** The like entries of the users other than [u], in their order. *)
Definition without (u : string) (ls : list like) : list like :=
  List.filter (fun l => negb (String.eqb (like_user l) u)) ls.

Definition twoLikes : itinerary :=
  with_likes [mkLike "ann" 10; mkLike "bob" 20] blank.

End ItineraryNotions.

Module TotalsScenario.
Import Itinerary.
Import ItineraryNotions.

Definition replacement : list placeEntry :=
  [castPlace (ItineraryNotions.stop "museum-d" "Museum D" 120) 1;
   castPlace (ItineraryNotions.stop "pier-e" "Pier E" 30) 2].

End TotalsScenario.

Module PopularScenario.
Import Itinerary.
Import ItineraryNotions.

Definition liked : itinerary :=
  with_likes [mkLike "ann" 10; mkLike "bob" 20; mkLike "cy" 30]
    (with_isPublic true ItineraryNotions.blank).

Definition shared : itinerary :=
  mkItinerary "u2" "Shared once" None "custom" "relaxed" "explore"
    "-122.4,37.8" [] 0 0 0 [] true false None false None [] 1.

End PopularScenario.

Module PlaceScenario.
Import Place.

Definition cafe : place :=
  {| foursquareId := "4b1"; name := "Cafe A"; description := "";
     category := "Cafe"; price := 2%float; rating := Some 8.5%float;
     placeStats := {| totalPhotos := Some 40%float; totalTips := None;
                      totalCheckins := Some 1200%float |};
     popularity := 0%float |}.

Definition diner : place :=
  {| foursquareId := "9z7"; name := "Diner B"; description := "all day";
     category := "Diner"; price := 1%float; rating := Some 8.5%float;
     placeStats := {| totalPhotos := Some 40%float; totalTips := None;
                      totalCheckins := Some 1200%float |};
     popularity := 77%float |}.

End PlaceScenario.

Module GatewayScenario.
Import Foursquare.

Definition down : list (string * paramValue) -> providerOutcome :=
  fun _ => Rejected "timeout of 10000ms exceeded".

Definition blueCafe : rawPlace :=
  {| fsq_id := "4b1"; raw_name := "Blue Cafe"; raw_description := None;
     raw_category := None; raw_categories := ["Coffee Shop"];
     raw_price := Some 2%float; raw_rating := Some 8.5%float;
     raw_total_photos := None; raw_total_tips := None;
     raw_total_checkins := None |}.

Definition nearby : searchArgs :=
  {| query := Some "cafe"; near := None; ll := Some "-122.4,37.8";
     radius := Some 5000; categories := None; limit := Some 5; sort := None |}.

End GatewayScenario.

Module GenerationNotions.
Import Controller.

(** A result matches a stub when its name contains the stub's name or its
    category contains the stub's category, letter case aside. *)
Definition matches (n cat : string) (r : Foursquare.formatted) : bool :=
  JS.includes (JS.toLowerCase (Foursquare.name r)) (JS.toLowerCase n)
  || match Foursquare.category r with
     | Some rc => JS.includes (JS.toLowerCase rc) (JS.toLowerCase cat)
     | None => false
     end.

(** The query the generation flow sends for a stub. *)
Definition stubSearch (searchLocation : string) (place : OpenAI.stub)
  : Foursquare.searchArgs :=
  {| Foursquare.query := OpenAI.stub_name place;
     Foursquare.near := None;
     Foursquare.ll := Some searchLocation;
     Foursquare.radius := Some 5000;
     Foursquare.categories := None;
     Foursquare.limit := Some 5;
     Foursquare.sort := None |}.

(** The document handed to [Itinerary.create]. *)
Definition generated (userId prompt searchLocation : string)
  (sk : OpenAI.skeleton) (entries : list Itinerary.placeEntry)
  : Itinerary.newDocument :=
  {| Itinerary.new_user := userId;
     Itinerary.new_title := OpenAI.sk_title sk;
     Itinerary.new_description := OpenAI.sk_description sk;
     Itinerary.new_type := OpenAI.sk_type sk;
     Itinerary.new_mood := OpenAI.sk_mood sk;
     Itinerary.new_purpose := OpenAI.sk_purpose sk;
     Itinerary.new_location := searchLocation;
     Itinerary.new_places := entries;
     Itinerary.new_totalDuration := OpenAI.sk_totalDuration sk;
     Itinerary.new_estimatedCost := OpenAI.sk_estimatedCost sk;
     Itinerary.new_tags := OpenAI.sk_tags sk;
     Itinerary.new_aiGenerated := true;
     Itinerary.new_aiPrompt := prompt |}.

Definition cafeStub : OpenAI.stub :=
  OpenAI.mkStub (Some "Cafe") (Some "Coffee") None (Some 45) None.

Definition parkStub : OpenAI.stub :=
  OpenAI.mkStub (Some "Park") (Some "Outdoors") None None (Some "bring water").

Definition morning : OpenAI.skeleton :=
  OpenAI.mkSkeleton (Some "Morning stroll") (Some "Coffee, then a walk")
    (Some "morning") (Some "relaxed") (Some "explore")
    (Some [cafeStub; parkStub]) (Some 240) (Some 30) ["coffee"].

Definition morningJSON : string := "{ title: Morning stroll, ... }".

(** A parser that knows one well-formed reply. *)
Definition parse (reply : string) : option OpenAI.skeleton :=
  if String.eqb reply morningJSON then Some morning else None.

Definition replying (content : string) : string -> string -> string -> option string :=
  fun _ _ _ => Some content.

Definition bakery (cat : option string) : Foursquare.rawPlace :=
  Foursquare.mkRaw "7c3" "Corner Bakery" None cat ["Bakery"] None None None None None.

Definition blueCafe (cat : option string) : Foursquare.rawPlace :=
  Foursquare.mkRaw "4b1" "Blue Cafe" None cat ["Coffee Shop"] None None None None None.

Definition queryOf (params : list (string * Foursquare.paramValue)) : string :=
  match params with
  | ("query", Foursquare.PStr q) :: _ => q
  | _ => ""
  end.

(** A provider that knows two places for the query "Cafe", with or without
    a direct [category] field, and rejects every other query. *)
Definition provider (withCategory : bool)
  : list (string * Foursquare.paramValue) -> Foursquare.providerOutcome :=
  fun params =>
    if String.eqb (queryOf params) "Cafe"
    then Foursquare.Responded
           (Some (if withCategory
                  then [bakery (Some "Bakery"); blueCafe (Some "Coffee Shop")]
                  else [bakery None; blueCafe None]))
    else Foursquare.Rejected "Request failed with status code 429".

Definition ann : user := mkUser (Some "-122.4,37.8") "{}" 0.

Definition start : state := mkState [] ∅ {["ann" := ann]}.

Definition request : generateRequest :=
  mkGenerate "ann" (Some "A calm morning with coffee") None.

End GenerationNotions.

(** ** Further notions about the aggregate *)

Module AggregateNotions.
Import Itinerary.

(** The ids of the entries, in list order. *)
Definition placeIds (it : itinerary) : list string := map placeId (places it).

(** How many entries are marked visited. *)
Definition visitedCount (it : itinerary) : nat :=
  length (List.filter isVisited (places it)).

(** Some entry is not visited and stands behind an entry with the same place
    id. *)
Inductive shadowed : list placeEntry -> Prop :=
| shadowed_here p rest q :
    In q rest -> placeId q = placeId p -> isVisited q = false ->
    shadowed (p :: rest)
| shadowed_later p rest : shadowed rest -> shadowed (p :: rest).

(** A [markPlaceVisited] call: clock, place id, rating. *)
Definition markCall : Type := Z * string * option Z.

Definition asOp (c : markCall) : op :=
  let '(now, pid, r) := c in MarkPlaceVisited now pid r.

(** An operation that changes the places list. *)
Definition structural (o : op) : bool :=
  match o with
  | AddPlace _ | RemovePlace _ => true
  | _ => false
  end.

(** The same place added twice. *)
Definition sameStopTwice : itinerary :=
  run [AddPlace (ItineraryNotions.stop "cafe-a" "Cafe A" 60);
       AddPlace (ItineraryNotions.stop "cafe-a" "Cafe A" 30)] ItineraryNotions.blank.

End AggregateNotions.

(** ** Notions about a user's favourites, visits and badges *)

Module UserNotions.
Import User.
Import PlacesController.

Definition favoriteIds (u : user) : list string := map fav_placeId (favorites u).

Definition visitedIds (u : user) : list string := map visit_placeId (visitedPlaces u).

Definition badgeNames (u : user) : list string := map badge_name (badges u).

Definition hasBadge (name : string) (u : user) : bool :=
  existsb (fun b => String.eqb (badge_name b) name) (badges u).

(** Whether a stored id is strictly equal to the id of a body. *)
Definition known (id : bodyId) (ids : list string) : bool :=
  match id with
  | IdStr s => bool_decide (s ∈ ids)
  | IdNum _ => false
  end.

(** A well-formed body: the place id is a string and not empty, and the
    rating lies between 1 and 5 when there is one. *)
Definition wellFormed (b : placeBody) : Prop :=
  match body_placeId b with
  | IdStr s => s <> ""
  | IdNum _ => False
  end
  /\ match body_rating b with
     | Some r => 1 <= r <= 5
     | None => True
     end.

(** Adding a place to the favourites and removing it again, [n] times. *)
Fixpoint favoriteCycles (n : nat) (now : Z) (body : placeBody) : list request :=
  match n with
  | O => []
  | S k =>
      AddToFavorites now body :: RemoveFromFavorites (castId (body_placeId body))
      :: favoriteCycles k now body
  end.

Definition newcomer : user := mkUser [] [] 0 [].

Definition pier : placeBody := mkBody (IdStr "5d2") (Some "Pier E") None (Some 4).

(** The request carries its place id as a string; the id of a removal is a
    route parameter and always one. *)
Definition textual (r : request) : Prop :=
  match r with
  | AddToFavorites _ body | MarkAsVisited _ body =>
      match body_placeId body with
      | IdStr _ => True
      | IdNum _ => False
      end
  | RemoveFromFavorites _ => True
  end.

(** A body whose place id is the number 5. *)
Definition five : placeBody := mkBody (IdNum 5) (Some "Pier 5") None None.

End UserNotions.

Module VisitNotions.
Import User.
Import PlacesController.
Import UserNotions.

(** The two visit badges say how many places the user has visited. *)
Definition badgesTrackVisits (u : user) : Prop :=
  (hasBadge "First Explorer" u = true <-> (1 <= length (visitedPlaces u))%nat)
  /\ (hasBadge "Adventure Seeker" u = true <-> (10 <= length (visitedPlaces u))%nat).

(** Visit requests, each with the time it is served at. *)
Definition visits (calls : list (Z * placeBody)) : list request :=
  map (fun c => MarkAsVisited (fst c) (snd c)) calls.

Definition mole : placeBody :=
  mkBody (IdStr "7a1") (Some "The Mole") (Some "landmark") None.

End VisitNotions.

Module RouteNotions.
Import ItineraryRoutes.

Definition isToggle (r : request) : bool :=
  match r with
  | ToggleLike _ _ => true
  | _ => false
  end.

(** One stored itinerary, owned by "u1" and private. *)
Definition shelf : collection :=
  {[ "it-1" := ItineraryNotions.threeStops ]}.

(** What another user, "u2", can send at it. *)
Definition intrusion : list (string * request) :=
  [("u2", Update "it-1" (Controller.mkUpdate (Some "Mine now") None (Some []) (Some true)));
   ("u2", MarkVisited 10 "it-1" "cafe-a" (Some 5));
   ("u2", AddPlace "it-1" (mkAddPlace "zoo-d" (Some "Zoo") None None None));
   ("u2", RemovePlace "it-1" "cafe-a");
   ("u2", Share "it-1");
   ("u2", Delete "it-1")].

End RouteNotions.

Module CacheNotions.

(** The popularity stored for a place id, 0 when the id is not cached. *)
Definition storedPopularity (c : Foursquare.cache) (k : string) : float :=
  match c !! k with
  | Some p => Place.popularity p
  | None => 0%float
  end.

(** The parameter names of a search, in the order the object lists them. *)
Definition paramNames : list string :=
  ["query"; "near"; "ll"; "radius"; "categories"; "limit"; "sort"].

Definition falsy (v : Foursquare.paramValue) : bool :=
  match v with
  | Foursquare.PStr s => String.eqb s ""
  | Foursquare.PNum n => n =? 0
  end.

End CacheNotions.

Module ChatNotions.
Import Chat.

(** The arguments of the search a recommendation request makes. *)
Definition nearbySearch (searchLocation : string) : Foursquare.searchArgs :=
  {| Foursquare.query := None;
     Foursquare.near := None;
     Foursquare.ll := Some searchLocation;
     Foursquare.radius := Some 5000;
     Foursquare.categories := None;
     Foursquare.limit := Some 20;
     Foursquare.sort := None |}.

(** A provider that knows two places, with or without a direct [category]
    field. *)
Definition nearby (withCategory : bool)
  : list (string * Foursquare.paramValue) -> Foursquare.providerOutcome :=
  fun _ =>
    Foursquare.Responded
      (Some (if withCategory
             then [GenerationNotions.bakery (Some "Bakery");
                   GenerationNotions.blueCafe (Some "Coffee Shop")]
             else [GenerationNotions.bakery None; GenerationNotions.blueCafe None])).

Definition coffee : recommendation :=
  mkRec (Some "Cafe") (Some "Coffee") (Some "You like espresso") (Some 9).

Definition bread : recommendation :=
  mkRec (Some "Bakery") (Some "Bakery") None None.

Definition advice (recs : list recommendation) : aiRecommendations :=
  mkAi true (Some (mkParsed (Some recs) (Some "Two ideas"))).

(** The words that make the price range "budget". *)
Definition budgetWords : list string := ["cheap"; "budget"; "affordable"].

End ChatNotions.

Module DetailNotions.

(** The entry carries the id of a place the provider returned. *)
Definition fromProvider
  (get : list (string * Foursquare.paramValue) -> Foursquare.providerOutcome)
  (e : Itinerary.placeEntry) : Prop :=
  exists params results r,
    get params = Foursquare.Responded (Some results)
    /\ In r results
    /\ Itinerary.placeId e = Foursquare.fsq_id r.

(** A detail lookup that is never available. *)
Definition noDetails : string -> result Foursquare.formatted :=
  fun _ => Throw "Failed to get place details".

End DetailNotions.

(** * Properties *)

(** ** The itinerary aggregate *)

Module ItineraryFacts.
Import Itinerary.
Import ItineraryNotions.

Lemma reduce_durations ps acc :
  fold_left (fun total place => total + estimatedDuration place) ps acc
  = acc + sumDurations ps.
Proof.
  revert acc. induction ps as [|p ps IH]; intros acc; simpl.
  - unfold sumDurations. simpl. lia.
  - rewrite IH. unfold sumDurations. simpl. lia.
Qed.

Lemma updateTotals_sum it :
  totalDuration (updateTotals it) = sumDurations (places it).
Proof. unfold updateTotals. simpl. rewrite reduce_durations. lia. Qed.

Lemma updateTotals_places it : places (updateTotals it) = places it.
Proof. reflexivity. Qed.

Lemma updateTotals_isCompleted it : isCompleted (updateTotals it) = isCompleted it.
Proof. reflexivity. Qed.

(** *** Completion *)

Lemma markPlaceVisited_places now pid r it :
  places (markPlaceVisited now pid r it) = visitFirst pid r (places it).
Proof.
  unfold markPlaceVisited. simpl.
  destruct (forallb isVisited (visitFirst pid r (places it))); reflexivity.
Qed.

Lemma markPlaceVisited_flag now pid r it :
  isCompleted (markPlaceVisited now pid r it)
  = isCompleted it || forallb isVisited (visitFirst pid r (places it)).
Proof.
  unfold markPlaceVisited. simpl.
  destruct (forallb isVisited (visitFirst pid r (places it))); simpl.
  - symmetry. apply orb_true_r.
  - symmetry. apply orb_false_r.
Qed.

Lemma step_keeps_completed it o :
  isCompleted it = true -> isCompleted (step it o) = true.
Proof.
  intros Hc. destruct o as [pd|pid|now pid r|now u]; simpl.
  - exact Hc.
  - exact Hc.
  - rewrite markPlaceVisited_flag, Hc. reflexivity.
  - unfold toggleLike. destruct (List.find _ _); exact Hc.
Qed.

Lemma run_keeps_completed ops : forall it,
  isCompleted it = true -> isCompleted (run ops it) = true.
Proof.
  induction ops as [|o ops IH]; intros it Hc; simpl.
  - exact Hc.
  - apply IH. apply step_keeps_completed. exact Hc.
Qed.

(** On an itinerary without places the call sets the flag: out of no entries,
    every one is visited. *)
Lemma markPlaceVisited_on_empty now pid r it :
  places it = [] -> isCompleted (markPlaceVisited now pid r it) = true.
Proof.
  intros Hnil. rewrite markPlaceVisited_flag, Hnil. simpl. apply orb_true_r.
Qed.

(** C1, as stated, fails: on an itinerary that was completed and then given
    a further, unvisited place, a [markPlaceVisited] call for an id that is
    not in the list leaves the flag true although not every entry is
    visited. *)
Lemma completion_iff_all_visited_fails :
  let it := markPlaceVisited 2000 "no-such-place" None completedThenExtended in
  ~ (isCompleted it = true <->
     places it <> [] /\ Forall (fun p => isVisited p = true) (places it)).
Proof.
  cbv zeta. intros [Hif _].
  assert (Hflag : isCompleted
            (markPlaceVisited 2000 "no-such-place" None completedThenExtended) = true)
    by reflexivity.
  destruct (Hif Hflag) as [_ Hall].
  vm_compute in Hall.
  inversion Hall as [|p ps _ Htl]; subst.
  inversion Htl as [|q qs Hq _]; subst.
  discriminate Hq.
Qed.

(** C1 (amended): after [markPlaceVisited] on an itinerary with a non-empty
    places list, whatever the place id and rating, the completion flag is
    true exactly when it was already true before the call or every entry is
    now visited; and from then on no sequence of aggregate operations
    ([markPlaceVisited] and [removePlace] among them) turns a true flag
    back to false. *)
Theorem markPlaceVisited_completion now pid r it :
  places it <> [] ->
  let it' := markPlaceVisited now pid r it in
  places it' <> []
  /\ (isCompleted it' = true <->
      isCompleted it = true \/ Forall (fun p => isVisited p = true) (places it'))
  /\ (forall ops, isCompleted it' = true -> isCompleted (run ops it') = true).
Proof.
  intros Hne it'. subst it'. split; [|split].
  - rewrite markPlaceVisited_places. destruct (places it) as [|p ps]; [congruence|].
    simpl. destruct (String.eqb (placeId p) pid); discriminate.
  - rewrite markPlaceVisited_flag, markPlaceVisited_places, orb_true_iff.
    rewrite forallb_forall, Forall_forall.
    split; (intros [H|H]; [left; exact H|right]).
    + intros x Hx. apply H. apply list_elem_of_In. exact Hx.
    + intros x Hx. apply H. apply list_elem_of_In. exact Hx.
  - intros ops. apply run_keeps_completed.
Qed.

Lemma markPlaceVisited_completion_witness :
  let it := run [AddPlace (stop "cafe-a" "Cafe A" 60);
                 AddPlace (stop "park-b" "Park B" 90);
                 MarkPlaceVisited 1000 "cafe-a" None] blank in
  isCompleted it = false
  /\ isCompleted (markPlaceVisited 2000 "park-b" (Some 4) it) = true
  /\ isCompleted
       (run [RemovePlace "cafe-a"; AddPlace (stop "bar-c" "Bar C" 45);
             MarkPlaceVisited 3000 "zzz" None]
          (markPlaceVisited 2000 "park-b" (Some 4) it)) = true.
Proof.
  cbv zeta.
  set (it := run _ blank).
  assert (Hne : places it <> []) by (vm_compute; discriminate).
  pose proof (markPlaceVisited_completion 2000 "park-b" (Some 4) it Hne) as H.
  cbv zeta in H. destruct H as (_ & Hiff & Hkeep).
  assert (Hc : isCompleted (markPlaceVisited 2000 "park-b" (Some 4) it) = true).
  { apply Hiff. right. vm_compute. repeat constructor. }
  split; [reflexivity|]. split; [exact Hc|].
  apply Hkeep. exact Hc.
Defined.

(** *** Order indices *)

Lemma fold_max_ge os : forall o x, x ∈ o :: os -> x <= fold_left Z.max os o.
Proof.
  induction os as [|a os IH]; intros o x Hx; simpl.
  - apply list_elem_of_singleton in Hx. lia.
  - apply elem_of_cons in Hx. destruct Hx as [->|Hx].
    + transitivity (Z.max o a); [lia|]. apply IH. left.
    + apply elem_of_cons in Hx. destruct Hx as [->|Hx].
      * transitivity (Z.max o a); [lia|]. apply IH. left.
      * apply IH. right. exact Hx.
Qed.

Lemma fold_max_in os : forall o, fold_left Z.max os o ∈ o :: os.
Proof.
  induction os as [|a os IH]; intros o; simpl.
  - left.
  - specialize (IH (Z.max o a)). apply elem_of_cons in IH.
    destruct IH as [Heq|Hin].
    + rewrite Heq. destruct (Z.max_spec o a) as [[_ ->]|[_ ->]].
      * right. left.
      * left.
    + right. right. exact Hin.
Qed.

Lemma maxOrder_spec ps :
  ps <> [] ->
  (exists p, p ∈ ps /\ maxOrder ps = order p)
  /\ (forall q, q ∈ ps -> order q <= maxOrder ps).
Proof.
  intros Hne. unfold maxOrder.
  destruct ps as [|p0 ps]; [congruence|]. simpl. split.
  - pose proof (fold_max_in (map order ps) (order p0)) as Hin.
    change (order p0 :: map order ps) with (map order (p0 :: ps)) in Hin.
    apply list_elem_of_fmap in Hin. destruct Hin as (p & Hp & Hin). eauto.
  - intros q Hq. apply fold_max_ge.
    change (order p0 :: map order ps) with (map order (p0 :: ps)).
    apply list_elem_of_fmap. eauto.
Qed.

Lemma maxOrder_contiguous ps :
  contiguous ps -> maxOrder ps = Z.of_nat (length ps).
Proof.
  intros Hc. destruct ps as [|p0 ps]; [reflexivity|]. unfold contiguous in Hc.
  destruct (maxOrder_spec (p0 :: ps)) as [(p & Hp & Hmax) Hge]; [discriminate|].
  set (n := length (p0 :: ps)) in *.
  assert (Hn : (0 < n)%nat) by (subst n; simpl; lia).
  apply Z.le_antisymm.
  - assert (Hin : order p ∈ seqZ 1 (Z.of_nat n)).
    { rewrite <- Hc. apply list_elem_of_fmap. eauto. }
    apply elem_of_seqZ in Hin. lia.
  - assert (Hin : Z.of_nat n ∈ map order (p0 :: ps)).
    { rewrite Hc. apply elem_of_seqZ. lia. }
    apply list_elem_of_fmap in Hin. destruct Hin as (q & Hq & Hin).
    rewrite Hq. apply Hge. exact Hin.
Qed.

Lemma addPlace_places pd it :
  places (addPlace pd it)
  = (places it ++ [castPlace pd (maxOrder (places it) + 1)])%list.
Proof. reflexivity. Qed.

Lemma renumber_orders ps : forall i,
  map order (renumber i ps) = seqZ (i + 1) (Z.of_nat (length ps)).
Proof.
  induction ps as [|p ps IH]; intros i.
  - reflexivity.
  - cbn [renumber map length]. rewrite seqZ_cons by lia. simpl order.
    rewrite IH. f_equal. f_equal; lia.
Qed.

Lemma renumber_length ps : forall i, length (renumber i ps) = length ps.
Proof. induction ps as [|p ps IH]; intros i; simpl; [|rewrite IH]; reflexivity. Qed.

Lemma renumber_erase ps : forall i,
  map eraseOrder (renumber i ps) = map eraseOrder ps.
Proof.
  induction ps as [|p ps IH]; intros i; simpl; [reflexivity|].
  rewrite IH. reflexivity.
Qed.

Lemma removePlace_places pid it :
  places (removePlace pid it)
  = renumber 0 (List.filter (fun place => negb (String.eqb (placeId place) pid))
                  (places it)).
Proof. reflexivity. Qed.

Lemma visitFirst_orders pid r ps :
  map order (visitFirst pid r ps) = map order ps.
Proof.
  induction ps as [|p ps IH]; simpl; [reflexivity|].
  destruct (String.eqb (placeId p) pid); simpl; [|rewrite IH]; reflexivity.
Qed.

Lemma visitFirst_length pid r ps : length (visitFirst pid r ps) = length ps.
Proof.
  induction ps as [|p ps IH]; simpl; [reflexivity|].
  destruct (String.eqb (placeId p) pid); simpl; [|rewrite IH]; reflexivity.
Qed.

Lemma toggleLike_places now u it : places (toggleLike now u it) = places it.
Proof. unfold toggleLike. destruct (List.find _ _); reflexivity. Qed.

Lemma step_contiguous it o :
  contiguous (places it) -> contiguous (places (step it o)).
Proof.
  intros Hc. destruct o as [pd|pid|now pid r|now u]; cbn [step].
  - rewrite addPlace_places. unfold contiguous.
    rewrite map_app, length_app, (maxOrder_contiguous _ Hc). simpl.
    replace (length (places it) + 1)%nat with (S (length (places it))) by lia.
    rewrite seqZ_S. unfold contiguous in Hc. rewrite Hc.
    replace (Z.of_nat (length (places it)) + 1)
      with (1 + Z.of_nat (length (places it))) by lia.
    reflexivity.
  - rewrite removePlace_places. unfold contiguous.
    rewrite renumber_orders, renumber_length. reflexivity.
  - rewrite markPlaceVisited_places. unfold contiguous.
    rewrite visitFirst_orders, visitFirst_length. exact Hc.
  - rewrite toggleLike_places. exact Hc.
Qed.

Lemma run_contiguous ops : forall it,
  contiguous (places it) -> contiguous (places (run ops it)).
Proof.
  induction ops as [|o ops IH]; intros it Hc; simpl; [exact Hc|].
  apply IH, step_contiguous, Hc.
Qed.

(** C2: from an itinerary whose order indices are 1..N, every sequence of
    aggregate operations ([addPlace] and [removePlace] among them) leads to
    one whose order indices are 1..N', each exactly once.  [removePlace]
    numbers the entries it keeps 1, 2, ... in their previous relative
    order, and [addPlace] appends one entry whose order is 1 on an empty
    list and the largest current order plus one otherwise. *)
Theorem order_indices_contiguous it :
  (contiguous (places it) -> forall ops, contiguous (places (run ops it)))
  /\ (forall pid,
        let kept := List.filter (fun place => negb (String.eqb (placeId place) pid))
                      (places it) in
        map order (places (removePlace pid it)) = seqZ 1 (Z.of_nat (length kept))
        /\ map eraseOrder (places (removePlace pid it)) = map eraseOrder kept)
  /\ (forall pd, exists o,
        places (addPlace pd it) = (places it ++ [castPlace pd o])%list
        /\ order (castPlace pd o) = o
        /\ (places it = [] -> o = 1)
        /\ (places it <> [] ->
            (exists p, p ∈ places it /\ o = order p + 1)
            /\ (forall q, q ∈ places it -> order q < o))).
Proof.
  split; [|split].
  - intros Hc ops. apply run_contiguous, Hc.
  - intros pid kept. rewrite removePlace_places. fold kept. split.
    + rewrite renumber_orders. reflexivity.
    + apply renumber_erase.
  - intros pd. exists (maxOrder (places it) + 1).
    split; [apply addPlace_places|]. split; [reflexivity|]. split.
    + intros ->. reflexivity.
    + intros Hne. destruct (maxOrder_spec _ Hne) as [(p & Hp & Hmax) Hge]. split.
      * exists p. split; [exact Hp|]. rewrite Hmax. reflexivity.
      * intros q Hq. specialize (Hge q Hq). lia.
Qed.

Lemma order_indices_contiguous_witness :
  contiguous (places threeStops)
  /\ contiguous
       (places (run [RemovePlace "park-b"; AddPlace (stop "museum-d" "Museum D" 120)]
                  threeStops))
  /\ map order (places (removePlace "park-b" threeStops)) = [1; 2]
  /\ map placeId (places (removePlace "park-b" threeStops)) = ["cafe-a"; "bar-c"].
Proof.
  assert (Hc : contiguous (places threeStops)).
  { unfold contiguous. vm_compute. reflexivity. }
  destruct (order_indices_contiguous threeStops) as (Hrun & Hrem & _).
  split; [exact Hc|]. split; [apply Hrun, Hc|].
  destruct (Hrem "park-b") as [Hord _].
  split; [rewrite Hord; reflexivity|reflexivity].
Defined.

(** *** Likes *)

Lemma find_none_without u ls :
  List.find (fun l => String.eqb (like_user l) u) ls = None -> without u ls = ls.
Proof.
  induction ls as [|l ls IH]; simpl; [reflexivity|].
  destruct (String.eqb (like_user l) u) eqn:E; [discriminate|].
  intros H. simpl. rewrite (IH H). reflexivity.
Qed.

Lemma find_without u ls :
  List.find (fun l => String.eqb (like_user l) u) (without u ls) = None.
Proof.
  induction ls as [|l ls IH]; simpl; [reflexivity|].
  destruct (String.eqb (like_user l) u) eqn:E; simpl; [exact IH|].
  rewrite E. exact IH.
Qed.

Lemma find_none_iff u ls :
  List.find (fun l => String.eqb (like_user l) u) ls = None
  <-> ~ In u (map like_user ls).
Proof.
  induction ls as [|l ls IH]; simpl.
  - split; [intros _ []|reflexivity].
  - destruct (String.eqb_spec (like_user l) u) as [Heq|Hne].
    + split; [discriminate|]. intros H. exfalso. apply H. left. exact Heq.
    + rewrite IH. split.
      * intros H [Heq|Hin]; [exact (Hne Heq)|exact (H Hin)].
      * intros H Hin. apply H. right. exact Hin.
Qed.

Lemma find_app_fresh now u ls :
  List.find (fun l => String.eqb (like_user l) u) (ls ++ [mkLike u now]) <> None.
Proof.
  induction ls as [|l ls IH]; simpl.
  - rewrite String.eqb_refl. discriminate.
  - destruct (String.eqb (like_user l) u); [discriminate|exact IH].
Qed.

Lemma without_app_fresh now u ls :
  without u (ls ++ [mkLike u now]) = without u ls.
Proof.
  unfold without. rewrite List.filter_app. simpl.
  rewrite String.eqb_refl. simpl. apply app_nil_r.
Qed.

Lemma count_without u ls :
  length (List.filter (fun l => String.eqb (like_user l) u) (without u ls)) = 0%nat.
Proof.
  induction ls as [|l ls IH]; simpl; [reflexivity|].
  destruct (String.eqb (like_user l) u) eqn:E; simpl; [exact IH|].
  rewrite E. exact IH.
Qed.

Lemma count_absent u ls :
  List.find (fun l => String.eqb (like_user l) u) ls = None ->
  length (List.filter (fun l => String.eqb (like_user l) u) ls) = 0%nat.
Proof.
  induction ls as [|l ls IH]; simpl; [reflexivity|].
  destruct (String.eqb (like_user l) u); [discriminate|exact IH].
Qed.

Lemma In_without w u ls :
  In w (map like_user (without u ls)) <-> In w (map like_user ls) /\ w <> u.
Proof.
  induction ls as [|l ls IH]; simpl; [tauto|].
  destruct (String.eqb_spec (like_user l) u) as [Heq|Hne]; simpl.
  - rewrite IH. split; [tauto|]. intros [[H|H] Hw]; [congruence|tauto].
  - rewrite IH. split; [|tauto].
    intros [H|[H Hw]]; [subst w; tauto|tauto].
Qed.

Lemma find_some_in u ls l :
  List.find (fun l => String.eqb (like_user l) u) ls = Some l ->
  In u (map like_user ls).
Proof.
  induction ls as [|l0 ls IH]; simpl; [discriminate|].
  destruct (String.eqb_spec (like_user l0) u) as [Heq|Hne].
  - intros _. left. exact Heq.
  - intros H. right. exact (IH H).
Qed.

Lemma without_without u ls : without u (without u ls) = without u ls.
Proof.
  induction ls as [|l ls IH]; simpl; [reflexivity|].
  destruct (String.eqb (like_user l) u) eqn:E; simpl; [exact IH|].
  rewrite E. simpl. rewrite IH. reflexivity.
Qed.

Lemma toggleLike_likes now u it :
  likes (toggleLike now u it)
  = (if bool_decide (u ∈ likers it)
     then without u (likes it)
     else likes it ++ [mkLike u now])%list.
Proof.
  unfold toggleLike, likers.
  destruct (List.find _ (likes it)) eqn:Hfind.
  - rewrite bool_decide_eq_true_2; [reflexivity|].
    apply list_elem_of_In. exact (find_some_in _ _ _ Hfind).
  - rewrite bool_decide_eq_false_2; [reflexivity|].
    intros Hin. apply list_elem_of_In in Hin.
    apply find_none_iff in Hfind. exact (Hfind Hin).
Qed.

Lemma likeCount_toggleLike now u it : (likeCount u (toggleLike now u it) <= 1)%nat.
Proof.
  unfold likeCount. rewrite toggleLike_likes.
  destruct (bool_decide (u ∈ likers it)) eqn:Hdec.
  - rewrite count_without. lia.
  - rewrite List.filter_app, length_app. simpl. rewrite String.eqb_refl. simpl.
    rewrite count_absent; [lia|].
    apply find_none_iff. intros Hin.
    apply bool_decide_eq_false_1 in Hdec. apply Hdec.
    apply list_elem_of_In. exact Hin.
Qed.

(** C9, as stated, fails: for a user who already likes the itinerary, two
    toggles do not bring the likes list back; her entry has moved to the
    end and carries the time of the second toggle. *)
Lemma toggleLike_twice_not_identity :
  likes twoLikes = [mkLike "ann" 10; mkLike "bob" 20]
  /\ likes (toggleLike 40 "ann" (toggleLike 30 "ann" twoLikes))
     = [mkLike "bob" 20; mkLike "ann" 40]
  /\ likes (toggleLike 40 "ann" (toggleLike 30 "ann" twoLikes)) <> likes twoLikes.
Proof. split; [reflexivity|]. split; [reflexivity|]. discriminate. Qed.

(** C9 (amended): two successive [toggleLike] calls for a user [u] leave
    every other user's like entries as they were, in their order.  If [u]
    had no entry, the likes list is exactly the original one (an entry is
    added, then removed); if [u] had one, it is removed and a fresh entry
    for [u], stamped with the time of the second call, is appended at the
    end.  The set of users who like the itinerary is the same as before,
    and after every [toggleLike] call [u] has at most one entry. *)
Theorem toggleLike_twice t1 t2 u it :
  let it2 := toggleLike t2 u (toggleLike t1 u it) in
  likes it2
  = (if bool_decide (u ∈ likers it)
     then without u (likes it) ++ [mkLike u t2]
     else likes it)%list
  /\ without u (likes it2) = without u (likes it)
  /\ (forall w, w ∈ likers it2 <-> w ∈ likers it)
  /\ (likeCount u (toggleLike t1 u it) <= 1)%nat
  /\ (likeCount u it2 <= 1)%nat.
Proof.
  cbv zeta.
  assert (Hlikes :
    likes (toggleLike t2 u (toggleLike t1 u it))
    = (if bool_decide (u ∈ likers it)
       then without u (likes it) ++ [mkLike u t2]
       else likes it)%list).
  { pose proof (toggleLike_likes t1 u it) as H1.
    rewrite (toggleLike_likes t2 u (toggleLike t1 u it)).
    destruct (bool_decide (u ∈ likers it)) eqn:Hdec.
    - rewrite bool_decide_eq_false_2.
      + rewrite H1. reflexivity.
      + unfold likers. rewrite H1. intros Hin.
        apply list_elem_of_In, In_without in Hin. tauto.
    - rewrite bool_decide_eq_true_2.
      + rewrite H1, without_app_fresh. apply find_none_without.
        apply find_none_iff. intros Hin.
        apply bool_decide_eq_false_1 in Hdec. apply Hdec.
        apply list_elem_of_In. exact Hin.
      + unfold likers. rewrite H1. apply list_elem_of_In.
        rewrite map_app, in_app_iff. right. left. reflexivity. }
  split; [exact Hlikes|].
  split; [|split; [|split; apply likeCount_toggleLike]].
  - rewrite Hlikes. destruct (bool_decide (u ∈ likers it)); [|reflexivity].
    rewrite without_app_fresh. apply without_without.
  - intros w. unfold likers at 1. rewrite Hlikes.
    destruct (bool_decide (u ∈ likers it)) eqn:Hdec; [|reflexivity].
    apply bool_decide_eq_true_1 in Hdec. unfold likers in *.
    apply list_elem_of_In in Hdec.
    split; intros Hw; apply list_elem_of_In; apply list_elem_of_In in Hw.
    + rewrite map_app, in_app_iff, In_without in Hw. simpl in Hw.
      destruct Hw as [[H _]|[H|[]]]; [exact H|congruence].
    + rewrite map_app, in_app_iff, In_without. simpl.
      destruct (String.eqb_spec w u) as [->|Hne]; tauto.
Qed.

End ItineraryFacts.

(** ** Derived totals *)

Module TotalsFacts.
Import Itinerary.
Import TotalsScenario.

Lemma updateItinerary_saved body it saved resp :
  Controller.updateItinerary body (Some it) = (Some saved, resp) ->
  forall ps, Controller.ub_places body = Some ps ->
  places saved = ps /\ totalDuration saved = ItineraryNotions.sumDurations ps.
Proof.
  unfold Controller.updateItinerary. intros Hupd ps Hps. rewrite Hps in Hupd.
  destruct (valid _) eqn:Hvalid in Hupd; [|discriminate].
  injection Hupd as <- _.
  destruct (Controller.ub_isPublic body); simpl;
    (split; [reflexivity|]); rewrite ItineraryFacts.reduce_durations; lia.
Qed.

(** C3: after [addPlace], after [removePlace], and after an update request
    that replaces the places array, the itinerary's [totalDuration] is the
    sum of the [estimatedDuration] of the entries of its places list. *)
Theorem totalDuration_is_sum it :
  (forall pd,
     totalDuration (addPlace pd it)
     = ItineraryNotions.sumDurations (places (addPlace pd it)))
  /\ (forall pid,
        totalDuration (removePlace pid it)
        = ItineraryNotions.sumDurations (places (removePlace pid it)))
  /\ (forall body ps saved resp,
        Controller.ub_places body = Some ps ->
        Controller.updateItinerary body (Some it) = (Some saved, resp) ->
        places saved = ps
        /\ totalDuration saved = ItineraryNotions.sumDurations (places saved)).
Proof.
  split; [|split].
  - intros pd. unfold addPlace. rewrite ItineraryFacts.updateTotals_places.
    apply ItineraryFacts.updateTotals_sum.
  - intros pid. unfold removePlace. rewrite ItineraryFacts.updateTotals_places.
    apply ItineraryFacts.updateTotals_sum.
  - intros body ps saved resp Hps Hupd.
    destruct (updateItinerary_saved _ _ _ _ Hupd ps Hps) as [Hp Ht].
    rewrite Hp. split; [reflexivity|exact Ht].
Qed.

Lemma totalDuration_is_sum_witness :
  totalDuration (addPlace (ItineraryNotions.stop "museum-d" "Museum D" 120)
                   ItineraryNotions.threeStops) = 315
  /\ totalDuration (removePlace "park-b" ItineraryNotions.threeStops) = 105
  /\ exists saved,
       fst (Controller.updateItinerary
              (Controller.mkUpdate None None (Some replacement) None)
              (Some ItineraryNotions.threeStops)) = Some saved
       /\ totalDuration saved = 150.
Proof.
  destruct (totalDuration_is_sum ItineraryNotions.threeStops) as (Hadd & Hrem & Hupd).
  split; [rewrite Hadd; vm_compute; reflexivity|].
  split; [rewrite Hrem; vm_compute; reflexivity|].
  eexists. split; [vm_compute; reflexivity|].
  edestruct (Hupd (Controller.mkUpdate None None (Some replacement) None))
    as [_ Hsum]; [reflexivity|vm_compute; reflexivity|].
  rewrite Hsum. vm_compute. reflexivity.
Defined.

End TotalsFacts.

(** ** Popular itineraries *)

Module PopularFacts.
Import Itinerary.
Import PopularScenario.

Lemma no_length_in_likes ls :
  flat_map (Mongo.resolve ["length"]) (map likeBSON ls) = [].
Proof. induction ls as [|l ls IH]; simpl; [reflexivity|exact IH]. Qed.

(** No stored itinerary has anything under the path [likes.length]: the
    elements of [likes] are sub-documents with the fields [user] and
    [likedAt], and the number of elements is not a field of the stored
    array. *)
Lemma likes_length_key d it :
  Mongo.sortKey d ["likes"; "length"] (toBSON it) = Mongo.VNull.
Proof.
  unfold Mongo.sortKey, toBSON. cbn [Mongo.resolve Mongo.getField String.eqb
    Ascii.eqb Bool.eqb]. simpl. rewrite no_length_in_likes. reflexivity.
Qed.

(** Between two stored itineraries the sort of [findPopular] is decided by
    [shares] alone. *)
Lemma findPopular_order a b :
  Mongo.compareDocs [(["likes"; "length"], Mongo.Desc); (["shares"], Mongo.Desc)]
    (toBSON a) (toBSON b)
  = CompOpp (Z.compare (shares a) (shares b)).
Proof.
  cbn [Mongo.compareDocs]. rewrite !likes_length_key. cbn [Mongo.compareValues].
  unfold Mongo.typeRank. rewrite Z.compare_refl.
  unfold Mongo.sortKey, toBSON. simpl.
  destruct (shares a ?= shares b); reflexivity.
Qed.

Lemma insertSorted_In {A} (f : A -> Mongo.value) spec (x y : A) l :
  In x (Mongo.insertSorted f spec y l) <-> x = y \/ In x l.
Proof.
  induction l as [|z l IH]; simpl; [intuition congruence|].
  destruct (Mongo.compareDocs spec (f z) (f y)); simpl; rewrite ?IH;
    intuition congruence.
Qed.

Lemma insertSorted_length {A} (f : A -> Mongo.value) spec (y : A) l :
  length (Mongo.insertSorted f spec y l) = S (length l).
Proof.
  induction l as [|z l IH]; simpl; [reflexivity|].
  destruct (Mongo.compareDocs spec (f z) (f y)); simpl; rewrite ?IH; reflexivity.
Qed.

Lemma sort_In {A} (f : A -> Mongo.value) spec (x : A) l :
  In x (Mongo.sort f spec l) <-> In x l.
Proof.
  induction l as [|y l IH]; simpl; [reflexivity|].
  rewrite insertSorted_In, IH. intuition congruence.
Qed.

(** What [findPopular] returns is drawn from the public itineraries of the
    collection, and a positive limit bounds how many there are. *)
Lemma findPopular_public_bounded n coll :
  (forall it, In it (findPopular n coll) -> In it coll /\ isPublic it = true)
  /\ (0 < n -> Z.of_nat (length (findPopular n coll)) <= n).
Proof.
  unfold findPopular, Mongo.limit. split.
  - intros it Hin.
    assert (Hs : In it (Mongo.sort toBSON
                   [(["likes"; "length"], Mongo.Desc); (["shares"], Mongo.Desc)]
                   (List.filter isPublic coll))).
    { destruct (n =? 0); [exact Hin|].
      apply list_elem_of_In. apply list_elem_of_In in Hin.
      apply elem_of_take in Hin. destruct Hin as (i & Hi & _).
      eapply list_elem_of_lookup_2. exact Hi. }
    apply sort_In, List.filter_In in Hs. exact Hs.
  - intros Hn. destruct (Z.eqb_spec n 0) as [->|_]; [lia|].
    rewrite length_take. lia.
Qed.

(** C7 at a concrete collection: a public itinerary with three likes and no
    share is listed after a public itinerary with no like and one share. *)
Theorem findPopular_ranks_by_shares :
  length (likes liked) = 3%nat /\ length (likes shared) = 0%nat
  /\ findPopular 10 [liked; shared] = [shared; liked]
  /\ findPopular 10 [shared; liked] = [shared; liked].
Proof. repeat split; reflexivity. Qed.

End PopularFacts.

(** ** Popularity of a cached place *)

Module PlaceFacts.
Import Place.
Import PlaceScenario.

(** Binary64 multiplication commutes. *)
Lemma float_mul_comm (x y : float) : (x * y)%float = (y * x)%float.
Proof.
  apply Prim2SF_inj. rewrite !mul_spec. unfold SF64mul, SFmul.
  destruct (Prim2SF x) as [sx|sx| |sx mx ex], (Prim2SF y) as [sy|sy| |sy my ey];
    try reflexivity; try (rewrite (xorb_comm sx sy); reflexivity).
  rewrite (xorb_comm sx sy), (Pos.mul_comm mx my), (Z.add_comm ex ey).
  reflexivity.
Qed.

(** C8: the popularity [updatePopularity] assigns depends on the place only
    through its checkin, tip and photo counts and its rating, and is
    0.4 * checkins + 0.3 * tips + 0.2 * photos + 0.1 * rating in binary64
    arithmetic, an absent count or rating counting as 0. *)
Theorem updatePopularity_formula (p q : place) :
  totalCheckins (placeStats p) = totalCheckins (placeStats q) ->
  totalTips (placeStats p) = totalTips (placeStats q) ->
  totalPhotos (placeStats p) = totalPhotos (placeStats q) ->
  rating p = rating q ->
  popularity (updatePopularity p) = popularity (updatePopularity q)
  /\ popularity (updatePopularity p)
     = (0.4 * JS.orZero (totalCheckins (placeStats p))
        + 0.3 * JS.orZero (totalTips (placeStats p))
        + 0.2 * JS.orZero (totalPhotos (placeStats p))
        + 0.1 * JS.orZero (rating p))%float
  /\ JS.orZero None = 0%float.
Proof.
  intros Hc Ht Hp Hr. split; [|split].
  - unfold updatePopularity. simpl. rewrite Hc, Ht, Hp, Hr. reflexivity.
  - unfold updatePopularity. simpl.
    rewrite (float_mul_comm 0.4), (float_mul_comm 0.3), (float_mul_comm 0.2),
      (float_mul_comm 0.1). reflexivity.
  - reflexivity.
Qed.

Lemma updatePopularity_formula_witness :
  popularity (updatePopularity cafe) = popularity (updatePopularity diner)
  /\ popularity (updatePopularity cafe)
     = (0.4 * 1200 + 0.3 * 0 + 0.2 * 40 + 0.1 * 8.5)%float.
Proof.
  destruct (updatePopularity_formula cafe diner eq_refl eq_refl eq_refl eq_refl)
    as (Hsame & Hval & _).
  split; [exact Hsame|]. rewrite Hval. reflexivity.
Defined.

End PlaceFacts.

(** ** The places gateway *)

Module FoursquareFacts.
Import Foursquare.
Import GatewayScenario.

(** A successful search writes its results to the cache. *)
Lemma searchPlaces_caches get params c places :
  get (searchParams params) = Responded (Some places) ->
  searchPlaces get true params c
  = (cachePlaces true places c, Return (formatPlaces places)).
Proof. intros H. unfold searchPlaces. rewrite H. reflexivity. Qed.

(** C6: when the provider call of a search is rejected (an error or the
    client's timeout), [searchPlaces] throws and returns no result list,
    and the place cache is the one it was called with; the cache differs
    after a search only if the provider responded. *)
Theorem searchPlaces_provider_failure get storeUp params (c : gmap string Place.place) :
  (forall message,
     get (searchParams params) = Rejected message ->
     searchPlaces get storeUp params c = (c, Throw "Failed to search places"))
  /\ (fst (searchPlaces get storeUp params c) <> c ->
      exists results, get (searchParams params) = Responded results).
Proof.
  unfold searchPlaces. split.
  - intros message H. rewrite H. reflexivity.
  - destruct (get (searchParams params)) as [message|results]; simpl.
    + intros H. congruence.
    + intros _. exists results. reflexivity.
Qed.

Lemma searchPlaces_provider_failure_witness :
  searchPlaces down true nearby ∅ = (∅, Throw "Failed to search places")
  /\ fst (searchPlaces (fun _ => Responded (Some [blueCafe])) true nearby ∅)
       !! "4b1" = Some (placeDoc blueCafe None).
Proof.
  split.
  - apply (searchPlaces_provider_failure down true nearby ∅) with
      (message := "timeout of 10000ms exceeded"). reflexivity.
  - reflexivity.
Defined.

End FoursquareFacts.

(** ** Itinerary generation *)

Module GenerationFacts.
Import Controller.
Import GenerationNotions.

Section Flow.
Variable JSON_parse : string -> option OpenAI.skeleton.
Variable chat : string -> string -> string -> option string.
Variable get : list (string * Foursquare.paramValue) -> Foursquare.providerOutcome.
Variable storeUp : bool.

Lemma isMatch_typed place n cat r :
  OpenAI.stub_name place = Some n ->
  OpenAI.stub_category place = Some cat ->
  is_Some (Foursquare.category r) ->
  isMatch place r = Return (matches n cat r).
Proof.
  intros Hn Hc [rc Hr]. unfold isMatch, matches. rewrite Hn, Hc, Hr.
  destruct (JS.includes (JS.toLowerCase (Foursquare.name r)) (JS.toLowerCase n));
    reflexivity.
Qed.


Lemma findM_untyped place n cat pre r rest :
  OpenAI.stub_name place = Some n ->
  OpenAI.stub_category place = Some cat ->
  Forall (fun x => is_Some (Foursquare.category x) /\ matches n cat x = false) pre ->
  JS.includes (JS.toLowerCase (Foursquare.name r)) (JS.toLowerCase n) = false ->
  Foursquare.category r = None ->
  findM (isMatch place) (pre ++ r :: rest) = Throw "TypeError".
Proof.
  intros Hn Hc Hpre Hname Hcat. induction Hpre as [|x pre [Hx Hno] _ IH].
  - cbn [app findM]. unfold isMatch. rewrite Hn, Hname, Hcat. reflexivity.
  - cbn [app findM]. rewrite (isMatch_typed place n cat x Hn Hc Hx), Hno. exact IH.
Qed.

Lemma resolvePlace_entry loc index place c :
  snd (resolvePlace get storeUp loc index place c)
  = match get (Foursquare.searchParams (stubSearch loc place)) with
    | Foursquare.Rejected _ => entryOf None index place
    | Foursquare.Responded results =>
        match findM (isMatch place) (Foursquare.formatPlaces (default [] results)) with
        | Return bestMatch => entryOf bestMatch index place
        | Throw _ => entryOf None index place
        end
    end.
Proof.
  unfold resolvePlace, Foursquare.searchPlaces. fold (stubSearch loc place).
  destruct (get _) as [m|results]; [reflexivity|].
  destruct (findM _ _); reflexivity.
Qed.

Lemma resolvePlace_order loc index place c :
  Itinerary.order (snd (resolvePlace get storeUp loc index place c))
  = Z.of_nat index + 1.
Proof.
  rewrite resolvePlace_entry. destruct (get _); [reflexivity|].
  destruct (findM _ _); reflexivity.
Qed.

Lemma resolvePlaces_length loc stubs : forall index c,
  length (snd (resolvePlaces get storeUp loc index stubs c)) = length stubs.
Proof.
  induction stubs as [|place rest IH]; intros index c; [reflexivity|].
  cbn [resolvePlaces].
  destruct (resolvePlace get storeUp loc index place c) as [c1 entry].
  specialize (IH (S index) c1).
  destruct (resolvePlaces get storeUp loc (S index) rest c1) as [c2 entries].
  simpl in *. rewrite IH. reflexivity.
Qed.


(** What a generation that answers with an itinerary went through. *)
Lemma generateItinerary_success req st st' resp it :
  generateItinerary JSON_parse chat get storeUp req st = (st', Return resp) ->
  data resp = Some it ->
  exists p u loc reply sk stubs,
    prompt req = Some p
    /\ users st !! req_user req = Some u
    /\ JS.orStrOpt (location req) (coordinates u) = Some loc
    /\ chat p (preferences u) loc = Some reply
    /\ JSON_parse reply = Some sk
    /\ OpenAI.sk_places sk = Some stubs
    /\ it = Itinerary.cast
              (generated (req_user req) p loc sk
                 (snd (resolvePlaces get storeUp loc 0 stubs (placeCache st))))
    /\ itineraries st' = (itineraries st ++ [it])%list
    /\ resp = ok "Itinerary generated successfully" it.
Proof.
  unfold generateItinerary. intros Hgen Hdata.
  destruct (prompt req) as [[|a p']|] eqn:Hp; cbn [JS.truthyStr negb from_option id] in Hgen;
    try (injection Hgen as _ <-; discriminate).
  destruct (users st !! req_user req) as [u|] eqn:Hu; [|discriminate].
  destruct (JS.orStrOpt (location req) (coordinates u)) as [[|b loc']|] eqn:Hloc;
    try (injection Hgen as _ <-; discriminate).
  unfold OpenAI.generateItinerary, OpenAI.parseItineraryResponse in Hgen.
  destruct (chat _ (preferences u) _) as [reply|] eqn:Hchat; [|discriminate].
  destruct (JSON_parse reply) as [sk|] eqn:Hparse;
    [|injection Hgen as _ <-; discriminate].
  destruct (OpenAI.sk_places sk) as [stubs|] eqn:Hstubs; [|discriminate].
  destruct (resolvePlaces get storeUp _ 0 stubs (placeCache st))
    as [c entries] eqn:Hres.
  unfold Itinerary.create in Hgen.
  destruct (Itinerary.valid _) eqn:Hvalid in Hgen; [|discriminate].
  injection Hgen as <- <-. simpl in Hdata. injection Hdata as <-.
  exists (String a p'), u, (String b loc'), reply, sk, stubs.
  rewrite Hres.
  repeat split; try eassumption; reflexivity.
Qed.

(** C5: when the reply of the recommendation gateway does not parse, the
    parse step returns the failure result, with [success] false and an
    error message, instead of throwing; the generation flow then answers
    with status 500 and that message, and leaves the itinerary
    collection, the place cache and the users as they were. *)
Theorem unparseable_skeleton_creates_nothing req st p u loc reply :
  prompt req = Some p -> p <> "" ->
  users st !! req_user req = Some u ->
  JS.orStrOpt (location req) (coordinates u) = Some loc -> loc <> "" ->
  chat p (preferences u) loc = Some reply ->
  JSON_parse reply = None ->
  OpenAI.parseItineraryResponse JSON_parse reply
  = OpenAI.Failure "Failed to generate itinerary"
  /\ OpenAI.success (OpenAI.parseItineraryResponse JSON_parse reply) = false
  /\ OpenAI.generateItinerary JSON_parse chat p (preferences u) loc
     = Return (OpenAI.Failure "Failed to generate itinerary")
  /\ generateItinerary JSON_parse chat get storeUp req st
     = (st, Return (fail 500 "Failed to generate itinerary")).
Proof.
  intros Hp Hpne Hu Hloc Hlne Hchat Hparse.
  assert (Hfail : OpenAI.parseItineraryResponse JSON_parse reply
                  = OpenAI.Failure "Failed to generate itinerary").
  { unfold OpenAI.parseItineraryResponse. rewrite Hparse. reflexivity. }
  split; [exact Hfail|]. split; [rewrite Hfail; reflexivity|].
  assert (Hgen : OpenAI.generateItinerary JSON_parse chat p (preferences u) loc
                 = Return (OpenAI.Failure "Failed to generate itinerary")).
  { unfold OpenAI.generateItinerary. rewrite Hchat, Hfail. reflexivity. }
  split; [exact Hgen|].
  unfold generateItinerary. rewrite Hp.
  destruct p as [|a p']; [congruence|]. cbn [JS.truthyStr negb from_option id].
  rewrite Hu, Hloc. destruct loc as [|b loc']; [congruence|].
  rewrite Hgen. reflexivity.
Qed.


End Flow.

(** *** A generation scenario *)

Lemma unparseable_skeleton_creates_nothing_witness :
  generateItinerary parse (replying "Sure! Here is a plan for you.")
    (provider true) true request start
  = (start, Return (fail 500 "Failed to generate itinerary")).
Proof.
  apply (unparseable_skeleton_creates_nothing parse
           (replying "Sure! Here is a plan for you.") (provider true) true
           request start "A calm morning with coffee" ann "-122.4,37.8"
           "Sure! Here is a plan for you.");
    solve [reflexivity | discriminate].
Defined.

(** C4: the claim fails on the code at a payload as the provider sends
    it, without a direct [category] field.  The provider's second result,
    "Blue Cafe", is the first whose name contains the stub's name "Cafe" and
    is what the claim says is selected; the code examines "Corner Bakery"
    first, reads its absent category, the comparison raises an error, and
    the entry stored is the placeholder. *)
Lemma first_match_not_selected :
  let results := Foursquare.formatPlaces [bakery None; blueCafe None] in
  provider false (Foursquare.searchParams (stubSearch "-122.4,37.8" cafeStub))
  = Foursquare.Responded (Some [bakery None; blueCafe None])
  /\ List.find (matches "Cafe" "Coffee") results
     = Some (Foursquare.formatPlace (blueCafe None))
  /\ Itinerary.placeId
       (snd (resolvePlace (provider false) true "-122.4,37.8" 0 cafeStub ∅))
     = "placeholder-0".
Proof. cbv zeta. repeat split; vm_compute; reflexivity. Qed.




End GenerationFacts.

(** ** The aggregate: how its operations compose *)

Module AggregateFacts.
Import Itinerary.
Import ItineraryNotions.
Import AggregateNotions.

Lemma renumber_ids ps : forall i, map placeId (renumber i ps) = map placeId ps.
Proof.
  induction ps as [|p ps IH]; intros i; simpl; [reflexivity|].
  rewrite IH. reflexivity.
Qed.

Lemma renumber_renumber ps : forall i j, renumber i (renumber j ps) = renumber i ps.
Proof.
  induction ps as [|p ps IH]; intros i j; simpl; [reflexivity|].
  rewrite IH. reflexivity.
Qed.

Lemma filter_kept pid ps : forall i,
  List.filter (fun place => negb (String.eqb (placeId place) pid))
    (renumber i (List.filter (fun place => negb (String.eqb (placeId place) pid)) ps))
  = renumber i (List.filter (fun place => negb (String.eqb (placeId place) pid)) ps).
Proof.
  induction ps as [|p ps IH]; intros i; simpl; [reflexivity|].
  destruct (negb (String.eqb (placeId p) pid)) eqn:E; simpl; [|apply IH].
  rewrite E, IH. reflexivity.
Qed.

Lemma filter_ids pid ps :
  map placeId (List.filter (fun place => negb (String.eqb (placeId place) pid)) ps)
  = List.filter (fun x => negb (String.eqb x pid)) (map placeId ps).
Proof.
  induction ps as [|p ps IH]; simpl; [reflexivity|].
  destruct (negb (String.eqb (placeId p) pid)); simpl; rewrite IH; reflexivity.
Qed.

Lemma filter_absent pid ps :
  ~ In pid (map placeId ps) ->
  List.filter (fun place => negb (String.eqb (placeId place) pid)) ps = ps.
Proof.
  induction ps as [|p ps IH]; simpl; [reflexivity|]. intros Hnot.
  destruct (String.eqb_spec (placeId p) pid) as [Heq|Hne]; simpl.
  - exfalso. apply Hnot. left. exact Heq.
  - rewrite IH; [reflexivity|]. intros Hin. apply Hnot. right. exact Hin.
Qed.

Lemma renumber_sequential ps : forall i,
  map order ps = seqZ (i + 1) (Z.of_nat (length ps)) -> renumber i ps = ps.
Proof.
  induction ps as [|p ps IH]; intros i Hseq; [reflexivity|].
  cbn [renumber]. cbn [map length] in Hseq. rewrite seqZ_cons in Hseq by lia.
  injection Hseq as Hp Hrest.
  rewrite IH.
  - f_equal. destruct p. unfold set_order. simpl in *. subst. reflexivity.
  - rewrite Hrest. f_equal; lia.
Qed.

(** X1: [removePlace] deletes every entry with the given id and no other:
    the ids that remain are the other ids, in their order, none of them the
    removed one; a second removal of the same id changes nothing. *)
Theorem removePlace_removes_all pid it :
  placeIds (removePlace pid it)
  = List.filter (fun x => negb (String.eqb x pid)) (placeIds it)
  /\ ~ In pid (placeIds (removePlace pid it))
  /\ removePlace pid (removePlace pid it) = removePlace pid it.
Proof.
  assert (Hids : placeIds (removePlace pid it)
                 = List.filter (fun x => negb (String.eqb x pid)) (placeIds it)).
  { unfold placeIds. rewrite ItineraryFacts.removePlace_places, renumber_ids.
    apply filter_ids. }
  split; [exact Hids|]. split.
  - rewrite Hids. intros Hin. apply List.filter_In in Hin. destruct Hin as [_ Hne].
    rewrite String.eqb_refl in Hne. discriminate.
  - unfold removePlace at 1. rewrite ItineraryFacts.removePlace_places.
    rewrite filter_kept, renumber_renumber.
    unfold removePlace, updateTotals, with_places, with_totalDuration. simpl.
    reflexivity.
Qed.

(** X2: on an itinerary whose entries are numbered 1, 2, ... in list order
    and whose total is the sum of its durations, removing a place id that
    is not in the list leaves the whole document as it was. *)
Theorem removePlace_absent_noop pid it :
  ~ In pid (placeIds it) ->
  map order (places it) = seqZ 1 (Z.of_nat (length (places it))) ->
  totalDuration it = sumDurations (places it) ->
  removePlace pid it = it.
Proof.
  intros Habs Hseq Htot. unfold removePlace.
  rewrite (filter_absent pid (places it) Habs).
  rewrite (renumber_sequential (places it) 0 Hseq).
  unfold updateTotals. simpl. rewrite ItineraryFacts.reduce_durations.
  replace (0 + sumDurations (places it)) with (totalDuration it) by lia.
  destruct it. reflexivity.
Qed.

Lemma removePlace_absent_noop_witness :
  removePlace "no-such-place" threeStops = threeStops.
Proof.
  apply removePlace_absent_noop.
  - vm_compute. intuition discriminate.
  - vm_compute. reflexivity.
  - vm_compute. reflexivity.
Defined.

(** X3: adding a place whose id is new and removing it again gives back the
    places list, entry for entry, when the entries were numbered 1, 2, ...
    in list order; the whole document is back when its total was the sum of
    its durations. *)
Theorem addPlace_removePlace_roundtrip pd it :
  ~ In (pd_placeId pd) (placeIds it) ->
  map order (places it) = seqZ 1 (Z.of_nat (length (places it))) ->
  places (removePlace (pd_placeId pd) (addPlace pd it)) = places it
  /\ (totalDuration it = sumDurations (places it) ->
      removePlace (pd_placeId pd) (addPlace pd it) = it).
Proof.
  intros Hfresh Hseq.
  assert (Hplaces : places (removePlace (pd_placeId pd) (addPlace pd it)) = places it).
  { rewrite ItineraryFacts.removePlace_places, ItineraryFacts.addPlace_places.
    rewrite List.filter_app. simpl. rewrite String.eqb_refl. simpl.
    rewrite app_nil_r, (filter_absent _ _ Hfresh).
    apply renumber_sequential. exact Hseq. }
  split; [exact Hplaces|]. intros Htot.
  rewrite ItineraryFacts.removePlace_places in Hplaces.
  unfold removePlace. rewrite Hplaces.
  unfold updateTotals. cbn [places with_places].
  rewrite ItineraryFacts.reduce_durations.
  replace (0 + sumDurations (places it)) with (totalDuration it) by lia.
  destruct it. reflexivity.
Qed.

Lemma addPlace_removePlace_roundtrip_witness :
  removePlace "museum-d" (addPlace (stop "museum-d" "Museum D" 120) threeStops)
  = threeStops.
Proof.
  apply (addPlace_removePlace_roundtrip (stop "museum-d" "Museum D" 120) threeStops).
  - vm_compute. intuition discriminate.
  - vm_compute. reflexivity.
  - vm_compute. reflexivity.
Defined.

Lemma visitFirst_ids pid r ps : map placeId (visitFirst pid r ps) = map placeId ps.
Proof.
  induction ps as [|p ps IH]; simpl; [reflexivity|].
  destruct (String.eqb (placeId p) pid); simpl; [|rewrite IH]; reflexivity.
Qed.

Lemma visitFirst_durations pid r ps :
  map estimatedDuration (visitFirst pid r ps) = map estimatedDuration ps.
Proof.
  induction ps as [|p ps IH]; simpl; [reflexivity|].
  destruct (String.eqb (placeId p) pid); simpl; [|rewrite IH]; reflexivity.
Qed.

Lemma visitFirst_absent pid r ps :
  ~ In pid (map placeId ps) -> visitFirst pid r ps = ps.
Proof.
  induction ps as [|p ps IH]; simpl; [reflexivity|]. intros Hnot.
  destruct (String.eqb_spec (placeId p) pid) as [Heq|Hne].
  - exfalso. apply Hnot. left. exact Heq.
  - rewrite IH; [reflexivity|]. intros Hin. apply Hnot. right. exact Hin.
Qed.

Lemma visitFirst_count pid r ps :
  (length (List.filter isVisited ps)
   <= length (List.filter isVisited (visitFirst pid r ps))
   <= S (length (List.filter isVisited ps)))%nat.
Proof.
  induction ps as [|p ps IH]; simpl; [lia|].
  destruct (String.eqb (placeId p) pid); simpl.
  - destruct (isVisited p); simpl; lia.
  - destruct (isVisited p); simpl; lia.
Qed.

Lemma markPlaceVisited_rest now pid r it :
  totalDuration (markPlaceVisited now pid r it) = totalDuration it
  /\ likes (markPlaceVisited now pid r it) = likes it
  /\ shares (markPlaceVisited now pid r it) = shares it.
Proof.
  unfold markPlaceVisited. cbn [places with_places].
  destruct (forallb isVisited _); repeat split; reflexivity.
Qed.

Lemma markPlaceVisited_durations now pid r it :
  map estimatedDuration (places (markPlaceVisited now pid r it))
  = map estimatedDuration (places it).
Proof. rewrite ItineraryFacts.markPlaceVisited_places. apply visitFirst_durations. Qed.

(** X4: [markPlaceVisited] touches nothing but visited flags, ratings and
    the completion fields: the ids, order indices and durations of the
    entries, the total duration, the likes and the share counter are as
    before; at most one more entry is visited and none is un-visited; a
    place id that is not in the list leaves the places list untouched. *)
Theorem markPlaceVisited_frame now pid r it :
  let it' := markPlaceVisited now pid r it in
  placeIds it' = placeIds it
  /\ map order (places it') = map order (places it)
  /\ map estimatedDuration (places it') = map estimatedDuration (places it)
  /\ totalDuration it' = totalDuration it
  /\ likes it' = likes it
  /\ shares it' = shares it
  /\ (visitedCount it <= visitedCount it' <= S (visitedCount it))%nat
  /\ (~ In pid (placeIds it) -> places it' = places it).
Proof.
  cbv zeta. unfold placeIds, visitedCount.
  rewrite !ItineraryFacts.markPlaceVisited_places.
  split; [apply visitFirst_ids|]. split; [apply ItineraryFacts.visitFirst_orders|].
  split; [apply visitFirst_durations|].
  destruct (markPlaceVisited_rest now pid r it) as (Ht & Hl & Hs).
  split; [exact Ht|]. split; [exact Hl|]. split; [exact Hs|].
  split; [apply visitFirst_count|]. apply visitFirst_absent.
Qed.

Lemma shadowed_of_split pre p mid q post :
  placeId p = placeId q -> isVisited q = false ->
  shadowed (pre ++ p :: mid ++ q :: post).
Proof.
  intros Hid Hq. induction pre as [|x pre IH]; simpl.
  - apply (shadowed_here p _ q); [|symmetry; exact Hid|exact Hq].
    apply in_or_app. right. left. reflexivity.
  - apply shadowed_later. exact IH.
Qed.

Lemma visitFirst_keeps_other pid r q ps :
  In q ps -> placeId q <> pid -> In q (visitFirst pid r ps).
Proof.
  induction ps as [|p ps IH]; simpl; [tauto|]. intros [Heq|Hin] Hne.
  - subst p. destruct (String.eqb_spec (placeId q) pid); [contradiction|]. left.
    reflexivity.
  - destruct (String.eqb (placeId p) pid); right; [exact Hin|exact (IH Hin Hne)].
Qed.

Lemma visitFirst_shadowed pid r ps : shadowed ps -> shadowed (visitFirst pid r ps).
Proof.
  induction 1 as [p rest q Hin Hid Hq|p rest Hsh IH]; simpl.
  - destruct (String.eqb_spec (placeId p) pid) as [Heq|Hne].
    + apply (shadowed_here _ _ q); [exact Hin|exact Hid|exact Hq].
    + apply (shadowed_here _ _ q); [|exact Hid|exact Hq].
      apply visitFirst_keeps_other; [exact Hin|]. rewrite Hid. exact Hne.
  - destruct (String.eqb (placeId p) pid); apply shadowed_later; [exact Hsh|exact IH].
Qed.

Lemma shadowed_not_all_visited ps : shadowed ps -> forallb isVisited ps = false.
Proof.
  induction 1 as [p rest q Hin Hid Hq|p rest Hsh IH]; simpl.
  - apply andb_false_iff. right.
    destruct (forallb isVisited rest) eqn:E; [|reflexivity].
    rewrite forallb_forall in E. rewrite (E q Hin) in Hq. discriminate.
  - rewrite IH. apply andb_false_r.
Qed.

Lemma marks_keep_incomplete calls : forall it,
  isCompleted it = false -> shadowed (places it) ->
  isCompleted (run (map asOp calls) it) = false
  /\ shadowed (places (run (map asOp calls) it)).
Proof.
  induction calls as [|[[now pid] r] calls IH]; intros it Hflag Hsh; [split; assumption|].
  cbn [map asOp run fold_left step]. apply IH.
  - rewrite ItineraryFacts.markPlaceVisited_flag, Hflag.
    apply shadowed_not_all_visited, visitFirst_shadowed, Hsh.
  - rewrite ItineraryFacts.markPlaceVisited_places.
    apply visitFirst_shadowed, Hsh.
Qed.

(** X5: an itinerary that is not completed and lists some place id twice,
    the later of the two entries not yet visited, is not completed by any
    sequence of [markPlaceVisited] calls, and never has all its entries
    visited: each call marks the first entry with the id, so the later one
    is never reached. *)
Theorem duplicate_place_never_completed it pre p mid q post calls :
  isCompleted it = false ->
  places it = (pre ++ p :: mid ++ q :: post)%list ->
  placeId p = placeId q ->
  isVisited q = false ->
  isCompleted (run (map asOp calls) it) = false
  /\ forallb isVisited (places (run (map asOp calls) it)) = false.
Proof.
  intros Hflag Hsplit Hid Hq.
  destruct (marks_keep_incomplete calls it Hflag) as [Hc Hsh].
  - rewrite Hsplit. apply shadowed_of_split; assumption.
  - split; [exact Hc|]. apply shadowed_not_all_visited, Hsh.
Qed.

Lemma duplicate_place_never_completed_witness :
  isCompleted
    (run [MarkPlaceVisited 10 "cafe-a" None; MarkPlaceVisited 20 "cafe-a" (Some 5);
          MarkPlaceVisited 30 "cafe-a" None] sameStopTwice) = false.
Proof.
  apply (duplicate_place_never_completed sameStopTwice []
           (castPlace (stop "cafe-a" "Cafe A" 60) 1) []
           (castPlace (stop "cafe-a" "Cafe A" 30) 2) []
           [(10, "cafe-a", None); (20, "cafe-a", Some 5); (30, "cafe-a", None)]);
    reflexivity.
Defined.

Lemma run_app a b it : run (a ++ b) it = run b (run a it).
Proof. unfold run. apply fold_left_app. Qed.

Lemma visitFirst_all_visited pid r ps :
  forallb isVisited ps = true -> forallb isVisited (visitFirst pid r ps) = true.
Proof.
  induction ps as [|p ps IH]; simpl; [reflexivity|]. intros H.
  apply andb_true_iff in H. destruct H as [Hp Hps].
  destruct (String.eqb (placeId p) pid); simpl.
  - exact Hps.
  - rewrite Hp. apply IH, Hps.
Qed.

(** X6: the completion timestamp is not kept from the first completion: on
    an itinerary all of whose entries are visited, every [markPlaceVisited]
    call stamps [completedAt] anew, so after a non-empty sequence of calls
    it is the clock of the last call. *)
Theorem completedAt_restamped it calls now pid r :
  forallb isVisited (places it) = true ->
  let it' := run (map asOp (calls ++ [(now, pid, r)])) it in
  completedAt it' = Some now
  /\ isCompleted it' = true
  /\ forallb isVisited (places it') = true.
Proof.
  intros Hall. cbv zeta. rewrite map_app, run_app.
  assert (Hmid : forallb isVisited (places (run (map asOp calls) it)) = true).
  { clear now pid r. revert it Hall.
    induction calls as [|[[t p] x] calls IH]; intros it Hall; [exact Hall|].
    cbn [map asOp run fold_left step]. apply IH.
    rewrite ItineraryFacts.markPlaceVisited_places.
    apply visitFirst_all_visited, Hall. }
  change (run (map asOp [(now, pid, r)]) (run (map asOp calls) it))
    with (markPlaceVisited now pid r (run (map asOp calls) it)).
  pose proof (visitFirst_all_visited pid r _ Hmid) as Hafter.
  rewrite ItineraryFacts.markPlaceVisited_flag, ItineraryFacts.markPlaceVisited_places.
  rewrite Hafter, orb_true_r. split; [|split; reflexivity].
  unfold markPlaceVisited. cbn [places with_places]. rewrite Hafter. reflexivity.
Qed.

Lemma completedAt_restamped_witness :
  let done := markPlaceVisited 1000 "cafe-a" None
                (addPlace (stop "cafe-a" "Cafe A" 60) blank) in
  completedAt done = Some 1000
  /\ completedAt (run [MarkPlaceVisited 2000 "zzz" None;
                       MarkPlaceVisited 3000 "cafe-a" None] done) = Some 3000.
Proof.
  cbv zeta. split; [reflexivity|].
  apply (completedAt_restamped
           (markPlaceVisited 1000 "cafe-a" None
              (addPlace (stop "cafe-a" "Cafe A" 60) blank))
           [(2000, "zzz", None)] 3000 "cafe-a" None).
  reflexivity.
Defined.

Lemma step_total it o :
  totalDuration it = sumDurations (places it) \/ structural o = true ->
  totalDuration (step it o) = sumDurations (places (step it o)).
Proof.
  intros H. destruct o as [pd|pid|now pid r|now u]; cbn [step].
  - unfold addPlace. rewrite ItineraryFacts.updateTotals_places.
    apply ItineraryFacts.updateTotals_sum.
  - unfold removePlace. rewrite ItineraryFacts.updateTotals_places.
    apply ItineraryFacts.updateTotals_sum.
  - destruct H as [H|H]; [|discriminate].
    pose proof (markPlaceVisited_durations now pid r it) as Hd.
    destruct (markPlaceVisited_rest now pid r it) as (Ht & _).
    rewrite Ht, H. unfold sumDurations. rewrite Hd. reflexivity.
  - destruct H as [H|H]; [|discriminate].
    rewrite ItineraryFacts.toggleLike_places.
    unfold toggleLike. destruct (List.find _ _); exact H.
Qed.

Lemma run_total ops : forall it,
  totalDuration it = sumDurations (places it) ->
  totalDuration (run ops it) = sumDurations (places (run ops it)).
Proof.
  induction ops as [|o ops IH]; intros it H; [exact H|].
  cbn [run fold_left]. apply IH, step_total. left. exact H.
Qed.

(** X7: the total duration is the sum of the entry durations after every
    sequence of aggregate operations that starts from an itinerary where it
    is, and also, wherever it starts, after every sequence in which an
    [addPlace] or a [removePlace] occurs. *)
Theorem totalDuration_invariant it :
  (totalDuration it = sumDurations (places it) ->
   forall ops, totalDuration (run ops it) = sumDurations (places (run ops it)))
  /\ (forall before o after, structural o = true ->
        totalDuration (run (before ++ o :: after) it)
        = sumDurations (places (run (before ++ o :: after) it))).
Proof.
  split.
  - intros H ops. apply run_total, H.
  - intros before o after Ho. rewrite run_app.
    change (run (o :: after) (run before it))
      with (run after (step (run before it) o)).
    apply run_total, step_total. right. exact Ho.
Qed.

Lemma without_NoDup u ls :
  NoDup (map like_user ls) -> NoDup (map like_user (without u ls)).
Proof.
  induction ls as [|l ls IH]; simpl; [intros; constructor|].
  intros Hnd. apply NoDup_cons in Hnd. destruct Hnd as [Hnot Hnd].
  destruct (String.eqb (like_user l) u); simpl; [exact (IH Hnd)|].
  apply NoDup_cons. split; [|exact (IH Hnd)].
  intros Hin. apply Hnot. apply list_elem_of_In. apply list_elem_of_In in Hin.
  apply ItineraryFacts.In_without in Hin. tauto.
Qed.

Lemma toggleLike_NoDup now u it :
  NoDup (likers it) -> NoDup (likers (toggleLike now u it)).
Proof.
  intros Hnd. unfold likers. rewrite ItineraryFacts.toggleLike_likes.
  destruct (bool_decide (u ∈ likers it)) eqn:Hdec.
  - apply without_NoDup, Hnd.
  - apply bool_decide_eq_false_1 in Hdec.
    rewrite map_app. simpl. apply NoDup_app. split; [exact Hnd|]. split.
    + intros x Hx Hx'. apply list_elem_of_singleton in Hx'. subst x. exact (Hdec Hx).
    + apply NoDup_singleton.
Qed.

(** X8: no user is listed twice among the likes: from an itinerary in which
    every user has at most one like entry, every sequence of aggregate
    operations leads to one in which that is so again; and a [toggleLike]
    changes the number of like entries by exactly one. *)
Theorem likes_one_per_user it :
  NoDup (likers it) ->
  (forall ops, NoDup (likers (run ops it)))
  /\ (forall now u,
        length (likes (toggleLike now u it))
        = if bool_decide (u ∈ likers it)
          then (length (likes it) - 1)%nat
          else S (length (likes it))).
Proof.
  intros Hnd. split.
  - intros ops. revert it Hnd. induction ops as [|o ops IH]; intros it Hnd; [exact Hnd|].
    cbn [run fold_left]. apply IH.
    destruct o as [pd|pid|now pid r|now u]; cbn [step].
    + exact Hnd.
    + exact Hnd.
    + unfold likers. destruct (markPlaceVisited_rest now pid r it) as (_ & Hl & _).
      rewrite Hl. exact Hnd.
    + apply toggleLike_NoDup, Hnd.
  - intros now u. rewrite ItineraryFacts.toggleLike_likes.
    destruct (bool_decide (u ∈ likers it)) eqn:Hdec.
    + apply bool_decide_eq_true_1 in Hdec. unfold likers in *.
      clear now. induction (likes it) as [|l ls IH]; simpl in *.
      * apply elem_of_nil in Hdec. contradiction.
      * apply NoDup_cons in Hnd. destruct Hnd as [Hnot Hnd].
        destruct (String.eqb_spec (like_user l) u) as [Heq|Hne]; simpl.
        -- subst u. rewrite ItineraryFacts.find_none_without; [lia|].
           apply ItineraryFacts.find_none_iff. intros Hin. apply Hnot.
           apply list_elem_of_In. exact Hin.
        -- apply elem_of_cons in Hdec. destruct Hdec as [Heq|Hin]; [congruence|].
           rewrite (IH Hnd Hin). destruct ls; [apply elem_of_nil in Hin; contradiction|].
           simpl. lia.
    + rewrite length_app. simpl. lia.
Qed.

Lemma likes_one_per_user_witness :
  NoDup (likers (run [ToggleLike 30 "ann"; ToggleLike 40 "cy"; ToggleLike 50 "ann"]
                   twoLikes))
  /\ length (likes (toggleLike 30 "bob" twoLikes)) = 1%nat.
Proof.
  assert (Hnd : NoDup (likers twoLikes)).
  { vm_compute. repeat constructor; intros H; repeat (apply elem_of_cons in H;
      destruct H as [H|H]; [discriminate|]); apply elem_of_nil in H; exact H. }
  destruct (likes_one_per_user twoLikes Hnd) as [Hrun Hlen].
  split; [apply Hrun|]. rewrite Hlen. reflexivity.
Defined.

End AggregateFacts.

(** ** Itinerary generation: what a stored result looks like *)

Module GenerationShape.
Import Controller.
Import GenerationNotions.

Section Flow.
Variable JSON_parse : string -> option OpenAI.skeleton.
Variable chat : string -> string -> string -> option string.
Variable get : list (string * Foursquare.paramValue) -> Foursquare.providerOutcome.
Variable storeUp : bool.

Lemma entryOf_fresh bestMatch index place :
  let e := entryOf bestMatch index place in
  Itinerary.isVisited e = false /\ Itinerary.rating e = None
  /\ Itinerary.placeId e <> "" /\ Itinerary.estimatedDuration e <> 0.
Proof.
  cbv zeta. split; [reflexivity|]. split; [reflexivity|]. split.
  - unfold entryOf, placeholderId. cbn [Itinerary.placeId].
    destruct bestMatch as [m|]; simpl; [|discriminate].
    destruct (Foursquare.id m); discriminate.
  - unfold entryOf. cbn [Itinerary.estimatedDuration]. unfold JS.orNum.
    destruct (OpenAI.stub_estimatedDuration place) as [n|]; [|discriminate].
    destruct (Z.eqb_spec n 0); [discriminate|assumption].
Qed.

Lemma resolvePlace_fresh loc index place c :
  let e := snd (resolvePlace get storeUp loc index place c) in
  Itinerary.isVisited e = false /\ Itinerary.rating e = None
  /\ Itinerary.placeId e <> "" /\ Itinerary.estimatedDuration e <> 0.
Proof.
  cbv zeta. rewrite GenerationFacts.resolvePlace_entry.
  destruct (get _); [apply entryOf_fresh|].
  destruct (findM _ _); apply entryOf_fresh.
Qed.

Lemma resolvePlaces_shape loc stubs : forall index c,
  let entries := snd (resolvePlaces get storeUp loc index stubs c) in
  map Itinerary.order entries
  = seqZ (Z.of_nat index + 1) (Z.of_nat (length stubs))
  /\ Forall (fun e => Itinerary.isVisited e = false /\ Itinerary.rating e = None
                      /\ Itinerary.placeId e <> ""
                      /\ Itinerary.estimatedDuration e <> 0) entries.
Proof.
  induction stubs as [|place rest IH]; intros index c; cbv zeta.
  - split; [reflexivity|constructor].
  - cbn [resolvePlaces].
    pose proof (GenerationFacts.resolvePlace_order get storeUp loc index place c) as Hord.
    pose proof (resolvePlace_fresh loc index place c) as Hfresh.
    destruct (resolvePlace get storeUp loc index place c) as [c1 entry].
    specialize (IH (S index) c1). cbv zeta in IH.
    destruct (resolvePlaces get storeUp loc (S index) rest c1) as [c2 entries].
    cbn [snd] in *. destruct IH as [IHo IHf]. split.
    + cbn [map length]. rewrite seqZ_cons by lia. rewrite Hord, IHo.
      f_equal. f_equal; lia.
    + constructor; [exact Hfresh|exact IHf].
Qed.

(** X9: the itinerary a generation stores belongs to the requesting user,
    is private, not completed, without likes, flagged as AI-generated and
    keeps the prompt as it was sent; its entries are numbered 1, 2, ... in
    list order, none is visited or rated, each has a place id and a
    duration other than 0. *)
Theorem generated_itinerary_shape req st st' resp it :
  generateItinerary JSON_parse chat get storeUp req st = (st', Return resp) ->
  data resp = Some it ->
  Itinerary.user it = req_user req
  /\ Itinerary.aiPrompt it = prompt req
  /\ Itinerary.aiGenerated it = true
  /\ Itinerary.isPublic it = false
  /\ Itinerary.isCompleted it = false
  /\ Itinerary.likes it = []
  /\ map Itinerary.order (Itinerary.places it)
     = seqZ 1 (Z.of_nat (length (Itinerary.places it)))
  /\ Forall (fun e => Itinerary.isVisited e = false /\ Itinerary.rating e = None
                      /\ Itinerary.placeId e <> ""
                      /\ Itinerary.estimatedDuration e <> 0) (Itinerary.places it).
Proof.
  intros Hgen Hdata.
  destruct (GenerationFacts.generateItinerary_success JSON_parse chat get storeUp
              req st st' resp it Hgen Hdata)
    as (p & u & loc & reply & sk & stubs & Hp & _ & _ & _ & _ & _ & Hit & _ & _).
  destruct (resolvePlaces_shape loc stubs 0 (placeCache st)) as [Hord Hall].
  rewrite Hit. cbn [Itinerary.cast generated Itinerary.user Itinerary.aiPrompt
    Itinerary.aiGenerated Itinerary.isPublic Itinerary.isCompleted Itinerary.likes
    Itinerary.places Itinerary.new_user Itinerary.new_aiPrompt
    Itinerary.new_aiGenerated Itinerary.new_places].
  repeat (split; [first [reflexivity | symmetry; exact Hp]|]).
  split; [|exact Hall].
  rewrite Hord, GenerationFacts.resolvePlaces_length. reflexivity.
Qed.

(** X10: a generation either stores exactly one new itinerary, answers
    with it and gives the requesting user 15 points, or stores no itinerary,
    gives no points and does not answer with a success. *)
Theorem generation_all_or_nothing req st st' res :
  generateItinerary JSON_parse chat get storeUp req st = (st', res) ->
  (exists it u,
      res = Return (ok "Itinerary generated successfully" it)
      /\ users st !! req_user req = Some u
      /\ users st' = <[req_user req := addPoints 15 u]> (users st)
      /\ itineraries st' = (itineraries st ++ [it])%list)
  \/ (users st' = users st
      /\ itineraries st' = itineraries st
      /\ forall resp, res = Return resp -> success resp = false /\ data resp = None).
Proof.
  unfold generateItinerary. intros Hgen.
  assert (Hno : forall code msg, (st', res) = (st, Return (fail code msg)) ->
            users st' = users st /\ itineraries st' = itineraries st
            /\ forall resp, res = Return resp -> success resp = false /\ data resp = None).
  { intros code msg H. injection H as -> ->. split; [reflexivity|].
    split; [reflexivity|]. intros resp Hr. injection Hr as <-. split; reflexivity. }
  assert (Hthrow : forall (s : state) m, (st', res) = (s, Throw m) ->
            users s = users st -> itineraries s = itineraries st ->
            users st' = users st /\ itineraries st' = itineraries st
            /\ forall resp, res = Return resp -> success resp = false /\ data resp = None).
  { intros s m H Hu Hi. injection H as -> ->. split; [exact Hu|].
    split; [exact Hi|]. intros resp Hr. discriminate. }
  symmetry in Hgen.
  destruct (prompt req) as [[|a p']|] eqn:Hp; cbn [JS.truthyStr negb from_option id] in Hgen;
    try (right; eapply Hno; exact Hgen).
  destruct (users st !! req_user req) as [u|] eqn:Hu;
    [|right; eapply Hthrow; [exact Hgen|reflexivity|reflexivity]].
  destruct (JS.orStrOpt (location req) (coordinates u)) as [[|b loc']|] eqn:Hloc;
    try (right; eapply Hno; exact Hgen).
  destruct (OpenAI.generateItinerary JSON_parse chat _ (preferences u) _)
    as [[sk|err]|m] eqn:Hai;
    [| right; eapply Hno; exact Hgen
     | right; eapply Hthrow; [exact Hgen|reflexivity|reflexivity]].
  destruct (OpenAI.sk_places sk) as [stubs|] eqn:Hstubs;
    [|right; eapply Hthrow; [exact Hgen|reflexivity|reflexivity]].
  destruct (resolvePlaces get storeUp _ 0 stubs (placeCache st)) as [c entries] eqn:Hres.
  unfold Itinerary.create in Hgen.
  destruct (Itinerary.valid _) eqn:Hvalid in Hgen.
  - left. injection Hgen as -> ->. eexists _, u.
    split; [reflexivity|]. split; [reflexivity|]. split; reflexivity.
  - right. eapply Hthrow; [exact Hgen|reflexivity|reflexivity].
Qed.

End Flow.

Lemma generated_itinerary_shape_witness :
  exists st' it,
    generateItinerary parse (replying morningJSON) (provider true) true request start
    = (st', Return (ok "Itinerary generated successfully" it))
    /\ map Itinerary.order (Itinerary.places it) = [1; 2]
    /\ Itinerary.aiPrompt it = Some "A calm morning with coffee".
Proof.
  assert (Hgen : exists st' it,
             generateItinerary parse (replying morningJSON) (provider true) true
               request start
             = (st', Return (ok "Itinerary generated successfully" it)))
    by (eexists _, _; vm_compute; reflexivity).
  destruct Hgen as (st' & it & Hgen). exists st', it. split; [exact Hgen|].
  destruct (generated_itinerary_shape parse (replying morningJSON) (provider true)
              true request start st' _ it Hgen eq_refl)
    as (_ & Hprompt & _ & _ & _ & _ & Hord & _).
  split; [|exact Hprompt].
  rewrite Hord.
  destruct (GenerationFacts.generateItinerary_success parse (replying morningJSON)
              (provider true) true request start st' _ it Hgen eq_refl)
    as (p & u & loc & reply & sk & stubs & _ & _ & _ & Hchat & Hparse & Hstubs & Hit & _).
  unfold replying in Hchat. injection Hchat as <-.
  vm_compute in Hparse. injection Hparse as <-.
  vm_compute in Hstubs. injection Hstubs as <-.
  rewrite Hit. cbn [Itinerary.cast Itinerary.places generated Itinerary.new_places].
  rewrite GenerationFacts.resolvePlaces_length. reflexivity.
Defined.

Lemma generation_all_or_nothing_witness :
  let out := generateItinerary parse (replying morningJSON) (provider true) true
               request start in
  (points <$> users (fst out) !! "ann") = Some 15
  /\ length (itineraries (fst out)) = 1%nat.
Proof.
  cbv zeta.
  set (out := generateItinerary parse (replying morningJSON) (provider true) true
                request start).
  destruct (generation_all_or_nothing parse (replying morningJSON) (provider true)
              true request start (fst out) (snd out) (surjective_pairing out))
    as [(it & u & _ & Hu & Hus & Hits)|(_ & _ & Hno)].
  - rewrite Hus, Hits. vm_compute in Hu. injection Hu as <-.
    split; [vm_compute; reflexivity|]. rewrite length_app. reflexivity.
  - exfalso.
    assert (Hok : exists it, snd out = Return (ok "Itinerary generated successfully" it))
      by (eexists; vm_compute; reflexivity).
    destruct Hok as [it Hok]. destruct (Hno _ Hok) as [Hs _]. discriminate Hs.
Defined.

End GenerationShape.

(** ** Favourites, visits and badges *)

Module UserFacts.
Import User.
Import PlacesController.
Import UserNotions.
Import VisitNotions.

Lemma find_strict_none {A} (key : A -> string) id l :
  List.find (fun x => strictEq (key x) id) l = None <-> known id (map key l) = false.
Proof.
  destruct id as [s|n]; cbn [strictEq known].
  - rewrite bool_decide_eq_false. induction l as [|x l IH]; cbn [List.find map].
    + split; [intros _ H; apply elem_of_nil in H; exact H|reflexivity].
    + rewrite not_elem_of_cons.
      destruct (String.eqb_spec (key x) s) as [e|ne].
      * split; [discriminate|]. intros [H _]. congruence.
      * rewrite IH. split; [intros H; split; [congruence|exact H]|tauto].
  - split; [reflexivity|]. intros _. induction l as [|x l IH]; [reflexivity|exact IH].
Qed.

Lemma known_In id ids : known id ids = true -> In (castId id) ids.
Proof.
  destruct id as [s|n]; cbn [known castId]; [|discriminate].
  intros H. apply bool_decide_eq_true_1, list_elem_of_In in H. exact H.
Qed.

Lemma known_fresh id ids : ~ In (castId id) ids -> known id ids = false.
Proof.
  intros H. destruct (known id ids) eqn:K; [|reflexivity].
  apply known_In in K. contradiction.
Qed.

Lemma known_textual s ids : known (IdStr s) ids = false -> ~ In s ids.
Proof.
  cbn [known]. intros H Hin. apply bool_decide_eq_false_1 in H.
  apply H, list_elem_of_In, Hin.
Qed.

Lemma numberToString_nonempty n : numberToString n <> "".
Proof.
  unfold numberToString. destruct n as [|p|p]; cbn [Z.to_int NilEmpty.string_of_int];
    [discriminate| |discriminate].
  pose proof (DecimalPos.Unsigned.to_uint_nonnil p) as H.
  destruct (Pos.to_uint p); [contradiction|discriminate..].
Qed.

Lemma revisitFirst_ids now pid r vs :
  map visit_placeId (revisitFirst now pid r vs) = map visit_placeId vs.
Proof.
  induction vs as [|v vs IH]; simpl; [reflexivity|].
  destruct (strictEq (visit_placeId v) pid); simpl; [|rewrite IH]; reflexivity.
Qed.

Lemma filter_fav_ids pid fs :
  map fav_placeId (List.filter (fun fav => negb (String.eqb (fav_placeId fav) pid)) fs)
  = List.filter (fun x => negb (String.eqb x pid)) (map fav_placeId fs).
Proof.
  induction fs as [|f fs IH]; simpl; [reflexivity|].
  destruct (negb (String.eqb (fav_placeId f) pid)); simpl; rewrite IH; reflexivity.
Qed.

Lemma NoDup_snoc (x : string) l : NoDup l -> ~ In x l -> NoDup (l ++ [x]).
Proof.
  intros Hnd Hx. apply NoDup_app. split; [exact Hnd|]. split.
  - intros y Hy Hy'. apply list_elem_of_singleton in Hy'. subst y.
    apply Hx. apply list_elem_of_In. exact Hy.
  - apply NoDup_singleton.
Qed.

Lemma NoDup_filter_str (f : string -> bool) l : NoDup l -> NoDup (List.filter f l).
Proof.
  induction 1 as [|x l Hx Hnd IH]; simpl; [constructor|].
  destruct (f x); [|exact IH]. constructor; [|exact IH].
  intros Hin. apply Hx. apply list_elem_of_In. apply list_elem_of_In in Hin.
  apply List.filter_In in Hin. tauto.
Qed.

Lemma find_existsb {A} (f : A -> bool) l :
  existsb f l = match List.find f l with Some _ => true | None => false end.
Proof.
  induction l as [|x l IH]; simpl; [reflexivity|].
  destruct (f x); [reflexivity|exact IH].
Qed.

Lemma addBadge_names now name d u :
  badgeNames (addBadge now name d u)
  = if hasBadge name u then badgeNames u else (badgeNames u ++ [name])%list.
Proof.
  unfold addBadge, hasBadge, badgeNames. rewrite find_existsb.
  destruct (List.find _ (badges u)); simpl; [reflexivity|].
  rewrite map_app. reflexivity.
Qed.

Lemma addBadge_frame now name d u :
  favorites (addBadge now name d u) = favorites u
  /\ visitedPlaces (addBadge now name d u) = visitedPlaces u
  /\ points (addBadge now name d u) = points u.
Proof. unfold addBadge. destruct (List.find _ _); repeat split; reflexivity. Qed.

Lemma hasBadge_In name u : hasBadge name u = true <-> In name (badgeNames u).
Proof.
  unfold hasBadge, badgeNames. rewrite existsb_exists, in_map_iff. split.
  - intros (b & Hb & Heq). apply String.eqb_eq in Heq. eauto.
  - intros (b & Heq & Hb). exists b. split; [exact Hb|]. apply String.eqb_eq. exact Heq.
Qed.

Lemma addBadge_NoDup now name d u :
  NoDup (badgeNames u) -> NoDup (badgeNames (addBadge now name d u)).
Proof.
  intros Hnd. rewrite addBadge_names. destruct (hasBadge name u) eqn:E; [exact Hnd|].
  apply NoDup_snoc; [exact Hnd|]. intros Hin. apply hasBadge_In in Hin. congruence.
Qed.

(** What a successful [markAsVisited] stores, before the badges. *)
Lemma markAsVisited_inv now body u u' res :
  markAsVisited now body u = (u', res) ->
  (u' = u /\ res = Throw "ValidationError")
  \/ (res = Return (mkResponse 200 true "Marked as visited successfully")
      /\ favorites u' = favorites u
      /\ points u' = points u + 10
      /\ visitedIds u'
         = (if known (body_placeId body) (visitedIds u)
            then visitedIds u
            else visitedIds u ++ [castId (body_placeId body)])%list
      /\ badgeNames u'
         = (if (length (visitedIds u') =? 1)%nat
            then if hasBadge "First Explorer" u then badgeNames u
                 else badgeNames u ++ ["First Explorer"]
            else if (length (visitedIds u') =? 10)%nat
                 then if hasBadge "Adventure Seeker" u then badgeNames u
                      else badgeNames u ++ ["Adventure Seeker"]
                 else badgeNames u)%list).
Proof.
  unfold markAsVisited. intros H.
  set (visits := match List.find _ (visitedPlaces u) with
                 | Some _ => _ | None => _ end) in H.
  assert (Hids : map visit_placeId visits
                 = (if known (body_placeId body) (visitedIds u)
                    then visitedIds u
                    else visitedIds u ++ [castId (body_placeId body)])%list).
  { subst visits. unfold visitedIds.
    destruct (List.find _ (visitedPlaces u)) eqn:F.
    - destruct (known _ _) eqn:K; [apply revisitFirst_ids|].
      apply (find_strict_none visit_placeId) in K. congruence.
    - apply (find_strict_none visit_placeId) in F. rewrite F, map_app. reflexivity. }
  assert (Hstep : forall u2,
            let u3 :=
              if (length (visitedPlaces u2) =? 1)%nat
              then addBadge now "First Explorer" "Visited your first place!" u2
              else if (length (visitedPlaces u2) =? 10)%nat
                   then addBadge now "Adventure Seeker" "Visited 10 different places!" u2
                   else u2 in
            favorites u3 = favorites u2 /\ visitedPlaces u3 = visitedPlaces u2
            /\ points u3 = points u2
            /\ badgeNames u3
               = (if (length (visitedPlaces u2) =? 1)%nat
                  then if hasBadge "First Explorer" u2 then badgeNames u2
                       else badgeNames u2 ++ ["First Explorer"]
                  else if (length (visitedPlaces u2) =? 10)%nat
                       then if hasBadge "Adventure Seeker" u2 then badgeNames u2
                            else badgeNames u2 ++ ["Adventure Seeker"]
                       else badgeNames u2)%list).
  { intros u2. cbv zeta.
    destruct (length (visitedPlaces u2) =? 1)%nat;
      [|destruct (length (visitedPlaces u2) =? 10)%nat].
    - destruct (addBadge_frame now "First Explorer" "Visited your first place!" u2)
        as (Hf & Hv & Hp). rewrite addBadge_names. tauto.
    - destruct (addBadge_frame now "Adventure Seeker" "Visited 10 different places!" u2)
        as (Hf & Hv & Hp). rewrite addBadge_names. tauto.
    - tauto. }
  cbv zeta in H.
  destruct (valid _) eqn:Hvalid in H.
  - right. injection H as <- <-. split; [reflexivity|].
    destruct (Hstep (addPoints 10 (mkUser (favorites u) visits (points u) (badges u))))
      as (Hf & Hv & Hp & Hb).
    cbv zeta in Hf, Hv, Hp, Hb. cbn [addPoints visitedPlaces] in Hv, Hb.
    split; [exact Hf|]. split; [exact Hp|].
    unfold visitedIds at 1. rewrite Hv.
    split; [exact Hids|].
    rewrite Hb. unfold visitedIds. rewrite Hv.
    rewrite length_map. reflexivity.
  - left. injection H as <- <-. split; reflexivity.
Qed.

Lemma addToFavorites_inv now body u u' res :
  addToFavorites now body u = (u', res) ->
  (u' = u /\ res <> Return (mkResponse 200 true "Added to favorites successfully"))
  \/ (res = Return (mkResponse 200 true "Added to favorites successfully")
      /\ known (body_placeId body) (favoriteIds u) = false
      /\ favoriteIds u' = (favoriteIds u ++ [castId (body_placeId body)])%list
      /\ points u' = points u + 5
      /\ visitedPlaces u' = visitedPlaces u
      /\ badges u' = badges u).
Proof.
  unfold addToFavorites. intros H.
  destruct (List.find _ (favorites u)) eqn:F.
  - left. injection H as <- <-. split; [reflexivity|discriminate].
  - destruct (valid _) in H.
    + right. injection H as <- <-. split; [reflexivity|].
      split; [apply (find_strict_none fav_placeId), F|].
      unfold favoriteIds. cbn [addPoints favorites]. rewrite map_app.
      repeat split.
    + left. injection H as <- <-. split; [reflexivity|discriminate].
Qed.

Lemma removeFromFavorites_inv pid u u' res :
  removeFromFavorites pid u = (u', res) ->
  points u' = points u /\ visitedPlaces u' = visitedPlaces u /\ badges u' = badges u
  /\ (u' = u
      \/ favoriteIds u'
         = List.filter (fun x => negb (String.eqb x pid)) (favoriteIds u)).
Proof.
  unfold removeFromFavorites. intros H. destruct (valid _) in H; injection H as <- <-.
  - repeat split. right. apply filter_fav_ids.
  - repeat split. left. reflexivity.
Qed.

Lemma handle_badges_unique u r :
  NoDup (badgeNames u) -> NoDup (badgeNames (fst (handle u r))).
Proof.
  intros Hb. destruct r as [now body|pid|now body]; cbn [handle].
  - destruct (addToFavorites now body u) as [u' res] eqn:E. cbn [fst].
    destruct (addToFavorites_inv _ _ _ _ _ E)
      as [[-> _]|(_ & _ & _ & _ & _ & Hbs)]; [exact Hb|].
    unfold badgeNames. rewrite Hbs. exact Hb.
  - destruct (removeFromFavorites pid u) as [u' res] eqn:E. cbn [fst].
    destruct (removeFromFavorites_inv _ _ _ _ E) as (_ & _ & Hbs & _).
    unfold badgeNames. rewrite Hbs. exact Hb.
  - destruct (markAsVisited now body u) as [u' res] eqn:E. cbn [fst].
    destruct (markAsVisited_inv _ _ _ _ _ E)
      as [[-> _]|(_ & _ & _ & _ & Hbs)]; [exact Hb|].
    rewrite Hbs.
    destruct (length (visitedIds u') =? 1)%nat;
      [|destruct (length (visitedIds u') =? 10)%nat]; [| |exact Hb].
    + destruct (hasBadge "First Explorer" u) eqn:B; [exact Hb|].
      apply NoDup_snoc; [exact Hb|]. intros Hin. apply hasBadge_In in Hin. congruence.
    + destruct (hasBadge "Adventure Seeker" u) eqn:B; [exact Hb|].
      apply NoDup_snoc; [exact Hb|]. intros Hin. apply hasBadge_In in Hin. congruence.
Qed.

Lemma handle_unique u r :
  textual r ->
  NoDup (favoriteIds u) /\ NoDup (visitedIds u) ->
  NoDup (favoriteIds (fst (handle u r))) /\ NoDup (visitedIds (fst (handle u r))).
Proof.
  intros Ht (Hf & Hv). destruct r as [now body|pid|now body]; cbn [handle].
  - destruct (addToFavorites now body u) as [u' res] eqn:E. cbn [fst].
    destruct (addToFavorites_inv _ _ _ _ _ E)
      as [[-> _]|(_ & Hfresh & Hids & _ & Hvs & _)]; [tauto|].
    unfold visitedIds. rewrite Hids, Hvs. split; [|exact Hv].
    cbn [textual] in Ht. destruct (body_placeId body) as [s|n]; [|destruct Ht].
    apply NoDup_snoc; [exact Hf|apply known_textual, Hfresh].
  - destruct (removeFromFavorites pid u) as [u' res] eqn:E. cbn [fst].
    destruct (removeFromFavorites_inv _ _ _ _ E) as (_ & Hvs & _ & Hfav).
    unfold visitedIds. rewrite Hvs. split; [|exact Hv].
    destruct Hfav as [ -> | -> ]; [exact Hf|apply NoDup_filter_str, Hf].
  - destruct (markAsVisited now body u) as [u' res] eqn:E. cbn [fst].
    destruct (markAsVisited_inv _ _ _ _ _ E)
      as [[-> _]|(_ & Hfs & _ & Hids & _)]; [tauto|].
    unfold favoriteIds. rewrite Hfs. split; [exact Hf|].
    rewrite Hids. destruct (known _ _) eqn:K; [exact Hv|].
    cbn [textual] in Ht. destruct (body_placeId body) as [s|n]; [|destruct Ht].
    apply NoDup_snoc; [exact Hv|apply known_textual, K].
Qed.

(** X11: no badge is held twice, and as long as the requests carry their
    place ids as strings no place is twice among a user's favourites and
    none twice among the visited places: a document in which that is so is
    stored as one in which it is so after any sequence of add-favourite,
    remove-favourite and mark-visited requests.  (A place id sent as a
    number is never found among the stored ids, see X12.) *)
Theorem user_lists_unique u rs :
  NoDup (favoriteIds u) -> NoDup (visitedIds u) -> NoDup (badgeNames u) ->
  NoDup (badgeNames (serve rs u))
  /\ (Forall textual rs ->
      NoDup (favoriteIds (serve rs u)) /\ NoDup (visitedIds (serve rs u))).
Proof.
  intros Hf Hv Hb. split.
  - clear Hf Hv. revert u Hb. induction rs as [|r rs IH]; intros u Hb; [exact Hb|].
    cbn [serve fold_left]. apply IH, handle_badges_unique, Hb.
  - clear Hb. intros Hall.
    assert (H : NoDup (favoriteIds u) /\ NoDup (visitedIds u)) by tauto.
    clear Hf Hv. revert u H. induction Hall as [|r rs Hr Hall IH]; intros u H;
      [exact H|].
    cbn [serve fold_left]. apply IH, handle_unique; assumption.
Qed.

Lemma user_lists_unique_witness :
  NoDup (visitedIds (serve [MarkAsVisited 10 pier; AddToFavorites 20 pier;
                            MarkAsVisited 30 pier; AddToFavorites 40 pier] newcomer))
  /\ visitedIds (serve [MarkAsVisited 10 pier; MarkAsVisited 30 pier] newcomer) = ["5d2"].
Proof.
  split; [|reflexivity].
  apply (user_lists_unique newcomer); [constructor..|].
  repeat constructor.
Defined.

Lemma find_app_none {A} (f : A -> bool) l l' :
  List.find f l = None -> List.find f (l ++ l') = List.find f l'.
Proof.
  induction l as [|a l IH]; intros H; [reflexivity|]. cbn [app List.find] in *.
  destruct (f a); [discriminate|apply IH, H].
Qed.

Lemma pushed_valid now id nm cat u :
  valid u = true -> castId id <> "" ->
  valid (mkUser (favorites u ++ [mkFavorite (castId id) nm cat now])
           (visitedPlaces u) (points u) (badges u)) = true.
Proof.
  intros Hv Hne. unfold valid in *. cbn [favorites visitedPlaces].
  apply andb_true_iff in Hv as [Hf Hvs]. rewrite forallb_app, Hf, Hvs.
  cbn [forallb fav_placeId]. destruct (String.eqb_spec (castId id) "");
    [contradiction|reflexivity].
Qed.

(** A body whose id equals no stored id is pushed. *)
Lemma addToFavorites_pushes now body u :
  valid u = true -> castId (body_placeId body) <> "" ->
  known (body_placeId body) (favoriteIds u) = false ->
  addToFavorites now body u
  = (addPoints 5
       (mkUser (favorites u
                ++ [mkFavorite (castId (body_placeId body)) (body_name body)
                      (body_category body) now])
          (visitedPlaces u) (points u) (badges u)),
     Return (mkResponse 200 true "Added to favorites successfully")).
Proof.
  intros Hv Hne Hk. unfold addToFavorites.
  rewrite (proj2 (find_strict_none fav_placeId _ _) Hk). cbv zeta.
  rewrite (pushed_valid now _ _ _ u Hv Hne). reflexivity.
Qed.

(** X12: a second add-favourite request with the same body changes
    nothing when the place id is a string: the document stored after the
    two requests is the one stored after the first, and at most 5 points
    are awarded.  When the place id is a number the stored ids, which are
    strings, never equal it: on a document that validates both requests
    push an entry with the id cast to a string, and 10 points are
    awarded. *)
Theorem addToFavorites_twice now now' body u :
  let once := fst (addToFavorites now body u) in
  let twice := fst (addToFavorites now' body once) in
  match body_placeId body with
  | IdStr _ => twice = once /\ points twice <= points u + 5
  | IdNum n =>
      valid u = true ->
      favoriteIds twice
      = (favoriteIds u ++ [numberToString n; numberToString n])%list
      /\ points twice = points u + 10
  end.
Proof.
  cbv zeta. destruct (body_placeId body) as [s|n] eqn:Hid.
  - assert (Hnow : forall t,
      valid (mkUser (favorites u ++ [mkFavorite s (body_name body)
                                       (body_category body) t])
               (visitedPlaces u) (points u) (badges u))
      = valid (mkUser (favorites u ++ [mkFavorite s (body_name body)
                                         (body_category body) now])
                 (visitedPlaces u) (points u) (badges u))).
    { intros t. unfold valid. cbn [favorites visitedPlaces].
      rewrite !forallb_app. reflexivity. }
    destruct (addToFavorites now body u) as [u1 r] eqn:E. cbn [fst].
    unfold addToFavorites in E. rewrite Hid in E. cbn [strictEq castId] in E.
    destruct (List.find _ (favorites u)) eqn:F;
      [injection E as <- <-
      |destruct (valid (mkUser (favorites u ++ [mkFavorite s (body_name body)
                                                  (body_category body) now])
                          (visitedPlaces u) (points u) (badges u))) eqn:V;
       injection E as <- <-].
    + unfold addToFavorites. rewrite Hid. cbn [strictEq]. rewrite F. cbn [fst].
      split; [reflexivity|lia].
    + unfold addToFavorites. rewrite Hid. cbn [strictEq addPoints favorites points].
      rewrite (find_app_none _ _ _ F). cbn [List.find fav_placeId].
      rewrite String.eqb_refl. cbn [fst points].
      split; [reflexivity|unfold addPoints; cbn [points]; lia].
    + unfold addToFavorites. rewrite Hid. cbn [strictEq castId]. rewrite F. cbv zeta.
      rewrite (Hnow now'). cbn [fst]. split; [reflexivity|lia].
  - intros Hv.
    assert (Hne : castId (body_placeId body) <> "")
      by (rewrite Hid; apply numberToString_nonempty).
    assert (Hk : forall ids, known (body_placeId body) ids = false)
      by (intros ids; rewrite Hid; reflexivity).
    rewrite (addToFavorites_pushes now body u Hv Hne (Hk _)). cbn [fst].
    rewrite addToFavorites_pushes; [|apply (pushed_valid now _ _ _ u Hv Hne)
                                    |exact Hne|apply Hk].
    cbn [fst]. unfold favoriteIds, addPoints. cbn [favorites points].
    rewrite !map_app, Hid. cbn [map fav_placeId castId]. rewrite <- app_assoc.
    split; [reflexivity|lia].
Qed.

Lemma addToFavorites_twice_witness :
  favoriteIds (fst (addToFavorites 20 five (fst (addToFavorites 10 five newcomer))))
  = ["5"; "5"]
  /\ points (fst (addToFavorites 20 five (fst (addToFavorites 10 five newcomer)))) = 10.
Proof. exact (addToFavorites_twice 10 20 five newcomer eq_refl). Defined.

Lemma filter_fresh pid fs :
  ~ In pid (map fav_placeId fs) ->
  List.filter (fun fav => negb (String.eqb (fav_placeId fav) pid)) fs = fs.
Proof.
  induction fs as [|f fs IH]; intros H; [reflexivity|]. cbn [List.filter].
  destruct (String.eqb_spec (fav_placeId f) pid) as [e|ne]; cbn [negb].
  - exfalso. apply H. left. exact e.
  - f_equal. apply IH. intros Hin. apply H. right. exact Hin.
Qed.

Lemma add_then_remove now body u :
  valid u = true -> castId (body_placeId body) <> "" ->
  ~ In (castId (body_placeId body)) (favoriteIds u) ->
  fst (removeFromFavorites (castId (body_placeId body))
         (fst (addToFavorites now body u)))
  = addPoints 5 u.
Proof.
  intros Hv Hne Hfresh.
  rewrite (addToFavorites_pushes now body u Hv Hne (known_fresh _ _ Hfresh)).
  cbn [fst]. unfold removeFromFavorites.
  cbn [addPoints favorites visitedPlaces points badges].
  rewrite List.filter_app, filter_fresh by exact Hfresh.
  cbn [List.filter fav_placeId]. rewrite String.eqb_refl. cbn [negb].
  rewrite app_nil_r.
  assert (V2 : valid (mkUser (favorites u) (visitedPlaces u) (points u + 5) (badges u))
               = true) by exact Hv.
  rewrite V2. reflexivity.
Qed.

(** X13: points are awarded for adding a favourite and never taken back for
    removing it: adding a place that is not a favourite and removing it
    again, [n] times over, leaves favourites, visits and badges as they were
    and the points [5 * n] higher. *)
Theorem favorite_cycles_award_points n now body u :
  valid u = true -> castId (body_placeId body) <> "" ->
  ~ In (castId (body_placeId body)) (favoriteIds u) ->
  serve (favoriteCycles n now body) u = addPoints (5 * Z.of_nat n) u.
Proof.
  revert u. induction n as [|n IH]; intros u Hv Hne Hfresh.
  - cbn. unfold addPoints. rewrite Z.add_0_r. destruct u; reflexivity.
  - cbn [favoriteCycles serve fold_left handle].
    rewrite add_then_remove by assumption.
    change (fold_left _ ?l ?a) with (serve l a). rewrite IH.
    + unfold addPoints. cbn [favorites visitedPlaces points badges]. f_equal. lia.
    + exact Hv.
    + exact Hne.
    + exact Hfresh.
Qed.

Lemma favorite_cycles_award_points_witness :
  points (serve (favoriteCycles 3 50 pier) newcomer) = 15
  /\ favorites (serve (favoriteCycles 3 50 pier) newcomer) = [].
Proof.
  rewrite (favorite_cycles_award_points 3 50 pier newcomer);
    [split; reflexivity|reflexivity|discriminate|intros []].
Defined.

Lemma revisitFirst_valid now pid r vs :
  forallb validVisit vs = true ->
  match r with Some x => 1 <= x <= 5 | None => True end ->
  forallb validVisit (revisitFirst now pid r vs) = true.
Proof.
  intros Hvs Hr. induction vs as [|v vs IH]; [reflexivity|].
  cbn [forallb] in Hvs. apply andb_true_iff in Hvs as [Hv Hvs].
  cbn [revisitFirst]. destruct (strictEq (visit_placeId v) pid); cbn [forallb].
  - rewrite Hvs, andb_true_r. unfold validVisit, revisit in *.
    cbn [visit_placeId visit_rating]. apply andb_true_iff in Hv as [Hid Hrt].
    rewrite Hid. cbn [andb]. destruct (JS.truthyNum r); [|exact Hrt].
    destruct r as [x|]; [|reflexivity].
    apply andb_true_iff. split; apply Z.leb_le; lia.
  - rewrite Hv, IH by exact Hvs. reflexivity.
Qed.

Lemma markAsVisited_valid now body u :
  valid u = true -> wellFormed body ->
  snd (markAsVisited now body u)
  = Return (mkResponse 200 true "Marked as visited successfully")
  /\ valid (fst (markAsVisited now body u)) = true.
Proof.
  intros Hv [Hne Hr]. unfold valid in Hv. apply andb_true_iff in Hv as [Hf Hvs].
  assert (Hc : castId (body_placeId body) <> "")
    by (destruct (body_placeId body); [exact Hne|destruct Hne]).
  unfold markAsVisited. cbv zeta.
  set (vs := match List.find _ (visitedPlaces u) with Some _ => _ | None => _ end).
  assert (Hvs' : forallb validVisit vs = true).
  { subst vs. destruct (List.find _ (visitedPlaces u)).
    - apply revisitFirst_valid; assumption.
    - rewrite forallb_app, Hvs. cbn [forallb andb]. rewrite andb_true_r.
      unfold validVisit. cbn [visit_placeId visit_rating].
      destruct (String.eqb_spec (castId (body_placeId body)) ""); [contradiction|].
      cbn [negb andb]. destruct (JS.truthyNum (body_rating body)); [|reflexivity].
      destruct (body_rating body); [|reflexivity].
      apply andb_true_iff. split; apply Z.leb_le; lia. }
  assert (V1 : valid (mkUser (favorites u) vs (points u) (badges u)) = true).
  { unfold valid. cbn [favorites visitedPlaces]. rewrite Hf, Hvs'. reflexivity. }
  rewrite V1. cbn [fst snd]. split; [reflexivity|].
  assert (V2 : valid (addPoints 10 (mkUser (favorites u) vs (points u) (badges u)))
               = true) by exact V1.
  assert (Hb : forall n d w, valid w = true -> valid (addBadge now n d w) = true).
  { intros n d w Hw. unfold valid.
    destruct (addBadge_frame now n d w) as (-> & -> & _). exact Hw. }
  destruct (length _ =? 1)%nat; [|destruct (length _ =? 10)%nat].
  - apply Hb, V2.
  - apply Hb, V2.
  - exact V2.
Qed.

(** X14: every visit request of a well-formed body is answered 200 and
    awards ten points, a repeated visit of the same place as well, which
    adds no entry: after the calls the points are up by ten times their
    number, and the visited places are those of before and those of the
    bodies. *)
Theorem visits_award_points calls u :
  valid u = true -> Forall wellFormed (map snd calls) ->
  points (serve (visits calls) u) = points u + 10 * Z.of_nat (length calls)
  /\ favorites (serve (visits calls) u) = favorites u
  /\ (forall pid, In pid (visitedIds (serve (visits calls) u))
                  <-> In pid (visitedIds u)
                      \/ In pid (map (fun b => castId (body_placeId b))
                                   (map snd calls))).
Proof.
  revert u. induction calls as [|[now body] calls IH]; intros u Hv Hwf.
  - cbn. repeat split; try lia; tauto.
  - cbn [map snd] in Hwf. apply Forall_cons in Hwf as [Hb Hwf].
    cbn [visits map serve fold_left handle fst snd].
    change (fold_left _ (map _ calls) ?a) with (serve (visits calls) a).
    destruct (markAsVisited_valid now body u Hv Hb) as [Hres Hv'].
    destruct (markAsVisited now body u) as [u' res] eqn:E. cbn [fst snd] in *.
    destruct (markAsVisited_inv _ _ _ _ _ E)
      as [[_ Hthrow]|(_ & Hfs & Hpts & Hids & _)]; [congruence|].
    destruct (IH u' Hv' Hwf) as (P & F & V).
    rewrite P, F, Hpts, Hfs. split; [cbn [length]; lia|]. split; [reflexivity|].
    intros pid. rewrite V, Hids. cbn [map snd In].
    destruct (known _ _) eqn:D.
    + apply known_In in D.
      split; [tauto|]. intros [H|[<-|H]]; tauto.
    + rewrite in_app_iff. cbn [In]. tauto.
Qed.

Lemma visits_award_points_witness :
  points (serve (visits [(10, pier); (20, mole); (30, pier)]) newcomer) = 30
  /\ visitedIds (serve (visits [(10, pier); (20, mole); (30, pier)]) newcomer)
     = ["5d2"; "7a1"].
Proof.
  split; [|reflexivity].
  refine (proj1 (visits_award_points [(10, pier); (20, mole); (30, pier)] newcomer _ _)).
  - reflexivity.
  - repeat constructor; try discriminate; cbn; lia.
Defined.

Lemma handle_badges u r : badgesTrackVisits u -> badgesTrackVisits (fst (handle u r)).
Proof.
  intros [HF HA]. destruct r as [now body|pid|now body]; cbn [handle].
  - destruct (addToFavorites now body u) as [u' res] eqn:E. cbn [fst].
    destruct (addToFavorites_inv _ _ _ _ _ E)
      as [[-> _]|(_ & _ & _ & _ & Hvs & Hbs)]; [split; assumption|].
    unfold badgesTrackVisits, hasBadge. rewrite Hvs, Hbs. split; assumption.
  - destruct (removeFromFavorites pid u) as [u' res] eqn:E. cbn [fst].
    destruct (removeFromFavorites_inv _ _ _ _ E) as (_ & Hvs & Hbs & _).
    unfold badgesTrackVisits, hasBadge. rewrite Hvs, Hbs. split; assumption.
  - destruct (markAsVisited now body u) as [u' res] eqn:E. cbn [fst].
    destruct (markAsVisited_inv _ _ _ _ _ E)
      as [[-> _]|(_ & _ & _ & Hids & Hbs)]; [split; assumption|].
    assert (Hlen : (length (visitedPlaces u') = length (visitedPlaces u)
                    \/ length (visitedPlaces u') = S (length (visitedPlaces u)))%nat).
    { rewrite <- (length_map visit_placeId (visitedPlaces u')).
      rewrite <- (length_map visit_placeId (visitedPlaces u)).
      fold (visitedIds u') (visitedIds u). rewrite Hids.
      destruct (known _ _); [left; reflexivity|right].
      rewrite length_app. cbn [length]. lia. }
    assert (Hl' : length (visitedIds u') = length (visitedPlaces u'))
      by apply length_map.
    rewrite Hl' in Hbs. unfold badgesTrackVisits.
    rewrite !hasBadge_In, Hbs. rewrite !hasBadge_In in HF, HA.
    destruct (Nat.eqb_spec (length (visitedPlaces u')) 1) as [e1|n1];
      [|destruct (Nat.eqb_spec (length (visitedPlaces u')) 10) as [e10|n10]].
    + destruct (hasBadge "First Explorer" u) eqn:B.
      * apply hasBadge_In in B. split; [split; [lia|intros _; exact B]|].
        rewrite HA. lia.
      * rewrite !in_app_iff. cbn [In]. split; [split; [lia|tauto]|].
        split; [intros [H|[H|[]]]; [apply HA in H; lia|discriminate]|lia].
    + destruct (hasBadge "Adventure Seeker" u) eqn:B.
      * apply hasBadge_In in B. split; [rewrite HF; lia|].
        split; [lia|intros _; exact B].
      * rewrite !in_app_iff. cbn [In]. split; [|split; [lia|tauto]].
        split; [lia|]. intros _. left. apply HF. lia.
    + split; [rewrite HF|rewrite HA]; lia.
Qed.

(** X15: the two visit badges follow the number of visited places: if
    "First Explorer" is held exactly when a place has been visited and
    "Adventure Seeker" exactly when ten have, then the same is so after any
    sequence of add-favourite, remove-favourite and mark-visited requests. *)
Theorem badges_track_visits u rs :
  badgesTrackVisits u -> badgesTrackVisits (serve rs u).
Proof.
  revert u. induction rs as [|r rs IH]; intros u H; [exact H|].
  cbn [serve fold_left]. apply IH, handle_badges, H.
Qed.

Lemma badges_track_visits_witness :
  badgesTrackVisits (serve (visits [(10, pier); (20, mole); (30, pier)]) newcomer).
Proof.
  apply (badges_track_visits newcomer). split; split; cbn; (discriminate || lia).
Defined.

Lemma existsb_fav pid fs :
  existsb (fun fav => String.eqb (fav_placeId fav) pid) fs = true
  <-> In pid (map fav_placeId fs).
Proof.
  induction fs as [|f fs IH]; [split; [discriminate|intros []]|].
  cbn [existsb map In]. rewrite orb_true_iff, IH.
  destruct (String.eqb_spec (fav_placeId f) pid); intuition congruence.
Qed.

Lemma find_revisitFirst now pid r vs v :
  List.find (fun x => String.eqb (visit_placeId x) pid) vs = Some v ->
  List.find (fun x => String.eqb (visit_placeId x) pid)
    (revisitFirst now (IdStr pid) r vs)
  = Some (revisit now r v).
Proof.
  induction vs as [|x vs IH]; [discriminate|]. cbn [List.find revisitFirst strictEq].
  destruct (String.eqb (visit_placeId x) pid) eqn:E.
  - intros [= <-]. cbn [List.find revisit visit_placeId]. rewrite E. reflexivity.
  - intros H. cbn [List.find]. rewrite E. apply IH, H.
Qed.

(** X29: the place-details handler reports what the favourite and visit
    handlers stored.  For a user document that validates and a well-formed
    body: after an add-favourite request the place is reported as a
    favourite and after a remove-favourite request it is not; after a
    mark-visited request it is reported as visited, with the rating of the
    request when it has one and with the rating reported before when it has
    none. *)
Theorem interaction_reflects_requests now body u :
  valid u = true -> wellFormed body ->
  let id := castId (body_placeId body) in
  isFavorite (userInteraction id (fst (addToFavorites now body u))) = true
  /\ isFavorite (userInteraction id (fst (removeFromFavorites id u))) = false
  /\ visited (userInteraction id (fst (markAsVisited now body u))) = true
  /\ rating (userInteraction id (fst (markAsVisited now body u)))
     = if JS.truthyNum (body_rating body) then body_rating body
       else rating (userInteraction id u).
Proof.
  intros Hv Hwf. cbv zeta.
  destruct (markAsVisited_valid now body u Hv Hwf) as [Hres _].
  destruct Hwf as [Hne Hr].
  destruct (body_placeId body) as [s|n] eqn:Hid; [|destruct Hne]. cbn [castId].
  split; [|split].
  - unfold userInteraction. cbn [isFavorite]. apply existsb_fav.
    destruct (known (IdStr s) (favoriteIds u)) eqn:K.
    + destruct (addToFavorites now body u) as [u' res] eqn:E. cbn [fst].
      destruct (addToFavorites_inv _ _ _ _ _ E) as [[-> _]|(_ & K' & _)].
      * apply (known_In (IdStr s)), K.
      * rewrite Hid in K'. congruence.
    + rewrite addToFavorites_pushes; [|exact Hv|rewrite Hid; exact Hne
                                      |rewrite Hid; exact K].
      cbn [fst addPoints favorites]. rewrite map_app, Hid. apply in_or_app.
      right. left. reflexivity.
  - unfold userInteraction. cbn [isFavorite].
    destruct (existsb _ _) eqn:X; [|reflexivity]. apply existsb_fav in X.
    destruct (removeFromFavorites s u) as [u' res] eqn:E.
    cbn [fst] in X. unfold removeFromFavorites in E.
    assert (V1 : valid (mkUser (List.filter (fun fav => negb (String.eqb (fav_placeId fav)
                   s)) (favorites u))
                   (visitedPlaces u) (points u) (badges u)) = true).
    { unfold valid in *. cbn [favorites visitedPlaces].
      apply andb_true_iff in Hv as [Hf Hvs]. rewrite Hvs, andb_true_r.
      apply forallb_forall. intros f Hin. apply filter_In in Hin as [Hin _].
      rewrite forallb_forall in Hf. apply Hf, Hin. }
    rewrite V1 in E. injection E as <- _. cbn [favorites] in X.
    rewrite filter_fav_ids in X. apply filter_In in X as [_ X].
    rewrite String.eqb_refl in X. discriminate.
  - unfold markAsVisited in *. cbv zeta in *. rewrite Hid in *.
    cbn [strictEq castId] in *.
    set (vs := match List.find _ (visitedPlaces u) with Some _ => _ | None => _ end) in *.
    clear Hv.
    destruct (valid (mkUser (favorites u) vs (points u) (badges u)));
      [|discriminate]. cbn [fst].
    assert (Hvis : forall w, visitedPlaces w = vs ->
              visited (userInteraction s w) = true
              /\ rating (userInteraction s w)
                 = if JS.truthyNum (body_rating body) then body_rating body
                   else rating (userInteraction s u)).
    { intros w Hw. unfold userInteraction. cbn [visited rating]. rewrite Hw. subst vs.
      destruct (List.find _ (visitedPlaces u)) as [v|] eqn:F.
      - rewrite (find_revisitFirst _ _ _ _ _ F). split; [reflexivity|].
        unfold revisit. cbn [visit_rating].
        destruct (JS.truthyNum (body_rating body)) eqn:T; [rewrite T|]; reflexivity.
      - rewrite (find_app_none _ _ _ F). cbn [List.find visit_placeId].
        rewrite String.eqb_refl. split; [reflexivity|]. cbn [visit_rating].
        destruct (JS.truthyNum (body_rating body)) eqn:T; [rewrite T|]; reflexivity. }
    destruct (length _ =? 1)%nat; [|destruct (length _ =? 10)%nat];
      apply Hvis; try reflexivity;
      (etransitivity; [apply (proj1 (proj2 (addBadge_frame _ _ _ _)))|reflexivity]).
Qed.

Lemma interaction_reflects_requests_witness :
  visited (userInteraction "5d2" (fst (markAsVisited 10 pier newcomer))) = true
  /\ rating (userInteraction "5d2" (fst (markAsVisited 10 pier newcomer))) = Some 4.
Proof.
  destruct (interaction_reflects_requests 10 pier newcomer) as (_ & _ & Hv & Hr).
  - reflexivity.
  - split; [discriminate|cbn; lia].
  - split; [exact Hv|exact Hr].
Defined.

End UserFacts.

Module RouteFacts.
Import ItineraryRoutes.
Import RouteNotions.

Lemma findOne_owned id u c it :
  findOne id u c = Some it <-> c !! id = Some it /\ Itinerary.user it = u.
Proof.
  unfold findOne. destruct (c !! id) as [it0|]; [|split; [discriminate|intros [[=] _]]].
  destruct (String.eqb_spec (Itinerary.user it0) u) as [e|ne].
  - split; [intros [= <-]; split; [reflexivity|exact e]|intros [[= <-] _]; reflexivity].
  - split; [discriminate|intros [[= <-] e]; contradiction].
Qed.

Lemma toggleLike_rest now u it :
  Itinerary.with_likes (Itinerary.likes it) (Itinerary.toggleLike now u it) = it.
Proof.
  unfold Itinerary.toggleLike. destruct (List.find _ _); destruct it; reflexivity.
Qed.

Lemma with_likes_toggleLike ls now u it :
  Itinerary.with_likes ls (Itinerary.toggleLike now u it) = Itinerary.with_likes ls it.
Proof. unfold Itinerary.toggleLike. destruct (List.find _ _); reflexivity. Qed.

Lemma toggleLike_owner now u it :
  Itinerary.user (Itinerary.toggleLike now u it) = Itinerary.user it.
Proof. unfold Itinerary.toggleLike. destruct (List.find _ _); reflexivity. Qed.

Lemma toggleLike_others now u w it :
  w <> u ->
  (In w (ItineraryNotions.likers (Itinerary.toggleLike now u it))
   <-> In w (ItineraryNotions.likers it)).
Proof.
  intros Hw. unfold ItineraryNotions.likers, Itinerary.toggleLike.
  destruct (List.find _ _); cbn [Itinerary.likes Itinerary.with_likes].
  - pose proof (ItineraryFacts.In_without w u (Itinerary.likes it)) as H.
    unfold ItineraryNotions.without in H. rewrite H. tauto.
  - rewrite map_app, in_app_iff. cbn [map In Itinerary.like_user].
    split; [intros [H|[H|[]]]; [exact H|congruence]|tauto].
Qed.

Lemma markPlaceVisited_keeps now pid r it :
  Itinerary.user (Itinerary.markPlaceVisited now pid r it) = Itinerary.user it
  /\ Itinerary.likes (Itinerary.markPlaceVisited now pid r it) = Itinerary.likes it.
Proof.
  unfold Itinerary.markPlaceVisited. cbv zeta. destruct (forallb _ _); split; reflexivity.
Qed.

Lemma updateItinerary_keeps body it it' answer :
  Controller.updateItinerary body (Some it) = (Some it', answer) ->
  Itinerary.user it' = Itinerary.user it /\ Itinerary.likes it' = Itinerary.likes it.
Proof.
  unfold Controller.updateItinerary. cbv zeta.
  destruct (Itinerary.valid _); [|discriminate]. intros [= <- _].
  destruct (JS.truthyStr (Controller.ub_title body));
    destruct (JS.truthyStr (Controller.ub_description body));
    destruct (Controller.ub_places body);
    destruct (Controller.ub_isPublic body); split; reflexivity.
Qed.

(** What one request does to the document stored under an id. *)
Lemma handle_lookup u r c id it :
  c !! id = Some it ->
  (handle u r c).1 !! id = Some it
  \/ (Itinerary.user it = u /\ (handle u r c).1 !! id = None)
  \/ (Itinerary.user it = u
      /\ exists it', (handle u r c).1 !! id = Some it'
                     /\ Itinerary.user it' = u
                     /\ Itinerary.likes it' = Itinerary.likes it)
  \/ (exists now, r = ToggleLike now id
                  /\ (handle u r c).1 !! id = Some (Itinerary.toggleLike now u it)).
Proof.
  intros Hit.
  assert (Hsave : forall id' it0 it' msg,
    c !! id' = Some it0 -> Itinerary.user it0 = u ->
    Itinerary.user it' = u -> Itinerary.likes it' = Itinerary.likes it0 ->
    (save id' it' msg c).1 !! id = Some it
    \/ (Itinerary.user it = u
        /\ exists it'', (save id' it' msg c).1 !! id = Some it''
                        /\ Itinerary.user it'' = u
                        /\ Itinerary.likes it'' = Itinerary.likes it)).
  { intros id' it0 it' msg H0 Hu0 Hu' Hl. unfold save.
    destruct (Itinerary.valid it'); cbn [fst]; [|left; exact Hit].
    destruct (decide (id' = id)) as [->|ne].
    - right. rewrite Hit in H0. injection H0 as <-. split; [exact Hu0|].
      exists it'. rewrite lookup_insert_eq. repeat split; assumption.
    - left. rewrite lookup_insert_ne by exact ne. exact Hit. }
  assert (Howned : forall id' (f : Itinerary.itinerary -> Itinerary.itinerary) msg,
    (forall x, Itinerary.user (f x) = Itinerary.user x
               /\ Itinerary.likes (f x) = Itinerary.likes x) ->
    let out := match findOne id' u c with
               | None => (c, Return notFound)
               | Some itinerary => save id' (f itinerary) msg c
               end in
    out.1 !! id = Some it
    \/ (Itinerary.user it = u
        /\ exists it'', out.1 !! id = Some it''
                        /\ Itinerary.user it'' = u
                        /\ Itinerary.likes it'' = Itinerary.likes it)).
  { intros id' f msg Hf. cbv zeta. destruct (findOne id' u c) as [it0|] eqn:F;
      [|left; exact Hit].
    apply findOne_owned in F as [H0 Hu0]. destruct (Hf it0) as [Hfu Hfl].
    apply (Hsave id' it0); [exact H0|exact Hu0|congruence|exact Hfl]. }
  destruct r as [id' body|id'|now id' pid rating|id' body|id' pid|now id'|id'];
    cbn [handle].
  - unfold updateItinerary. destruct (findOne id' u c) as [it0|] eqn:F.
    + apply findOne_owned in F as [H0 Hu0].
      destruct (Controller.updateItinerary body (Some it0)) as [[it'|] answer] eqn:E;
        cbn [fst]; [|left; exact Hit].
      destruct (updateItinerary_keeps _ _ _ _ E) as [Hu' Hl].
      destruct (decide (id' = id)) as [->|ne].
      * right. right. left. rewrite Hit in H0. injection H0 as <-.
        split; [exact Hu0|]. exists it'. rewrite lookup_insert_eq.
        repeat split; [congruence|exact Hl].
      * left. rewrite lookup_insert_ne by exact ne. exact Hit.
    + left. cbn. exact Hit.
  - unfold deleteItinerary. destruct (findOne id' u c) as [it0|] eqn:F;
      cbn [fst]; [|left; exact Hit].
    apply findOne_owned in F as [H0 Hu0]. destruct (decide (id' = id)) as [->|ne].
    + right. left. rewrite Hit in H0. injection H0 as <-.
      split; [exact Hu0|apply lookup_delete_eq].
    + left. rewrite lookup_delete_ne by exact ne. exact Hit.
  - unfold markPlaceVisited.
    destruct (Howned id' (Itinerary.markPlaceVisited now pid rating)
                "Place marked as visited") as [H|H];
      [intros x; apply markPlaceVisited_keeps|left; exact H|right; right; left; exact H].
  - unfold addPlaceToItinerary.
    destruct (Howned id' (Itinerary.addPlace
                {| Itinerary.pd_placeId := ap_placeId body;
                   Itinerary.pd_name := ap_name body;
                   Itinerary.pd_category := ap_category body;
                   Itinerary.pd_estimatedDuration :=
                     Some (JS.orNum (ap_estimatedDuration body) 60);
                   Itinerary.pd_notes := Some (JS.orStr (ap_notes body) "");
                   Itinerary.pd_isVisited := None;
                   Itinerary.pd_rating := None |})
                "Place added to itinerary") as [H|H];
      [intros x; split; reflexivity|left; exact H|right; right; left; exact H].
  - unfold removePlaceFromItinerary.
    destruct (Howned id' (Itinerary.removePlace pid) "Place removed from itinerary")
      as [H|H];
      [intros x; split; reflexivity|left; exact H|right; right; left; exact H].
  - unfold toggleLike, findById. destruct (c !! id') as [it0|] eqn:H0;
      [|left; exact Hit].
    unfold save. destruct (Itinerary.valid _); cbn [fst]; [|left; exact Hit].
    destruct (decide (id' = id)) as [->|ne].
    + right. right. right. exists now. rewrite Hit in H0. injection H0 as <-.
      split; [reflexivity|apply lookup_insert_eq].
    + left. rewrite lookup_insert_ne by exact ne. exact Hit.
  - unfold shareItinerary.
    destruct (Howned id' (fun x => with_shares (Itinerary.shares x + 1) x)
                "Itinerary shared successfully") as [H|H];
      [intros x; split; reflexivity|left; exact H|right; right; left; exact H].
Qed.

Lemma handle_creates_nothing u r c id :
  c !! id = None -> (handle u r c).1 !! id = None.
Proof.
  intros Hno.
  assert (Hsave : forall id' it0 it' msg,
            c !! id' = Some it0 -> (save id' it' msg c).1 !! id = None).
  { intros id' it0 it' msg H0. unfold save. destruct (Itinerary.valid it'); cbn [fst];
      [|exact Hno].
    rewrite lookup_insert_ne; [exact Hno|]. intros ->. congruence. }
  destruct r as [id' body|id'|now id' pid rating|id' body|id' pid|now id'|id'];
    cbn [handle].
  - unfold updateItinerary. destruct (findOne id' u c) as [it0|] eqn:F.
    + apply findOne_owned in F as [H0 _].
      destruct (Controller.updateItinerary body (Some it0)) as [[it'|] answer];
        cbn [fst]; [|exact Hno].
      rewrite lookup_insert_ne; [exact Hno|]. intros ->. congruence.
    + cbn. exact Hno.
  - unfold deleteItinerary. destruct (findOne id' u c); cbn [fst]; [|exact Hno].
    destruct (decide (id' = id)) as [->|ne];
      [apply lookup_delete_eq|rewrite lookup_delete_ne by exact ne; exact Hno].
  - unfold markPlaceVisited. destruct (findOne id' u c) as [it0|] eqn:F; [|exact Hno].
    apply findOne_owned in F as [H0 _]. apply (Hsave _ _ _ _ H0).
  - unfold addPlaceToItinerary. destruct (findOne id' u c) as [it0|] eqn:F; [|exact Hno].
    apply findOne_owned in F as [H0 _]. apply (Hsave _ _ _ _ H0).
  - unfold removePlaceFromItinerary. destruct (findOne id' u c) as [it0|] eqn:F;
      [|exact Hno].
    apply findOne_owned in F as [H0 _]. apply (Hsave _ _ _ _ H0).
  - unfold toggleLike, findById. destruct (c !! id') as [it0|] eqn:H0; [|exact Hno].
    apply (Hsave _ _ _ _ H0).
  - unfold shareItinerary. destruct (findOne id' u c) as [it0|] eqn:F; [|exact Hno].
    apply findOne_owned in F as [H0 _]. apply (Hsave _ _ _ _ H0).
Qed.

(** X16: an itinerary is out of reach of the other users but for its likes:
    after any sequence of update, delete, mark-visited, add-place,
    remove-place, like and share requests, none of them from its owner, the
    document is still stored under its id and differs from what it was in
    its likes at most; it is exactly what it was when no like request was
    among them. *)
Theorem foreign_itineraries_protected reqs c id it :
  c !! id = Some it ->
  Forall (fun q => fst q <> Itinerary.user it) reqs ->
  exists it', serve reqs c !! id = Some it'
    /\ Itinerary.with_likes (Itinerary.likes it) it' = it
    /\ (forallb (fun q => negb (isToggle (snd q))) reqs = true -> it' = it).
Proof.
  intros Hit Hall.
  assert (Hgen : forall c it1, c !! id = Some it1 ->
            Itinerary.with_likes (Itinerary.likes it) it1 = it ->
            exists it', serve reqs c !! id = Some it'
              /\ Itinerary.with_likes (Itinerary.likes it) it' = it
              /\ (forallb (fun q => negb (isToggle (snd q))) reqs = true ->
                  it1 = it -> it' = it)).
  { clear c Hit. induction Hall as [|[u r] reqs Hu Hall IH]; intros c it1 H1 Hrest.
    - exists it1. repeat split; [exact H1|exact Hrest|intros _ e; exact e].
    - cbn [fst] in Hu. cbn [serve fold_left fst snd].
      change (fold_left _ reqs ?a) with (serve reqs a).
      assert (Hown : Itinerary.user it1 = Itinerary.user it).
      { rewrite <- Hrest. reflexivity. }
      destruct (handle_lookup u r c id it1 H1)
        as [H|[[e _]|[[e _]|(now & -> & H)]]]; try congruence.
      + destruct (IH _ _ H Hrest) as (it' & A & B & C). exists it'.
        repeat split; [exact A|exact B|].
        cbn [forallb]. intros Hf e. apply andb_true_iff in Hf as [_ Hf]. apply C; assumption.
      + assert (Hrest' : Itinerary.with_likes (Itinerary.likes it)
                           (Itinerary.toggleLike now u it1) = it).
        { rewrite with_likes_toggleLike. exact Hrest. }
        destruct (IH _ _ H Hrest') as (it' & A & B & C). exists it'.
        repeat split; [exact A|exact B|]. cbn [forallb snd isToggle negb andb].
        discriminate. }
  destruct (Hgen c it Hit) as (it' & A & B & C).
  - destruct it; reflexivity.
  - exists it'. repeat split; [exact A|exact B|]. intros Hf. apply C; [exact Hf|reflexivity].
Qed.

Lemma foreign_itineraries_protected_witness :
  serve intrusion shelf !! "it-1" = Some ItineraryNotions.threeStops.
Proof.
  destruct (foreign_itineraries_protected intrusion shelf "it-1"
              ItineraryNotions.threeStops) as (it' & A & _ & C).
  - reflexivity.
  - repeat constructor; discriminate.
  - rewrite A. f_equal. apply C. reflexivity.
Defined.

(** X17: a like is set and withdrawn by its own user only: whatever the
    other users request, a user is among those who like a stored itinerary
    afterwards exactly if the user was before. *)
Theorem likes_toggled_by_own_user reqs w c id it it' :
  Forall (fun q => fst q <> w) reqs ->
  c !! id = Some it ->
  serve reqs c !! id = Some it' ->
  (In w (ItineraryNotions.likers it') <-> In w (ItineraryNotions.likers it)).
Proof.
  intros Hall. revert c it. induction Hall as [|[u r] reqs Hu Hall IH]; intros c it Hit Hend.
  - cbn in Hend. rewrite Hit in Hend. injection Hend as <-. tauto.
  - cbn [fst] in Hu. cbn [serve fold_left fst snd] in Hend.
    change (fold_left _ reqs ?a) with (serve reqs a) in Hend.
    destruct (handle_lookup u r c id it Hit)
      as [H|[[_ H]|[(_ & it1 & H & _ & Hl)|(now & -> & H)]]].
    + apply (IH _ _ H Hend).
    + exfalso. clear IH. revert Hend. generalize (handle u r c).1 H.
      clear. induction reqs as [|[u' r'] reqs IH]; intros c Hno Hend.
      * cbn in Hend. congruence.
      * cbn [serve fold_left fst snd] in Hend. apply (IH _ (handle_creates_nothing u' r' c id Hno) Hend).
    + rewrite (IH _ _ H Hend). unfold ItineraryNotions.likers. rewrite Hl. tauto.
    + rewrite (IH _ _ H Hend). apply toggleLike_others. congruence.
Qed.

Lemma likes_toggled_by_own_user_witness :
  In "ann" (ItineraryNotions.likers
              (Itinerary.toggleLike 7 "bob" (Itinerary.toggleLike 5 "cy" ItineraryNotions.twoLikes))).
Proof.
  apply (likes_toggled_by_own_user
           [("cy", ToggleLike 5 "it-2"); ("bob", ToggleLike 7 "it-2")] "ann"
           {[ "it-2" := ItineraryNotions.twoLikes ]} "it-2" ItineraryNotions.twoLikes).
  - repeat constructor; discriminate.
  - reflexivity.
  - reflexivity.
  - left. reflexivity.
Defined.

(** X18: the handlers create no itinerary and never change an owner: a
    document stored under an id after any sequence of requests was stored
    under that id before, with the same owner. *)
Theorem owners_and_ids_fixed reqs c id it' :
  serve reqs c !! id = Some it' ->
  exists it, c !! id = Some it /\ Itinerary.user it' = Itinerary.user it.
Proof.
  revert c. induction reqs as [|[u r] reqs IH]; intros c Hend.
  - exists it'. split; [exact Hend|reflexivity].
  - cbn [serve fold_left fst snd] in Hend.
    change (fold_left _ reqs ?a) with (serve reqs a) in Hend.
    destruct (IH _ Hend) as (it1 & H1 & Hu1).
    destruct (c !! id) as [it|] eqn:Hit.
    + exists it. split; [reflexivity|]. rewrite Hu1.
      destruct (handle_lookup u r c id it Hit)
        as [H|[[_ H]|[(e & it2 & H & e2 & _)|(now & -> & H)]]]; try congruence.
      rewrite H in H1. injection H1 as <-. apply toggleLike_owner.
    + rewrite (handle_creates_nothing u r c id Hit) in H1. discriminate.
Qed.

Lemma owners_and_ids_fixed_witness :
  exists it, shelf !! "it-1" = Some it /\ Itinerary.user it = "u1".
Proof.
  destruct (owners_and_ids_fixed
              [("u1", Share "it-1"); ("u2", ToggleLike 3 "it-1")] shelf "it-1"
              (Itinerary.toggleLike 3 "u2"
                 (with_shares 1 ItineraryNotions.threeStops)))
    as (it & A & B).
  - vm_compute. reflexivity.
  - exists it. split; [exact A|]. rewrite <- B. reflexivity.
Defined.

Lemma toggleLike_valid now u it :
  Itinerary.valid (Itinerary.toggleLike now u it) = Itinerary.valid it.
Proof. unfold Itinerary.toggleLike. destruct (List.find _ _); reflexivity. Qed.

(** X19: the like handler asks neither for ownership nor for the itinerary
    to be public: on any stored itinerary that validates, a like request of
    any user is answered with a success and flips that user's like, the
    rest of the document and every other document staying as they were. *)
Theorem like_needs_no_access now u id c it :
  c !! id = Some it ->
  Itinerary.valid it = true ->
  let out := handle u (ToggleLike now id) c in
  out.1 = <[id := Itinerary.toggleLike now u it]> c
  /\ out.2 = Return (Controller.ok "Like toggled successfully"
                       (Itinerary.toggleLike now u it))
  /\ (In u (ItineraryNotions.likers (Itinerary.toggleLike now u it))
      <-> ~ In u (ItineraryNotions.likers it)).
Proof.
  intros Hit Hv. cbv zeta. cbn [handle]. unfold toggleLike, findById, save.
  rewrite Hit, toggleLike_valid, Hv. cbn [fst snd]. split; [reflexivity|].
  split; [reflexivity|].
  unfold ItineraryNotions.likers, Itinerary.toggleLike.
  destruct (List.find _ (Itinerary.likes it)) as [l|] eqn:F;
    cbn [Itinerary.likes Itinerary.with_likes].
  - pose proof (ItineraryFacts.In_without u u (Itinerary.likes it)) as H.
    unfold ItineraryNotions.without in H. rewrite H.
    apply ItineraryFacts.find_some_in in F. tauto.
  - apply ItineraryFacts.find_none_iff in F. rewrite map_app, in_app_iff.
    cbn [map In Itinerary.like_user]. tauto.
Qed.

Lemma like_needs_no_access_witness :
  Itinerary.isPublic ItineraryNotions.threeStops = false
  /\ Itinerary.user ItineraryNotions.threeStops <> "u2"
  /\ In "u2" (ItineraryNotions.likers (Itinerary.toggleLike 9 "u2" ItineraryNotions.threeStops)).
Proof.
  split; [reflexivity|]. split; [discriminate|].
  apply (like_needs_no_access 9 "u2" "it-1" shelf ItineraryNotions.threeStops);
    [reflexivity|reflexivity|intros []].
Defined.

End RouteFacts.

Module CacheFacts.
Import Foursquare.
Import CacheNotions.

Lemma cachePlaces_down places c : cachePlaces false places c = c.
Proof.
  unfold cachePlaces. revert c. induction places as [|x places IH]; intros c;
    [reflexivity|apply IH].
Qed.

Lemma cachePlaces_others storeUp places : forall c k,
  ~ In k (map fsq_id places) -> cachePlaces storeUp places c !! k = c !! k.
Proof.
  unfold cachePlaces. induction places as [|x places IH]; intros c k Hk; [reflexivity|].
  cbn [fold_left]. rewrite IH by (intros H; apply Hk; right; exact H).
  unfold cachePlace. destruct storeUp; [|reflexivity].
  apply lookup_insert_ne. intros e. apply Hk. left. exact e.
Qed.

Lemma cachePlaces_keeps storeUp places : forall c k p,
  c !! k = Some p ->
  exists p', cachePlaces storeUp places c !! k = Some p'
             /\ Place.popularity p' = Place.popularity p.
Proof.
  unfold cachePlaces. induction places as [|x places IH]; intros c k p Hp.
  - exists p. split; [exact Hp|reflexivity].
  - cbn [fold_left]. unfold cachePlace at 2. destruct storeUp; [|apply IH, Hp].
    destruct (decide (fsq_id x = k)) as [e|ne].
    + destruct (IH (<[fsq_id x := placeDoc x (c !! fsq_id x)]> c) k
                  (placeDoc x (c !! fsq_id x))) as (p' & A & B).
      * rewrite e. apply lookup_insert_eq.
      * exists p'. split; [exact A|]. rewrite B, e, Hp. reflexivity.
    + apply IH. rewrite lookup_insert_ne by exact ne. exact Hp.
Qed.

Lemma cachePlaces_stores places : forall c k,
  In k (map fsq_id places)
  \/ (exists q, c !! k = Some q /\ Place.foursquareId q = k) ->
  exists p, cachePlaces true places c !! k = Some p
            /\ Place.foursquareId p = k
            /\ Place.popularity p = storedPopularity c k.
Proof.
  unfold cachePlaces. induction places as [|x places IH]; intros c k Hk.
  - destruct Hk as [[]|(q & Hq & Hid)]. exists q. unfold storedPopularity.
    cbn [fold_left]. rewrite Hq. split; [reflexivity|]. split; [exact Hid|reflexivity].
  - cbn [fold_left]. unfold cachePlace at 2.
    destruct (decide (fsq_id x = k)) as [e|ne].
    + destruct (IH (<[fsq_id x := placeDoc x (c !! fsq_id x)]> c) k) as (p & A & B & C).
      * right. exists (placeDoc x (c !! fsq_id x)). rewrite e.
        split; [apply lookup_insert_eq|]. rewrite <- e. reflexivity.
      * exists p. split; [exact A|]. split; [exact B|]. rewrite C.
        unfold storedPopularity. rewrite <- e, lookup_insert_eq. reflexivity.
    + destruct (IH (<[fsq_id x := placeDoc x (c !! fsq_id x)]> c) k) as (p & A & B & C).
      * destruct Hk as [[e|H]|(q & Hq & Hid)]; [contradiction|left; exact H|].
        right. exists q. rewrite lookup_insert_ne by exact ne. split; assumption.
      * exists p. split; [exact A|]. split; [exact B|]. rewrite C.
        unfold storedPopularity. rewrite lookup_insert_ne by exact ne. reflexivity.
Qed.

(** X20: what a search does to the Place collection.  With the store down
    it is left as it was.  Whatever the provider answers, no cached place
    is dropped and none has its popularity changed, and the ids that are
    not among the places returned keep their documents.  With the store up
    every place returned is cached under its id afterwards, with the
    popularity stored before, 0 for a new one. *)
Theorem searchPlaces_cache get storeUp a c :
  let out := searchPlaces get storeUp a c in
  (storeUp = false -> out.1 = c)
  /\ (forall k p, c !! k = Some p ->
        exists p', out.1 !! k = Some p' /\ Place.popularity p' = Place.popularity p)
  /\ (forall fs, out.2 = Return fs ->
        (forall k, ~ In k (map id fs) -> out.1 !! k = c !! k)
        /\ (storeUp = true ->
            forall f, In f fs ->
              exists p, out.1 !! id f = Some p
                        /\ Place.foursquareId p = id f
                        /\ Place.popularity p = storedPopularity c (id f))).
Proof.
  cbv zeta. unfold searchPlaces. destruct (get (searchParams a)) as [m|results]; cbn [fst snd].
  - split; [reflexivity|]. split; [intros k p Hp; exists p; split; [exact Hp|reflexivity]|].
    discriminate.
  - assert (Hids : map id (formatPlaces (default [] results))
                   = map fsq_id (default [] results)).
    { unfold formatPlaces. rewrite map_map. reflexivity. }
    split; [intros ->; apply cachePlaces_down|].
    split; [intros k p Hp; apply (cachePlaces_keeps _ _ _ _ _ Hp)|].
    intros fs [= <-]. split.
    + intros k Hk. rewrite Hids in Hk. apply cachePlaces_others, Hk.
    + intros -> f Hf. apply cachePlaces_stores. left. rewrite <- Hids.
      apply in_map, Hf.
Qed.

Lemma keepStr_sound k v : forall kv, In kv (keepStr k v) -> kv = (k, PStr v) /\ v <> "".
Proof.
  intros kv H. destruct v; [destruct H|]. destruct H as [<-|[]].
  split; [reflexivity|discriminate].
Qed.

Lemma keepNum_sound k n : forall kv, In kv (keepNum k n) -> kv = (k, PNum n) /\ n <> 0.
Proof.
  intros kv H. unfold keepNum in H. destruct (Z.eqb_spec n 0); [destruct H|].
  destruct H as [<-|[]]. split; [reflexivity|assumption].
Qed.

Lemma keepStr_names k v : map fst (keepStr k v) = if String.eqb v "" then [] else [k].
Proof. destruct v; reflexivity. Qed.

Lemma keepNum_names k n : map fst (keepNum k n) = if n =? 0 then [] else [k].
Proof. unfold keepNum. destruct (n =? 0); reflexivity. Qed.

(** X21: the query sent to the provider carries no empty string and no 0,
    and lists its parameters in the order query, near, ll, radius,
    categories, limit, sort, each at most once.  A parameter left out by
    the caller goes out with its default (radius 5000, limit 20, sort
    RATING); one given as the empty string or as 0 is not replaced by the
    default but left out of the query. *)
Theorem searchParams_sends_no_falsy a :
  Forall (fun kv => falsy (snd kv) = false) (searchParams a)
  /\ sublist (map fst (searchParams a)) paramNames
  /\ (radius a = None -> In ("radius", PNum 5000) (searchParams a))
  /\ (limit a = None -> In ("limit", PNum 20) (searchParams a))
  /\ (sort a = None -> In ("sort", PStr "RATING") (searchParams a))
  /\ (radius a = Some 0 -> ~ In "radius" (map fst (searchParams a)))
  /\ (limit a = Some 0 -> ~ In "limit" (map fst (searchParams a)))
  /\ (sort a = Some "" -> ~ In "sort" (map fst (searchParams a))).
Proof.
  split; [|split].
  - unfold searchParams. rewrite !Forall_app. repeat split; apply List.Forall_forall;
      intros kv H;
      first [apply keepStr_sound in H as [-> Hv]; cbn [snd falsy];
             destruct (String.eqb_spec (default "" (query a)) "");
             destruct (String.eqb_spec (default "" (near a)) "");
             destruct (String.eqb_spec (default "" (ll a)) "");
             destruct (String.eqb_spec (default "" (categories a)) "");
             destruct (String.eqb_spec (default "RATING" (sort a)) "");
             congruence
            |apply keepNum_sound in H as [-> Hv]; cbn [snd falsy];
             apply Z.eqb_neq; exact Hv].
  - unfold searchParams, paramNames. rewrite !map_app, !keepStr_names, !keepNum_names.
    destruct (String.eqb _ ""), (String.eqb _ ""), (String.eqb _ ""), (_ =? 0),
      (String.eqb _ ""), (_ =? 0), (String.eqb _ "");
      cbn [app]; repeat first [apply sublist_nil | apply sublist_skip; solve [repeat first [apply sublist_nil | apply sublist_skip | apply sublist_cons]] | apply sublist_cons | apply sublist_skip].
  - unfold searchParams. rewrite !map_app, !keepStr_names, !keepNum_names.
    repeat split; intros ->; cbn [default from_option id];
      rewrite ?in_app_iff; cbn; try tauto;
      destruct (String.eqb _ ""), (String.eqb _ ""), (String.eqb _ ""),
        (String.eqb _ ""); cbn; try destruct (_ =? 0); try destruct (_ =? 0); cbn;
        try destruct (String.eqb _ ""); cbn; intuition congruence.
Qed.

End CacheFacts.

Module ChatFacts.
Import Chat.
Import ChatNotions.

Lemma timeBased_now hour : length (timeBased (getTimeOfDay hour)) = 3%nat.
Proof.
  unfold getTimeOfDay.
  destruct ((5 <=? hour) && (hour <? 12)); [reflexivity|].
  destruct ((12 <=? hour) && (hour <? 17)); [reflexivity|].
  destruct ((17 <=? hour) && (hour <? 21)); reflexivity.
Qed.

Lemma moodBased_cases mood : moodBased mood = [] \/ exists x, moodBased mood = [x].
Proof.
  unfold moodBased. destruct (JS.truthyStr mood); [|left; reflexivity]. cbv zeta.
  repeat (destruct (String.eqb _ _); [right; eexists; reflexivity|]).
  left. reflexivity.
Qed.

Lemma purposeBased_cases purpose :
  purposeBased purpose = [] \/ exists x y, purposeBased purpose = [x; y].
Proof.
  unfold purposeBased. destruct (JS.truthyStr purpose); [|left; reflexivity]. cbv zeta.
  repeat (destruct (String.eqb _ _); [right; eexists; eexists; reflexivity|]).
  left. reflexivity.
Qed.

(** X22: the suggestions route answers with at most five suggestions.
    Without a time of day in the query the first three are those of the
    hour of the clock, whatever the hour; a recognised mood then takes the
    fourth place, and of the two suggestions of a recognised purpose the
    second is cut off when a mood was recognised as well. *)
Theorem contextual_suggestions_cut hour q :
  let s := getContextualSuggestions hour q in
  (length s <= 5)%nat
  /\ (JS.truthyStr (sq_timeOfDay q) = false ->
      take 3 s = timeBased (getTimeOfDay hour)
      /\ (moodBased (sq_mood q) <> [] -> purposeBased (sq_purpose q) <> [] ->
          s = (timeBased (getTimeOfDay hour) ++ moodBased (sq_mood q)
               ++ take 1 (purposeBased (sq_purpose q)))%list)
      /\ (moodBased (sq_mood q) = [] ->
          s = (timeBased (getTimeOfDay hour) ++ purposeBased (sq_purpose q))%list)).
Proof.
  cbv zeta. unfold getContextualSuggestions, generateContextualSuggestions.
  split; [rewrite length_take; lia|]. intros Ht.
  assert (Hor : JS.orStr (sq_timeOfDay q) (getTimeOfDay hour) = getTimeOfDay hour).
  { destruct (sq_timeOfDay q) as [[|]|]; [reflexivity|discriminate|reflexivity]. }
  rewrite Hor. pose proof (timeBased_now hour) as H3.
  destruct (timeBased (getTimeOfDay hour)) as [|a [|b [|c [|]]]]; try discriminate.
  destruct (moodBased_cases (sq_mood q)) as [->|[x ->]];
    destruct (purposeBased_cases (sq_purpose q)) as [->|(y & z & ->)];
    repeat split; try reflexivity; intros; congruence.
Qed.


(** X24: the preference analysis proposes new preferences exactly when at
    least two of the three kinds (cuisine, atmosphere, price range) were
    detected, and then proposes all that was detected; its confidence is
    below 1 in every case, three detected kinds included. *)
Theorem analysis_needs_two_kinds history :
  let a := analyzeConversationForPreferences history in
  let n := totalDetected (detectedPreferences a) in
  ((2 <= n)%nat /\ newPreferences a = Some (detectedPreferences a)
   \/ (n <= 1)%nat /\ newPreferences a = None)
  /\ PrimFloat.ltb (confidence a) 1 = true.
Proof.
  cbv zeta. unfold analyzeConversationForPreferences. cbv zeta.
  cbn [detectedPreferences confidence newPreferences].
  generalize (nonEmpty (List.filter (fun cuisine => JS.includes (conversationText history) cuisine) cuisines)).
  generalize (nonEmpty (List.filter (fun atmosphere => JS.includes (conversationText history) atmosphere) atmospheres)).
  generalize (if JS.includes (conversationText history) "cheap"
                 || JS.includes (conversationText history) "budget"
                 || JS.includes (conversationText history) "affordable"
              then Some "budget"
              else if JS.includes (conversationText history) "expensive"
                      || JS.includes (conversationText history) "luxury"
                      || JS.includes (conversationText history) "high-end"
              then Some "expensive" else None).
  intros [p|] [at_|] [cu|]; vm_compute; split; try reflexivity;
    first [left; split; [lia|reflexivity] | right; split; [lia|reflexivity]].
Qed.

Lemma append_cons ch (a b : string) : (String ch a +:+ b = String ch (a +:+ b))%string.
Proof. reflexivity. Qed.

Lemma append_assoc' (a b c : string) : ((a +:+ b) +:+ c = a +:+ (b +:+ c))%string.
Proof.
  induction a as [|ch a IH]; [reflexivity|]. rewrite !append_cons. f_equal. exact IH.
Qed.

Lemma prefix_append t c : String.prefix t (t +:+ c) = true.
Proof.
  induction t as [|ch t IH]; [destruct c; reflexivity|].
  rewrite append_cons. cbn [String.prefix].
  destruct (ascii_dec ch ch); [exact IH|contradiction].
Qed.

Lemma prefix_split t : forall s, String.prefix t s = true -> exists c, s = (t +:+ c)%string.
Proof.
  induction t as [|ch t IH]; intros s H.
  - exists s. reflexivity.
  - destruct s as [|ch' s]; [discriminate|]. cbn [String.prefix] in H.
    destruct (ascii_dec ch ch') as [<-|]; [|discriminate].
    destruct (IH s H) as [c ->]. exists c. reflexivity.
Qed.

Lemma includes_here s t : String.prefix t s = true -> JS.includes s t = true.
Proof. intros H. destruct s; cbn [JS.includes]; rewrite H; reflexivity. Qed.

Lemma includes_intro a t c : JS.includes (a +:+ t +:+ c) t = true.
Proof.
  induction a as [|ch a IH].
  - apply includes_here. change ("" +:+ t +:+ c)%string with (t +:+ c)%string.
    apply prefix_append.
  - rewrite append_cons. cbn [JS.includes].
    destruct (String.prefix _ _); [reflexivity|exact IH].
Qed.

Lemma includes_elim t : forall s,
  JS.includes s t = true -> exists a c, s = (a +:+ t +:+ c)%string.
Proof.
  induction s as [|ch s IH]; cbn [JS.includes]; intros H.
  - destruct (String.prefix t "") eqn:P; [|discriminate].
    destruct (prefix_split _ _ P) as [c ->]. exists "", c. reflexivity.
  - destruct (String.prefix t (String ch s)) eqn:P.
    + destruct (prefix_split _ _ P) as [c ->]. exists "", c. reflexivity.
    + destruct (IH H) as (a & c & ->). exists (String ch a), c. reflexivity.
Qed.

Lemma includes_trans s t w :
  JS.includes s t = true -> JS.includes t w = true -> JS.includes s w = true.
Proof.
  intros Hs Ht. destruct (includes_elim _ _ Hs) as (a & c & ->).
  destruct (includes_elim _ _ Ht) as (a' & c' & ->).
  replace (a +:+ (a' +:+ w +:+ c') +:+ c)%string
    with ((a +:+ a') +:+ w +:+ (c' +:+ c))%string
    by (rewrite !append_assoc'; reflexivity).
  apply includes_intro.
Qed.

(** X25: the price range is read off substrings: a conversation that has
    none of the words cheap, budget and affordable but some word in which
    "expensive" occurs, "inexpensive" for one, is analysed as asking for
    the expensive range. *)
Theorem inexpensive_reads_expensive history w :
  JS.includes w "expensive" = true ->
  JS.includes (conversationText history) w = true ->
  Forall (fun b => JS.includes (conversationText history) b = false) budgetWords ->
  priceRange (detectedPreferences (analyzeConversationForPreferences history))
  = Some "expensive".
Proof.
  intros Hw Ht Hb. unfold analyzeConversationForPreferences. cbv zeta.
  cbn [detectedPreferences priceRange].
  apply Forall_cons in Hb as [H1 Hb]. apply Forall_cons in Hb as [H2 Hb].
  apply Forall_cons in Hb as [H3 _]. rewrite H1, H2, H3.
  rewrite (includes_trans _ _ _ Ht Hw). reflexivity.
Qed.

Lemma inexpensive_reads_expensive_witness :
  priceRange (detectedPreferences
                (analyzeConversationForPreferences
                   [Some "Somewhere Inexpensive"; None; Some "and quiet, please"]))
  = Some "expensive".
Proof.
  apply (inexpensive_reads_expensive _ "inexpensive").
  - vm_compute. reflexivity.
  - vm_compute. reflexivity.
  - repeat constructor.
Defined.

Section Matching.
Variable get : list (string * Foursquare.paramValue) -> Foursquare.providerOutcome.
Variable storeUp : bool.

Lemma findM_found {A} (p : A -> result bool) l x :
  Controller.findM p l = Return (Some x) -> In x l /\ p x = Return true.
Proof.
  induction l as [|y l IH]; [discriminate|]. cbn [Controller.findM].
  destruct (p y) as [[|]|m] eqn:E; [|intros H; destruct (IH H); split; [right|];
                                     assumption|discriminate].
  intros [= <-]. split; [left; reflexivity|exact E].
Qed.

Lemma matchAll_sound recs places : forall l rec p,
  matchAll recs places = Return l -> In (rec, p) (matched l) ->
  In rec recs /\ In p places /\ matches rec p = Return true.
Proof.
  induction recs as [|r recs IH]; intros l rec p H Hin.
  - injection H as <-. destruct Hin.
  - cbn [matchAll] in H. destruct (Controller.findM (matches r) places) as [mp|] eqn:F;
      [|discriminate].
    destruct (matchAll recs places) as [l'|]; [|discriminate]. injection H as <-.
    unfold matched in Hin. cbn [omap snd fst] in Hin. destruct mp as [p0|].
    + destruct Hin as [[= <- <-]|Hin].
      * destruct (findM_found _ _ _ F) as [Hp Hm]. repeat split; [left; reflexivity| |];
          assumption.
      * destruct (IH l' rec p eq_refl Hin) as (A & B & C). repeat split;
          [right| |]; assumption.
    + destruct (IH l' rec p eq_refl Hin) as (A & B & C). repeat split;
        [right| |]; assumption.
Qed.

(** X26: every recommendation the handler returns is one of the answer of
    the model, paired with a place the search returned whose name contains
    the recommended place or whose category contains the recommended
    category, letter case aside. *)
Theorem recommended_places_sound ai searchLocation c rec p :
  In (rec, p) (recommendedPlaces get storeUp ai searchLocation c).2 ->
  (exists answer recs, ai_success ai = true
                       /\ ai_recommendations ai = Some answer
                       /\ recommendations answer = Some recs
                       /\ In rec recs)
  /\ (exists results, get (Foursquare.searchParams (nearbySearch searchLocation))
                      = Foursquare.Responded results
                      /\ In p (Foursquare.formatPlaces (default [] results)))
  /\ matches rec p = Return true.
Proof.
  unfold recommendedPlaces. destruct (ai_success ai); [|intros []].
  destruct (ai_recommendations ai) as [answer|]; [|intros []].
  unfold Foursquare.searchPlaces. fold (nearbySearch searchLocation).
  destruct (get _) as [m|results] eqn:G; [intros []|]. cbn [snd].
  destruct (recommendations answer) as [recs|] eqn:R; [|intros []].
  destruct (matchAll recs _) as [l|] eqn:M; [|intros []]. cbn [snd]. intros Hin.
  destruct (matchAll_sound _ _ _ _ _ M Hin) as (A & B & C).
  split; [exists answer, recs; repeat split; assumption|].
  split; [exists results; split; [reflexivity|exact B]|exact C].
Qed.

Lemma matches_uncategorised rec p :
  Foursquare.category p = None ->
  matches rec p = Return true \/ exists m, matches rec p = Throw m.
Proof.
  intros Hc. unfold matches. destruct (rec_place rec); [|right; eexists; reflexivity].
  destruct (JS.includes _ _); [left; reflexivity|]. rewrite Hc.
  right; eexists; reflexivity.
Qed.

Lemma matchAll_uncategorised p0 places recs :
  Foursquare.category p0 = None ->
  (exists m, matchAll recs (p0 :: places) = Throw m)
  \/ matchAll recs (p0 :: places) = Return (map (fun rec => (rec, Some p0)) recs).
Proof.
  intros Hc. induction recs as [|r recs IH]; [right; reflexivity|].
  cbn [matchAll Controller.findM].
  destruct (matches_uncategorised r p0 Hc) as [->|[m ->]];
    [|left; eexists; reflexivity].
  destruct IH as [[m ->]| ->]; [left; eexists; reflexivity|right; reflexivity].
Qed.

Lemma matched_all recs p0 :
  matched (map (fun rec : recommendation => (rec, Some p0)) recs)
  = map (fun rec => (rec, p0)) recs.
Proof. induction recs as [|r recs IH]; [reflexivity|]. cbn. f_equal. exact IH. Qed.

End Matching.

Lemma recommended_places_sound_witness :
  matches coffee
    (Foursquare.formatPlace (GenerationNotions.blueCafe (Some "Coffee Shop")))
  = Return true.
Proof.
  apply (recommended_places_sound (nearby true) true (advice [bread; coffee])
           "-122.4,37.8" ∅).
  vm_compute. right. left. reflexivity.
Defined.

(** X27: when the first place the search returns carries no category,
    the handler returns no recommendation at all, or it pairs every
    recommendation of the model with that first place: a recommendation
    that does not match the first place by name makes the comparison
    throw, and the exception discards the whole list. *)
Theorem uncategorised_first_result get storeUp ai searchLocation c r0 rest :
  get (Foursquare.searchParams (nearbySearch searchLocation))
  = Foursquare.Responded (Some (r0 :: rest)) ->
  Foursquare.raw_category r0 = None ->
  (recommendedPlaces get storeUp ai searchLocation c).2 = []
  \/ exists answer recs,
       ai_recommendations ai = Some answer
       /\ recommendations answer = Some recs
       /\ (recommendedPlaces get storeUp ai searchLocation c).2
          = map (fun rec => (rec, Foursquare.formatPlace r0)) recs.
Proof.
  intros G Hc. unfold recommendedPlaces. destruct (ai_success ai); [|left; reflexivity].
  destruct (ai_recommendations ai) as [answer|]; [|left; reflexivity].
  unfold Foursquare.searchPlaces. fold (nearbySearch searchLocation). rewrite G.
  cbn [from_option id snd Foursquare.formatPlaces map].
  destruct (recommendations answer) as [recs|] eqn:R; [|left; reflexivity].
  destruct (matchAll_uncategorised (Foursquare.formatPlace r0)
              (map Foursquare.formatPlace rest) recs Hc) as [[m ->]| ->].
  - left. reflexivity.
  - right. exists answer, recs. cbn [snd]. rewrite matched_all.
    repeat split; [exact R].
Qed.

Lemma uncategorised_first_result_witness :
  (recommendedPlaces (nearby false) true (advice [bread; coffee]) "-122.4,37.8" ∅).2 = []
  /\ length (recommendedPlaces (nearby true) true (advice [bread; coffee])
               "-122.4,37.8" ∅).2 = 2%nat.
Proof.
  split; [|vm_compute; reflexivity].
  destruct (uncategorised_first_result (nearby false) true (advice [bread; coffee])
              "-122.4,37.8" ∅ (GenerationNotions.bakery None)
              [GenerationNotions.blueCafe None] eq_refl eq_refl)
    as [H|(answer & recs & _ & _ & H)]; [exact H|].
  vm_compute. reflexivity.
Defined.

End ChatFacts.

Module DetailFacts.
Import Controller.
Import ItineraryDetails.
Import DetailNotions.

Section Flow.
Variable JSON_parse : string -> option OpenAI.skeleton.
Variable chat : string -> string -> string -> option string.
Variable get : list (string * Foursquare.paramValue) -> Foursquare.providerOutcome.
Variable storeUp : bool.
Variable getPlaceDetails : string -> result Foursquare.formatted.

Lemma placeholder_as_stored index place :
  withDetails getPlaceDetails (entryOf None index place)
  = AsStored (entryOf None index place).
Proof.
  unfold withDetails, entryOf. cbn [Itinerary.placeId fmap option_fmap option_map JS.orStr].
  unfold placeholderId. rewrite ChatFacts.prefix_append. reflexivity.
Qed.

Lemma entryOf_origin bestMatch index place :
  withDetails getPlaceDetails (entryOf bestMatch index place)
  = AsStored (entryOf bestMatch index place)
  \/ exists b, bestMatch = Some b
               /\ Itinerary.placeId (entryOf bestMatch index place) = Foursquare.id b.
Proof.
  destruct bestMatch as [b|]; [|left; apply placeholder_as_stored].
  destruct (Foursquare.id b) eqn:E.
  - left. unfold withDetails, entryOf.
    cbn [Itinerary.placeId fmap option_fmap option_map]. rewrite E. cbn [JS.orStr].
    unfold placeholderId. rewrite ChatFacts.prefix_append. reflexivity.
  - right. exists b. split; [reflexivity|]. unfold entryOf.
    cbn [Itinerary.placeId fmap option_fmap option_map]. rewrite E. reflexivity.
Qed.

Lemma resolvePlace_origin loc index place c :
  let e := snd (resolvePlace get storeUp loc index place c) in
  withDetails getPlaceDetails e = AsStored e \/ fromProvider get e.
Proof.
  cbv zeta. rewrite GenerationFacts.resolvePlace_entry.
  destruct (get _) as [m|results] eqn:G; [left; apply placeholder_as_stored|].
  destruct (findM _ _) as [bestMatch|] eqn:F; [|left; apply placeholder_as_stored].
  destruct (entryOf_origin bestMatch index place) as [H|(b & -> & Hid)];
    [left; exact H|right].
  apply ChatFacts.findM_found in F as [Hin _].
  unfold Foursquare.formatPlaces in Hin. apply in_map_iff in Hin as (r & <- & Hr).
  destruct results as [results|]; [|destruct Hr].
  exists (Foursquare.searchParams (GenerationNotions.stubSearch loc place)), results, r.
  repeat split; [exact G|exact Hr|exact Hid].
Qed.

Lemma resolvePlace_offline loc index place c :
  (forall params, exists m, get params = Foursquare.Rejected m) ->
  snd (resolvePlace get storeUp loc index place c) = entryOf None index place.
Proof.
  intros Hoff. rewrite GenerationFacts.resolvePlace_entry.
  destruct (Hoff (Foursquare.searchParams (GenerationNotions.stubSearch loc place)))
    as [m ->]. reflexivity.
Qed.

Lemma resolvePlaces_origin loc stubs : forall index c,
  let entries := snd (resolvePlaces get storeUp loc index stubs c) in
  Forall (fun e => withDetails getPlaceDetails e = AsStored e \/ fromProvider get e)
    entries
  /\ ((forall params, exists m, get params = Foursquare.Rejected m) ->
      map (withDetails getPlaceDetails) entries = map AsStored entries).
Proof.
  induction stubs as [|place rest IH]; intros index c; cbv zeta.
  - split; [constructor|reflexivity].
  - cbn [resolvePlaces].
    pose proof (resolvePlace_origin loc index place c) as Ho.
    pose proof (resolvePlace_offline loc index place c) as Hoff.
    destruct (resolvePlace get storeUp loc index place c) as [c1 entry].
    specialize (IH (S index) c1). cbv zeta in IH.
    destruct (resolvePlaces get storeUp loc (S index) rest c1) as [c2 entries].
    cbn [snd] in *. destruct IH as [IHo IHoff]. split.
    + constructor; [exact Ho|exact IHo].
    + intros H. cbn [map]. rewrite (IHoff H), (Hoff H), placeholder_as_stored.
      reflexivity.
Qed.

(** X28: what [getItinerary] does with the entries of a generated
    itinerary.  Each entry is either returned as it is stored, without a
    detail lookup, or carries the id of a place the provider returned; the
    placeholder ids the generation assigns are all recognised, so an
    itinerary generated while every search was rejected is returned
    without any lookup. *)
Theorem generated_entries_details req st st' resp it :
  generateItinerary JSON_parse chat get storeUp req st = (st', Return resp) ->
  data resp = Some it ->
  Forall (fun e => withDetails getPlaceDetails e = AsStored e \/ fromProvider get e)
    (Itinerary.places it)
  /\ ((forall params, exists m, get params = Foursquare.Rejected m) ->
      map (withDetails getPlaceDetails) (Itinerary.places it)
      = map AsStored (Itinerary.places it)).
Proof.
  intros Hgen Hdata.
  destruct (GenerationFacts.generateItinerary_success JSON_parse chat get storeUp
              req st st' resp it Hgen Hdata)
    as (p & u & loc & reply & sk & stubs & _ & _ & _ & _ & _ & _ & -> & _).
  cbn [Itinerary.cast Itinerary.places GenerationNotions.generated
       Itinerary.new_places].
  apply resolvePlaces_origin.
Qed.

End Flow.

Lemma generated_entries_details_witness :
  exists st' it,
    generateItinerary GenerationNotions.parse
      (GenerationNotions.replying GenerationNotions.morningJSON)
      (fun _ => Foursquare.Rejected "timeout of 10000ms exceeded") true
      GenerationNotions.request GenerationNotions.start
    = (st', Return (ok "Itinerary generated successfully" it))
    /\ map (withDetails noDetails) (Itinerary.places it)
       = map AsStored (Itinerary.places it)
    /\ length (Itinerary.places it) = 2%nat.
Proof.
  assert (Hgen : exists st' it,
             generateItinerary GenerationNotions.parse
               (GenerationNotions.replying GenerationNotions.morningJSON)
               (fun _ => Foursquare.Rejected "timeout of 10000ms exceeded") true
               GenerationNotions.request GenerationNotions.start
             = (st', Return (ok "Itinerary generated successfully" it)))
    by (eexists _, _; vm_compute; reflexivity).
  destruct Hgen as (st' & it & Hgen). exists st', it. split; [exact Hgen|].
  destruct (generated_entries_details GenerationNotions.parse
              (GenerationNotions.replying GenerationNotions.morningJSON)
              (fun _ => Foursquare.Rejected "timeout of 10000ms exceeded") true
              noDetails GenerationNotions.request GenerationNotions.start st' _ it
              Hgen eq_refl) as [_ Hoff].
  split; [apply Hoff; intros params; eexists; reflexivity|].
  vm_compute in Hgen. injection Hgen as _ <-. reflexivity.
Defined.

End DetailFacts.
